(** * Chunk-level retrieval metrics: a shallow embedding

    The development follows the Python modules of the evaluation core:
    [app.calculate_text_similarity] and its twin in [text_similarity],
    the [BM25] index and [BM25Evaluator.evaluate_precision_recall] of
    [BM25_evaluate], [F1_Metrics], [MRR_Metrics], [NDCG_Metrics] and
    [MAP_Metrics].

    Conventions.
    - A Python [str] is the list of its code points ([list N]).
    - Python floats are read as exact numbers: rationals ([Q]) where the
      code only adds, multiplies, divides and compares, reals ([R]) where
      it takes logarithms ([math.log], [np.log2]).  Rounding is not
      modelled there.  Where rounding shows, in the two sums of NDCG and
      in the quotient of F1, module [Binary64] replays the code on
      binary64 floats.
    - Python sets and dicts are stdpp's [gset] and [gmap].
    - Exceptions are values of the error monad [result]. *)

From Stdlib Require Import ZArith NArith QArith Qreals Reals Psatz Lia.
From Stdlib Require Import List Sorted String Ascii.
From Stdlib Require PrimFloat.
From stdpp Require Import gmap list.
Import ListNotations.

(** ** Python's Unicode tables

    [re]'s classes [\w], [\s], [\d] and [str.lower] depend on the Unicode
    database of the interpreter; they are taken as a parameter.  The two
    laws are the only facts about [str.lower] that the proofs use. *)

Class PyUnicode := {
  isword : N → bool;                       (* re: \w *)
  isspace : N → bool;                      (* re: \s, str.isspace *)
  isdigit : N → bool;                      (* re: \d *)
  lower : list N → list N;                 (* str.lower *)
  lower_nil : lower [] = [];
  lower_nonspace : ∀ s,
    Exists (λ c, isspace c = false) s →
    Exists (λ c, isspace c = false) (lower s)
}.

Module Py.

(** Code points of an ASCII literal. *)
Fixpoint str (s : string) : list N :=
  match s with
  | EmptyString => []
  | String c s' => N_of_ascii c :: str s'
  end.

Definition SPACE : N := 32%N.

(** The block U+4E00..U+9FFF. *)
Definition is_cjk (c : N) : bool := (19968 <=? c)%N && (c <=? 40959)%N.

(** [range(a, b)] *)
Definition range (a b : nat) : list nat := seq a (b - a).

(** [enumerate(l)] *)
Definition enumerate {A} (l : list A) : list (nat * A) := zip (seq 0 (length l)) l.

(** [s[i:j]] for [0 <= i <= j]. *)
Definition slice {A} (s : list A) (i j : nat) : list A := take (j - i) (drop i s).

(** [l[:m]]: a negative [m] counts from the end. *)
Definition slice_to {A} (l : list A) (m : Z) : list A :=
  if (m <? 0)%Z then take (Z.to_nat (Z.of_nat (length l) + m)) l
  else take (Z.to_nat m) l.

Fixpoint startswith (needle hay : list N) : bool :=
  match needle, hay with
  | [], _ => true
  | _ :: _, [] => false
  | a :: needle', b :: hay' => (a =? b)%N && startswith needle' hay'
  end.

(** [needle in hay] on strings. *)
Fixpoint contains (needle hay : list N) : bool :=
  startswith needle hay ||
  match hay with
  | [] => false
  | _ :: hay' => contains needle hay'
  end.

(** [max(a, b)] and [min(a, b)] of two floats: the first argument is kept
    unless the second is strictly better. *)
Definition max (a b : Q) : Q := if Qle_bool b a then a else b.
Definition min (a b : Q) : Q := if Qle_bool a b then a else b.

(** [a > b] on floats. *)
Definition gt (a b : Q) : bool := negb (Qle_bool a b).

Definition float (n : nat) : Q := inject_Z (Z.of_nat n).

(** The maximal runs of characters in the class [p], as [re.findall] with
    the pattern [p+] lists them; [cur] is the run being read, last
    character first. *)
Fixpoint runs_from (p : N → bool) (cur s : list N) : list (list N) :=
  match s with
  | [] => match cur with [] => [] | _ => [rev cur] end
  | c :: s' =>
      if p c then runs_from p (c :: cur) s'
      else match cur with
           | [] => runs_from p [] s'
           | _ => rev cur :: runs_from p [] s'
           end
  end.

Definition runs (p : N → bool) (s : list N) : list (list N) := runs_from p [] s.

(** *** Exceptions *)

Inductive exn := IndexError | KeyError | ValueError | ZeroDivisionError.

Inductive result (A : Type) : Type :=
  | Ok (a : A)
  | Raise (e : exn).
Arguments Ok {A} a.
Arguments Raise {A} e.

#[global] Instance result_ret : MRet result := λ A a, Ok a.
#[global] Instance result_bind : MBind result := λ A B f m,
  match m with
  | Ok a => f a
  | Raise e => Raise e
  end.

(** [for x in l: acc = body(acc, x)], stopping at the first exception. *)
Definition for_ {A B} (l : list B) (init : A) (body : A → B → result A) : result A :=
  foldl (λ acc x, a ← acc; body a x) (Ok init) l.

(** [l[i]], with Python's negative indices. *)
Definition getitem {A} (l : list A) (i : Z) : result A :=
  let i := if (i <? 0)%Z then (i + Z.of_nat (length l))%Z else i in
  if (i <? 0)%Z then Raise IndexError
  else match l !! Z.to_nat i with
       | Some x => Ok x
       | None => Raise IndexError
       end.

(** [a / b] on floats. *)
Definition truediv (a b : Q) : result Q :=
  if Qeq_bool b 0 then Raise ZeroDivisionError else Ok (a / b)%Q.

Definition rtruediv (a b : R) : result R :=
  if Req_dec_T b 0 then Raise ZeroDivisionError else Ok (a / b)%R.

#[global] Instance Rlt_decision : RelDecision Rlt := Rlt_dec.

(** [max(l)] of a non-empty list, [l.index(x)], [sum(l)], [np.mean(l)]. *)
Definition max_list (l : list Q) : result Q :=
  match l with
  | [] => Raise ValueError
  | x :: l' => Ok (foldl max x l')
  end.

Fixpoint index_from (i : nat) (l : list Q) (x : Q) : result nat :=
  match l with
  | [] => Raise ValueError
  | y :: l' => if Qeq_bool y x then Ok i else index_from (S i) l' x
  end.

Definition index (l : list Q) (x : Q) : result nat := index_from 0 l x.

Definition sum (l : list Q) : Q := foldl Qplus 0%Q l.

Definition mean (l : list Q) : Q := (sum l / float (length l))%Q.

(** [np.mean(l)] of a list of floats that come from logarithms. *)
Definition rsum (l : list R) : R := foldl Rplus 0%R l.

Definition rmean (l : list R) : R := (rsum l / INR (length l))%R.

Section Unicode.
Context `{PyUnicode}.

Fixpoint lstrip (s : list N) : list N :=
  match s with
  | [] => []
  | c :: s' => if isspace c then lstrip s' else s
  end.

(** [s.strip()] *)
Definition strip (s : list N) : list N := rev (lstrip (rev (lstrip s))).

(** [s.split()] *)
Definition split (s : list N) : list (list N) := runs (λ c, negb (isspace c)) s.

(** [re.sub] of every character outside [\w], [\s] and U+4E00..U+9FFF
    by a space. *)
Definition sub_nonword (s : list N) : list N :=
  map (λ c, if isword c || isspace c || is_cjk c then c else SPACE) s.

(** [re.sub(r'\s+', ' ', s)]; [in_run] says that the previous character
    was whitespace, already replaced. *)
Fixpoint sub_spaces (in_run : bool) (s : list N) : list N :=
  match s with
  | [] => []
  | c :: s' =>
      if isspace c
      then (if in_run then sub_spaces true s' else SPACE :: sub_spaces true s')
      else c :: sub_spaces false s'
  end.

End Unicode.
End Py.

(** ** app.py / text_similarity.py: the similarity of two chunks *)

Module app.
Section Unicode.
Context `{PyUnicode}.

Definition clean_text (text : list N) : list N :=
  let cleaned := Py.sub_nonword text in
  let cleaned := Py.strip (Py.sub_spaces false cleaned) in
  lower cleaned.

(** The two nested loops that look for a common run of at least five
    characters. *)
Definition partial_match (shorter longer : list N) : nat :=
  foldl (λ max_match i,
    foldl (λ max_match j,
      let substring := Py.slice shorter i j in
      if Py.contains substring longer
      then Nat.max max_match (length substring)
      else max_match)
      max_match (Py.range (i + 5) (length shorter + 1)))
    0%nat (Py.range 0 (length shorter - 5)).

Definition substring_similarity (clean_text1 clean_text2 : list N) : Q :=
  if (10 <? length clean_text1)%nat && (10 <? length clean_text2)%nat then
    let '(shorter, longer) :=
      if (length clean_text1 <? length clean_text2)%nat
      then (clean_text1, clean_text2) else (clean_text2, clean_text1) in
    if Py.contains shorter longer
    then (Py.float (length shorter) / Py.float (length longer))%Q
    else
      let max_match := partial_match shorter longer in
      match longer with
      | [] => 0%Q
      | _ => (Py.float max_match / Py.float (length longer))%Q
      end
  else 0%Q.

(** The weighted sum and the literal-containment override, shared by the
    two variants of the function. *)
Definition weighted_similarity (clean_text1 clean_text2 : list N)
    (words1 words2 : gset (list N)) : Q :=
  let intersection := size (words1 ∩ words2) in
  let union := size (words1 ∪ words2) in
  let jaccard_similarity :=
    if (0 <? union)%nat then (Py.float intersection / Py.float union)%Q else 0%Q in
  let chars1 : gset N := list_to_set clean_text1 in
  let chars2 : gset N := list_to_set clean_text2 in
  let char_intersection := size (chars1 ∩ chars2) in
  let char_union := size (chars1 ∪ chars2) in
  let char_similarity :=
    if (0 <? char_union)%nat
    then (Py.float char_intersection / Py.float char_union)%Q else 0%Q in
  let substring_similarity := substring_similarity clean_text1 clean_text2 in
  let final_similarity :=
    (jaccard_similarity * (2#5) + char_similarity * (3#10)
     + substring_similarity * (3#10))%Q in
  if (length clean_text2 <? length clean_text1)%nat then
    if Py.contains clean_text2 clean_text1
    then Py.max final_similarity (4#5) else final_similarity
  else if (length clean_text1 <? length clean_text2)%nat then
    if Py.contains clean_text1 clean_text2
    then Py.max final_similarity (4#5) else final_similarity
  else final_similarity.

(** [calculate_text_similarity] of app.py.  [semantic_containment_threshold]
    is the value read from the environment. *)
Definition calculate_text_similarity (semantic_containment_threshold : Q)
    (text1 text2 : list N) : Q :=
  match text1, text2 with
  | [], _ | _, [] => 0%Q
  | _, _ =>
    let clean_text1 := clean_text text1 in
    let clean_text2 := clean_text text2 in
    let words1 : gset (list N) := list_to_set (Py.split clean_text1) in
    let words2 : gset (list N) := list_to_set (Py.split clean_text2) in
    if bool_decide (words1 = ∅) || bool_decide (words2 = ∅) then 0%Q else
    let final_similarity :=
      weighted_similarity clean_text1 clean_text2 words1 words2 in
    let final_similarity :=
      if (0 <? size words1)%nat && (0 <? size words2)%nat then
        let semantic_containment :=
          if (size words1 <=? size words2)%nat
          then (Py.float (size (words1 ∩ words2)) / Py.float (size words1))%Q
          else (Py.float (size (words2 ∩ words1)) / Py.float (size words2))%Q in
        if Qle_bool semantic_containment_threshold semantic_containment
        then Py.max final_similarity (Py.min semantic_containment (19#20))
        else final_similarity
      else final_similarity in
    Py.min final_similarity 1
  end.

End Unicode.
End app.

Module text_similarity.
Section Unicode.
Context `{PyUnicode}.

(** [calculate_text_similarity] of text_similarity.py: the same weighted
    sum and literal-containment override, without the semantic override
    and without the final clamp. *)
Definition calculate_text_similarity (text1 text2 : list N) : Q :=
  match text1, text2 with
  | [], _ | _, [] => 0%Q
  | _, _ =>
    let clean_text1 := app.clean_text text1 in
    let clean_text2 := app.clean_text text2 in
    let words1 : gset (list N) := list_to_set (Py.split clean_text1) in
    let words2 : gset (list N) := list_to_set (Py.split clean_text2) in
    if bool_decide (words1 = ∅) || bool_decide (words2 = ∅) then 0%Q else
    app.weighted_similarity clean_text1 clean_text2 words1 words2
  end.

End Unicode.
End text_similarity.

(** ** BM25_evaluate.py *)

Module BM25_evaluate.

(** The environment variables that the evaluators read. *)
Record Env := {
  SIMILARITY_THRESHOLD : Q;
  SEMANTIC_CONTAINMENT_THRESHOLD : Q
}.

Record BM25 := {
  k1 : R;
  b : R;
  corpus : list (list (list N));
  corpus_size : nat;
  doc_freqs : list (gmap (list N) nat);
  idf : gmap (list N) R;
  doc_len : list nat;
  avgdl : R
}.

(** [BM25.__init__] *)
Definition init (k1 b : R) : BM25 :=
  {| k1 := k1; b := b; corpus := []; corpus_size := 0; doc_freqs := [];
     idf := ∅; doc_len := []; avgdl := 0 |}.

(** [BM25()] with the default parameters. *)
Definition new : BM25 := init (15 / 10) (75 / 100).

Definition OPEN : N := 12298%N.    (* U+300A, left title bracket *)
Definition CLOSE : N := 12299%N.   (* U+300B, right title bracket *)

Definition is_ascii_letter (c : N) : bool :=
  ((65 <=? c) && (c <=? 90) || (97 <=? c) && (c <=? 122))%N.

(** The characters up to the first right bracket of [s], when there is
    one: what the group of the title pattern captures when the pattern is
    tried just after a left bracket. *)
Fixpoint title_at (s : list N) : option (list N) :=
  match s with
  | [] => None
  | c :: s' => if (c =? CLOSE)%N then Some [] else cons c <$> title_at s'
  end.

(** [re.findall] of the title pattern (left bracket, one or more
    characters other than the right bracket, right bracket); [skip]
    counts the characters still covered by the last match. *)
Fixpoint book_titles_from (skip : nat) (s : list N) : list (list N) :=
  match s with
  | [] => []
  | c :: s' =>
      match skip with
      | S skip' => book_titles_from skip' s'
      | O =>
          if (c =? OPEN)%N then
            match title_at s' with
            | Some (t :: title) =>
                (t :: title) :: book_titles_from (S (length (t :: title))) s'
            | _ => book_titles_from 0 s'
            end
          else book_titles_from 0 s'
      end
  end.

Definition action_words : list (list N) :=
  [ [20998; 20139]; [25512; 33616]; [35835; 20102]; [35835; 20102; 26412];
    [26368; 36817; 35835; 20102]; [20070; 31821]; [20070]; [35835; 20070];
    [38405; 35835]; [35835; 21518; 24863] ]%N.

(** [Counter(doc)] *)
Definition Counter (doc : list (list N)) : gmap (list N) nat :=
  foldl (λ m token, <[token := S (default 0%nat (m !! token))]> m) ∅ doc.

Section Unicode.
Context `{PyUnicode}.

(** [BM25._tokenize] *)
Definition _tokenize (text : list N) : list (list N) :=
  match text with
  | [] => []
  | _ =>
    let text := lower text in
    let chinese_chars := (λ c, [c]) <$> filter (λ c, Is_true (Py.is_cjk c)) text in
    let english_words := Py.runs is_ascii_letter text in
    let numbers := Py.runs isdigit text in
    let book_titles := book_titles_from 0 text in
    let keywords := filter (λ word, Is_true (Py.contains word text)) action_words in
    let tokens := chinese_chars ++ english_words ++ numbers ++ book_titles ++ keywords in
    elements (list_to_set (C := gset (list N))
      (filter (λ token, (1 ≤ length token)%nat) tokens))
  end.

(** [BM25.fit] *)
Definition fit (self : BM25) (corpus : list (list N)) : BM25 :=
  let corpus := _tokenize <$> corpus in
  let corpus_size := length corpus in
  let doc_len := length <$> corpus in
  let avgdl :=
    if (0 <? corpus_size)%nat
    then (INR (foldl Nat.add 0%nat doc_len) / INR corpus_size)%R else 0%R in
  let doc_freqs := Counter <$> corpus in
  let df : gmap (list N) nat :=
    foldl (λ df frequencies,
      foldl (λ df word, <[word := (default 0%nat (df !! word) + 1)%nat]> df)
        df (elements (dom frequencies)))
      ∅ doc_freqs in
  let idf :=
    ((λ freq, ln ((INR corpus_size - INR freq + 5 / 10) / (INR freq + 5 / 10))%R)
       <$> df) ∪ idf self in
  {| k1 := k1 self; b := b self; corpus := corpus; corpus_size := corpus_size;
     doc_freqs := doc_freqs; idf := idf; doc_len := doc_len; avgdl := avgdl |}.

(** [BM25.score] *)
Definition score (self : BM25) (query : list N) (doc_index : Z) : Py.result R :=
  if (Z.of_nat (length (corpus self)) <=? doc_index)%Z then Py.Ok 0%R else
  let query_tokens := _tokenize query in
  doc_freqs ← Py.getitem (doc_freqs self) doc_index;
  doc_len ← Py.getitem (doc_len self) doc_index;
  Py.for_ query_tokens 0%R (λ score token,
    match doc_freqs !! token with
    | Some tf =>
        let idf := default 0%R (idf self !! token) in
        let numerator := (INR tf * (k1 self + 1))%R in
        ratio ← Py.rtruediv (INR doc_len) (avgdl self);
        let denominator := (INR tf + k1 self * (1 - b self + b self * ratio))%R in
        term ← Py.rtruediv numerator denominator;
        Py.Ok (score + idf * term)%R
    | None => Py.Ok score
    end).

(** [BM25.get_scores] *)
Definition get_scores (self : BM25) (query : list N) : Py.result (list R) :=
  Py.for_ (Py.range 0 (corpus_size self)) [] (λ scores i,
    s ← score self query (Z.of_nat i); Py.Ok (scores ++ [s])).

(** [is_chunk_relevant] *)
Definition is_chunk_relevant (query chunk : list N) (threshold : R)
    : Py.result (bool * R) :=
  match chunk, query with
  | [], _ | _, [] => Py.Ok (false, 0%R)
  | _, _ =>
    let bm25 := fit new [chunk] in
    score ← score bm25 query 0;
    Py.Ok (bool_decide (threshold < score)%R, score)
  end.

(** [BM25Evaluator.calculate_relevance_score] *)
Definition calculate_relevance_score (env : Env)
    (retrieved_chunk reference_chunk : list N) : Q :=
  match retrieved_chunk, reference_chunk with
  | [], _ | _, [] => 0%Q
  | _, _ =>
    app.calculate_text_similarity (SEMANTIC_CONTAINMENT_THRESHOLD env)
      retrieved_chunk reference_chunk
  end.

(** The [clean_text] nested in [_check_semantic_containment]. *)
Definition clean_text (text : list N) : list N :=
  let cleaned := Py.sub_nonword text in
  let cleaned := Py.strip (Py.sub_spaces false cleaned) in
  lower cleaned.

(** [BM25Evaluator._check_semantic_containment] *)
Definition _check_semantic_containment (retrieved_chunk reference_chunk : list N)
    (threshold : Q) : bool :=
  match retrieved_chunk, reference_chunk with
  | [], _ | _, [] => false
  | _, _ =>
    let clean_retrieved := clean_text retrieved_chunk in
    let clean_reference := clean_text reference_chunk in
    let words_retrieved : gset (list N) := list_to_set (Py.split clean_retrieved) in
    let words_reference : gset (list N) := list_to_set (Py.split clean_reference) in
    if (size words_retrieved =? 0)%nat || (size words_reference =? 0)%nat then false
    else
      let semantic_containment :=
        if (size words_retrieved <=? size words_reference)%nat
        then (Py.float (size (words_retrieved ∩ words_reference))
              / Py.float (size words_retrieved))%Q
        else (Py.float (size (words_reference ∩ words_retrieved))
              / Py.float (size words_reference))%Q in
      Qle_bool threshold semantic_containment
  end.

(** [chunk_scores.sort(key=lambda x: x[1], reverse=True)]: the sort is
    stable, so a pair goes behind the pairs whose score is not smaller. *)
Fixpoint insert_by_score (x : list N * R) (l : list (list N * R))
    : list (list N * R) :=
  match l with
  | [] => [x]
  | y :: l' =>
      if bool_decide (y.2 < x.2)%R then x :: l else y :: insert_by_score x l'
  end.

Definition sort_by_score (l : list (list N * R)) : list (list N * R) :=
  foldl (λ sorted x, insert_by_score x sorted) [] l.

(** [find_relevant_chunks] *)
Definition find_relevant_chunks (query : list N) (chunks : list (list N))
    (max_chunks : Z) (threshold : R) : Py.result (list (list N * R)) :=
  match chunks, query with
  | [], _ | _, [] => Py.Ok []
  | _, _ =>
    let bm25 := fit new chunks in
    scores ← get_scores bm25 query;
    chunk_scores ← Py.for_ (Py.range 0 (length chunks)) [] (λ chunk_scores i,
      chunk ← Py.getitem chunks (Z.of_nat i);
      score ← Py.getitem scores (Z.of_nat i);
      Py.Ok (chunk_scores ++ [(chunk, score)]));
    let chunk_scores := sort_by_score chunk_scores in
    let relevant_chunks :=
      filter (λ chunk_score, (threshold < chunk_score.2)%R) chunk_scores in
    Py.Ok (Py.slice_to relevant_chunks max_chunks)
  end.

End Unicode.

(** *** BM25Evaluator.evaluate_precision_recall

    The records keep the numeric fields and the indices of the entries
    that the code appends; the chunk texts and the query that it copies
    into them are left out. *)

Record row := {
  user_input : list N;
  retrieved_contexts : list (list N);
  reference_contexts : list (list N)
}.

Record relevant_chunk_info := {
  relevance_score : Q;
  rel_row_index : nat;
  rel_retrieved_idx : nat;
  rel_reference_idx : Z
}.

Record irrelevant_chunk_info := {
  irr_max_relevance : Q;
  irr_row_index : nat;
  irr_retrieved_idx : nat
}.

Record missed_chunk_info := {
  mis_max_relevance : Q;
  mis_row_index : nat;
  mis_reference_idx : nat;
  best_retrieved_idx : Z
}.

Record detailed_result := {
  row_index : nat;
  precision : Q;
  recall : Q;
  retrieved_count : nat;
  reference_count : nat;
  relevant_count : nat;
  total_relevance_score : Q;
  matched_reference_count : nat;
  row_relevant_chunks : list relevant_chunk_info;
  similarity_matrix : list (list Q)
}.

Record results := {
  precision_scores : list Q;
  recall_scores : list Q;
  irrelevant_chunks : list irrelevant_chunk_info;
  missed_chunks : list missed_chunk_info;
  relevant_chunks : list relevant_chunk_info;
  detailed_results : list detailed_result;
  avg_precision : Q;
  avg_recall : Q;
  avg_f1 : Q
}.

(** What one turn of the loop over the rows appends. *)
Record row_evaluation := {
  row_irrelevant : list irrelevant_chunk_info;
  row_missed : list missed_chunk_info;
  row_detail : detailed_result
}.

(** State of the first inner loop: [relevant_retrieved],
    [matched_references], [total_relevance_score] and the entries added
    to [results['irrelevant_chunks']]. *)
Record classification := {
  relevant_retrieved : list relevant_chunk_info;
  matched_references : gset Z;
  total : Q;
  irrelevant : list irrelevant_chunk_info
}.

(** One turn of the loop [for i, retrieved_chunk in enumerate(retrieved_contexts)]. *)
Definition classify_chunk (similarity_threshold : Q) (idx : nat)
    (reference_contexts : list (list N)) (similarity_matrix : list (list Q))
    (st : classification) (i : nat) : Py.result classification :=
  similarities ← Py.getitem similarity_matrix (Z.of_nat i);
  max_similarity ←
    match similarities with [] => Py.Ok 0%Q | _ => Py.max_list similarities end;
  best_ref_idx ←
    match similarities with
    | [] => Py.Ok (-1)%Z
    | _ => j ← Py.index similarities max_similarity; Py.Ok (Z.of_nat j)
    end;
  if Py.gt max_similarity similarity_threshold then
    _ ← Py.getitem reference_contexts best_ref_idx;
    let relevant_chunk_info :=
      {| relevance_score := max_similarity; rel_row_index := idx;
         rel_retrieved_idx := i; rel_reference_idx := best_ref_idx |} in
    Py.Ok {| relevant_retrieved := relevant_retrieved st ++ [relevant_chunk_info];
             matched_references := matched_references st ∪ {[best_ref_idx]};
             total := (total st + max_similarity)%Q;
             irrelevant := irrelevant st |}
  else
    Py.Ok {| relevant_retrieved := relevant_retrieved st;
             matched_references := matched_references st;
             total := total st;
             irrelevant := irrelevant st ++
               [{| irr_max_relevance := max_similarity; irr_row_index := idx;
                   irr_retrieved_idx := i |}] |}.

(** The scan of column [j] of the matrix: the running maximum, from 0,
    and the index that reached it, from -1. *)
Definition best_retrieved (similarity_matrix : list (list Q)) (n j : nat)
    : Py.result (Q * Z) :=
  Py.for_ (Py.range 0 n) (0%Q, (-1)%Z) (λ '(max_similarity, best_retrieved_idx) i,
    similarities ← Py.getitem similarity_matrix (Z.of_nat i);
    similarity ← Py.getitem similarities (Z.of_nat j);
    if Py.gt similarity max_similarity
    then Py.Ok (similarity, Z.of_nat i)
    else Py.Ok (max_similarity, best_retrieved_idx)).

(** One turn of the loop [for j, reference_chunk in enumerate(reference_contexts)]. *)
Definition check_missed (similarity_threshold : Q) (idx n : nat)
    (similarity_matrix : list (list Q))
    (missed : list missed_chunk_info) (j : nat) : Py.result (list missed_chunk_info) :=
  '(max_similarity, best_retrieved_idx) ← best_retrieved similarity_matrix n j;
  if Qle_bool max_similarity similarity_threshold
  then Py.Ok (missed ++
         [{| mis_max_relevance := max_similarity; mis_row_index := idx;
             mis_reference_idx := j; best_retrieved_idx := best_retrieved_idx |}])
  else Py.Ok missed.

(** The expression that the evaluator stores in [results['avg_f1']]. *)
Definition harmonic (precision recall : Q) : Q :=
  if Py.gt (precision + recall) 0
  then (2 * (precision * recall) / (precision + recall))%Q else 0%Q.

Definition no_results : results :=
  {| precision_scores := []; recall_scores := []; irrelevant_chunks := [];
     missed_chunks := []; relevant_chunks := []; detailed_results := [];
     avg_precision := 0; avg_recall := 0; avg_f1 := 0 |}.

Section Unicode.
Context `{PyUnicode}.

(** The body of the loop [for idx, row in df.iterrows()]; [None] when the
    row is skipped by [continue]. *)
Definition evaluate_row (env : Env) (idx : nat) (row : row)
    : Py.result (option row_evaluation) :=
  let retrieved_contexts := retrieved_contexts row in
  let reference_contexts := reference_contexts row in
  match retrieved_contexts, reference_contexts with
  | [], _ | _, [] => Py.Ok None
  | _, _ =>
    let similarity_threshold := SIMILARITY_THRESHOLD env in
    let similarity_matrix :=
      (λ retrieved_chunk,
         (λ reference_chunk,
            calculate_relevance_score env retrieved_chunk reference_chunk)
           <$> reference_contexts)
        <$> retrieved_contexts in
    st ← Py.for_ (Py.range 0 (length retrieved_contexts))
           {| relevant_retrieved := []; matched_references := ∅; total := 0;
              irrelevant := [] |}
           (classify_chunk similarity_threshold idx reference_contexts
              similarity_matrix);
    missed ← Py.for_ (Py.range 0 (length reference_contexts)) []
           (check_missed similarity_threshold idx (length retrieved_contexts)
              similarity_matrix);
    let precision := (total st / Py.float (length retrieved_contexts))%Q in
    let recall := (total st / Py.float (length reference_contexts))%Q in
    Py.Ok (Some
      {| row_irrelevant := irrelevant st;
         row_missed := missed;
         row_detail :=
           {| row_index := idx; precision := precision; recall := recall;
              retrieved_count := length retrieved_contexts;
              reference_count := length reference_contexts;
              relevant_count := length (relevant_retrieved st);
              total_relevance_score := total st;
              matched_reference_count := size (matched_references st);
              row_relevant_chunks := relevant_retrieved st;
              similarity_matrix := similarity_matrix |} |})
  end.

(** One turn of the loop over the rows: what the row yields is appended
    to [results]. *)
Definition append_row (env : Env) (results : results) (entry : nat * row)
    : Py.result BM25_evaluate.results :=
  let '(idx, row) := entry in
  evaluation ← evaluate_row env idx row;
  match evaluation with
  | None => Py.Ok results
  | Some e =>
      let d := row_detail e in
      Py.Ok
        {| precision_scores := precision_scores results ++ [precision d];
           recall_scores := recall_scores results ++ [recall d];
           irrelevant_chunks := irrelevant_chunks results ++ row_irrelevant e;
           missed_chunks := missed_chunks results ++ row_missed e;
           relevant_chunks := relevant_chunks results ++ row_relevant_chunks d;
           detailed_results := detailed_results results ++ [d];
           avg_precision := 0; avg_recall := 0; avg_f1 := 0 |}
  end.

(** [BM25Evaluator.evaluate_precision_recall] *)
Definition evaluate_precision_recall (env : Env) (df : list row)
    : Py.result results :=
  results ← Py.for_ (Py.enumerate df) no_results (append_row env);
  let avg_precision :=
    match precision_scores results with
    | [] => 0%Q
    | _ => Py.mean (precision_scores results)
    end in
  let avg_recall :=
    match recall_scores results with
    | [] => 0%Q
    | _ => Py.mean (recall_scores results)
    end in
  Py.Ok
    {| precision_scores := precision_scores results;
       recall_scores := recall_scores results;
       irrelevant_chunks := irrelevant_chunks results;
       missed_chunks := missed_chunks results;
       relevant_chunks := relevant_chunks results;
       detailed_results := detailed_results results;
       avg_precision := avg_precision;
       avg_recall := avg_recall;
       avg_f1 := harmonic avg_precision avg_recall |}.

End Unicode.
End BM25_evaluate.

(** ** F1_Metrics.py *)

Module F1_Metrics.
Import BM25_evaluate.

(** [F1ScoreCalculator.calculate_f1_score]; [None] is Python's [None]. *)
Definition calculate_f1_score (precision recall : option Q) : Q :=
  match precision, recall with
  | Some precision, Some recall =>
      if Qeq_bool (precision + recall) 0 then 0%Q
      else (2 * (precision * recall) / (precision + recall))%Q
  | _, _ => 0%Q
  end.

Record f1_results := {
  avg_f1 : Q;
  f1_scores : list Q;
  avg_precision : Q;
  avg_recall : Q;
  total_samples : nat;
  bm25_results : results
}.

(** [F1ScoreCalculator.calculate_f1_scores_from_bm25_results] *)
Definition calculate_f1_scores_from_bm25_results (bm25_results : results)
    : f1_results :=
  let avg_precision := BM25_evaluate.avg_precision bm25_results in
  let avg_recall := BM25_evaluate.avg_recall bm25_results in
  let avg_f1 := calculate_f1_score (Some avg_precision) (Some avg_recall) in
  let precision_scores := precision_scores bm25_results in
  let recall_scores := recall_scores bm25_results in
  let f1_scores :=
    foldl (λ f1_scores i,
      let precision := default 0%Q (precision_scores !! i) in
      let recall := default 0%Q (recall_scores !! i) in
      f1_scores ++ [calculate_f1_score (Some precision) (Some recall)])
      [] (Py.range 0 (length precision_scores)) in
  {| avg_f1 := avg_f1; f1_scores := f1_scores; avg_precision := avg_precision;
     avg_recall := avg_recall; total_samples := length f1_scores;
     bm25_results := bm25_results |}.

End F1_Metrics.

(** ** MRR_Metrics.py *)

Module MRR_Metrics.
Import BM25_evaluate.
Section Unicode.
Context `{PyUnicode}.

(** [MRREvaluator.get_relevant_chunks_for_query] *)
Definition get_relevant_chunks_for_query (query : list N)
    (reference_contexts : list (list N)) : Py.result (list (list N)) :=
  match query, reference_contexts with
  | [], _ | _, [] => Py.Ok []
  | _, _ =>
    Py.for_ reference_contexts [] (λ relevant_chunks chunk,
      '(is_relevant, _) ← is_chunk_relevant query chunk (-10);
      if is_relevant : bool then Py.Ok (relevant_chunks ++ [chunk])
      else Py.Ok relevant_chunks)
  end.

(** The dict [chunk_positions]: a later chunk with the same text
    overwrites the entry of an earlier one. *)
Definition chunk_positions (retrieved_contexts : list (list N))
    : gmap (list N) nat :=
  foldl (λ chunk_positions '(i, chunk),
    let position := (length retrieved_contexts - i)%nat in
    <[chunk := position]> chunk_positions)
    ∅ (Py.enumerate retrieved_contexts).

(** The body of the inner loop [for ref_chunk in relevant_chunks].  The
    pair [(best_position, best_chunk)] starts as [(inf, None)], here
    [None], and the two are only ever assigned together. *)
Definition update_best (env : Env) (chunk_positions : gmap (list N) nat)
    (chunk : list N) (best : option (nat * list N)) (ref_chunk : list N)
    : Py.result (option (nat * list N)) :=
  let relevance_score := calculate_relevance_score env chunk ref_chunk in
  if Py.gt relevance_score (SIMILARITY_THRESHOLD env) then
    match chunk_positions !! chunk with
    | None => Py.Raise Py.KeyError
    | Some position =>
        match best with
        | Some (best_position, _) =>
            if (position <? best_position)%nat
            then Py.Ok (Some (position, chunk)) else Py.Ok best
        | None => Py.Ok (Some (position, chunk))
        end
    end
  else Py.Ok best.

(** The body of the outer loop [for chunk in retrieved_contexts]. *)
Definition scan_chunk (env : Env) (chunk_positions : gmap (list N) nat)
    (relevant_chunks : list (list N)) (best : option (nat * list N))
    (chunk : list N) : Py.result (option (nat * list N)) :=
  Py.for_ relevant_chunks best (update_best env chunk_positions chunk).

(** [MRREvaluator.calculate_reciprocal_rank] *)
Definition calculate_reciprocal_rank (env : Env) (query : list N)
    (retrieved_contexts reference_contexts : list (list N)) : Py.result Q :=
  relevant_chunks ← get_relevant_chunks_for_query query reference_contexts;
  match relevant_chunks, retrieved_contexts with
  | [], _ => Py.Ok 0%Q
  | _, [] => Py.Ok 0%Q
  | _, _ =>
    let chunk_positions := chunk_positions retrieved_contexts in
    best ← Py.for_ retrieved_contexts None
             (scan_chunk env chunk_positions relevant_chunks);
    match best with
    | Some (best_position, _) => Py.truediv 1 (Py.float best_position)
    | None => Py.Ok 0%Q
    end
  end.

(** [MRREvaluator.get_ranked_chunks_for_query] *)
Definition get_ranked_chunks_for_query (query : list N)
    (retrieved_contexts : list (list N)) : Py.result (list (list N * R)) :=
  match query, retrieved_contexts with
  | [], _ | _, [] => Py.Ok []
  | _, _ =>
    find_relevant_chunks query retrieved_contexts
      (Z.of_nat (length retrieved_contexts)) (-10)
  end.

End Unicode.

(** *** MRREvaluator.evaluate_mrr

    The records keep the numbers.  [first_relevant_position], which the
    code computes as [int(1 / reciprocal_rank)], depends on the rounding
    of the two divisions and is left out. *)

Record mrr_detail := {
  mrr_row_index : nat;
  reciprocal_rank : Q;
  mrr_retrieved_count : nat;
  mrr_reference_count : nat;
  relevant_chunks_count : nat
}.

Record mrr_results := {
  reciprocal_ranks : list Q;
  mrr_detailed_results : list mrr_detail;
  total_queries : nat;
  queries_with_relevant_chunks : nat;
  queries_without_relevant_chunks : nat;
  mrr : Q
}.

Definition no_mrr_results : mrr_results :=
  {| reciprocal_ranks := []; mrr_detailed_results := []; total_queries := 0;
     queries_with_relevant_chunks := 0; queries_without_relevant_chunks := 0;
     mrr := 0 |}.

Section Unicode.
Context `{PyUnicode}.

(** One turn of the loop [for idx, row in df.iterrows()]. *)
Definition evaluate_mrr_row (env : Env) (results : mrr_results)
    (entry : nat * row) : Py.result mrr_results :=
  let '(idx, row) := entry in
  let user_input := user_input row in
  let retrieved_contexts := retrieved_contexts row in
  let reference_contexts := reference_contexts row in
  match retrieved_contexts, reference_contexts with
  | [], _ | _, [] =>
    Py.Ok
      {| reciprocal_ranks := reciprocal_ranks results ++ [0%Q];
         total_queries := total_queries results + 1;
         queries_with_relevant_chunks := queries_with_relevant_chunks results;
         queries_without_relevant_chunks :=
           queries_without_relevant_chunks results + 1;
         mrr_detailed_results := mrr_detailed_results results ++
           [{| mrr_row_index := idx; reciprocal_rank := 0;
               mrr_retrieved_count := length retrieved_contexts;
               mrr_reference_count := length reference_contexts;
               relevant_chunks_count := 0 |}];
         mrr := mrr results |}
  | _, _ =>
    reciprocal_rank ←
      calculate_reciprocal_rank env user_input retrieved_contexts reference_contexts;
    let found := Py.gt reciprocal_rank 0 in
    relevant_chunks ← get_relevant_chunks_for_query user_input reference_contexts;
    Py.Ok
      {| reciprocal_ranks := reciprocal_ranks results ++ [reciprocal_rank];
         total_queries := total_queries results + 1;
         queries_with_relevant_chunks :=
           (if found then queries_with_relevant_chunks results + 1
            else queries_with_relevant_chunks results);
         queries_without_relevant_chunks :=
           (if found then queries_without_relevant_chunks results
            else queries_without_relevant_chunks results + 1);
         mrr_detailed_results := mrr_detailed_results results ++
           [{| mrr_row_index := idx; reciprocal_rank := reciprocal_rank;
               mrr_retrieved_count := length retrieved_contexts;
               mrr_reference_count := length reference_contexts;
               relevant_chunks_count := length relevant_chunks |}];
         mrr := mrr results |}
  end.

(** [MRREvaluator.evaluate_mrr] *)
Definition evaluate_mrr (env : Env) (df : list row) : Py.result mrr_results :=
  results ← Py.for_ (Py.enumerate df) no_mrr_results (evaluate_mrr_row env);
  let mrr :=
    match reciprocal_ranks results with
    | [] => 0%Q
    | _ => Py.mean (reciprocal_ranks results)
    end in
  Py.Ok
    {| reciprocal_ranks := reciprocal_ranks results;
       mrr_detailed_results := mrr_detailed_results results;
       total_queries := total_queries results;
       queries_with_relevant_chunks := queries_with_relevant_chunks results;
       queries_without_relevant_chunks := queries_without_relevant_chunks results;
       mrr := mrr |}.

End Unicode.
End MRR_Metrics.

(** ** MAP_Metrics.py *)

Module MAP_Metrics.
Import BM25_evaluate.

(** An entry of [chunk_relevance_scores]; the two chunk texts are left
    out. *)
Record chunk_relevance := {
  position : nat;
  relevance_score : Q;
  is_relevant : bool
}.

Record ap_details := {
  precision_at_k : list Q;
  relevant_positions : list nat;
  chunk_relevance_scores : list chunk_relevance;
  total_relevant : nat;
  total_retrieved : nat
}.

(** State of the loop that sums the precisions: [relevant_count],
    [precision_sum], [precision_at_k] and [relevant_positions]. *)
Record ap_state := {
  relevant_count : nat;
  precision_sum : Q;
  precisions : list Q;
  positions : list nat
}.

(** One turn of the loop [for i, chunk_info in enumerate(chunk_relevance_scores)]. *)
Definition add_precision (st : ap_state) (chunk_info : chunk_relevance)
    : Py.result ap_state :=
  if is_relevant chunk_info then
    let relevant_count := (relevant_count st + 1)%nat in
    let position := position chunk_info in
    precision_at_i ← Py.truediv (Py.float relevant_count) (Py.float position);
    Py.Ok {| relevant_count := relevant_count;
             precision_sum := (precision_sum st + precision_at_i)%Q;
             precisions := precisions st ++ [precision_at_i];
             positions := positions st ++ [position] |}
  else Py.Ok st.

Section Unicode.
Context `{PyUnicode}.

(** [MAPEvaluator.get_relevant_chunks_for_query] *)
Definition get_relevant_chunks_for_query (query : list N)
    (reference_contexts : list (list N)) : Py.result (list (list N)) :=
  match query, reference_contexts with
  | [], _ | _, [] => Py.Ok []
  | _, _ =>
    Py.for_ reference_contexts [] (λ relevant_chunks chunk,
      '(is_relevant, _) ← is_chunk_relevant query chunk (-10);
      if is_relevant : bool then Py.Ok (relevant_chunks ++ [chunk])
      else Py.Ok relevant_chunks)
  end.

(** The inner loop [for ref_chunk in relevant_chunks]. *)
Definition max_relevance (env : Env) (relevant_chunks : list (list N))
    (retrieved_chunk : list N) : Q :=
  foldl (λ max_relevance ref_chunk,
    let relevance := calculate_relevance_score env retrieved_chunk ref_chunk in
    if Py.gt relevance max_relevance then relevance else max_relevance)
    0%Q relevant_chunks.

(** [MAPEvaluator.calculate_average_precision] *)
Definition calculate_average_precision (env : Env) (query : list N)
    (retrieved_contexts reference_contexts : list (list N))
    : Py.result (Q * ap_details) :=
  relevant_chunks ← get_relevant_chunks_for_query query reference_contexts;
  match relevant_chunks, retrieved_contexts with
  | [], _ =>
      Py.Ok (0%Q, {| precision_at_k := []; relevant_positions := [];
                     chunk_relevance_scores := []; total_relevant := 0;
                     total_retrieved := length retrieved_contexts |})
  | _, [] =>
      Py.Ok (0%Q, {| precision_at_k := []; relevant_positions := [];
                     chunk_relevance_scores := []; total_relevant := 0;
                     total_retrieved := 0 |})
  | _, _ =>
    let chunk_relevance_scores :=
      foldl (λ chunk_relevance_scores '(i, retrieved_chunk),
        let max_relevance := max_relevance env relevant_chunks retrieved_chunk in
        let position := (length retrieved_contexts - i)%nat in
        chunk_relevance_scores ++
          [{| position := position; relevance_score := max_relevance;
              is_relevant := Py.gt max_relevance (SIMILARITY_THRESHOLD env) |}])
        [] (Py.enumerate retrieved_contexts) in
    st ← Py.for_ chunk_relevance_scores
           {| relevant_count := 0; precision_sum := 0; precisions := [];
              positions := [] |}
           add_precision;
    average_precision ←
      (if (0 <? relevant_count st)%nat
       then Py.truediv (precision_sum st) (Py.float (relevant_count st))
       else Py.Ok 0%Q);
    Py.Ok (average_precision,
           {| precision_at_k := precisions st; relevant_positions := positions st;
              chunk_relevance_scores := chunk_relevance_scores;
              total_relevant := relevant_count st;
              total_retrieved := length retrieved_contexts |})
  end.

End Unicode.

(** *** MAPEvaluator.evaluate_map *)

Record map_detail := {
  map_row_index : nat;
  average_precision : Q;
  map_retrieved_count : nat;
  map_reference_count : nat;
  relevant_chunks_count : nat;
  calculation_details : ap_details
}.

(** [mean_average_precision] is the entry ['map'] of the dict. *)
Record map_results := {
  average_precisions : list Q;
  map_detailed_results : list map_detail;
  total_queries : nat;
  queries_with_relevant_chunks : nat;
  queries_without_relevant_chunks : nat;
  mean_average_precision : Q
}.

Definition no_map_results : map_results :=
  {| average_precisions := []; map_detailed_results := []; total_queries := 0;
     queries_with_relevant_chunks := 0; queries_without_relevant_chunks := 0;
     mean_average_precision := 0 |}.

Section Unicode.
Context `{PyUnicode}.

(** One turn of the loop [for idx, row in df.iterrows()]. *)
Definition evaluate_map_row (env : Env) (results : map_results)
    (entry : nat * row) : Py.result map_results :=
  let '(idx, row) := entry in
  let user_input := user_input row in
  let retrieved_contexts := retrieved_contexts row in
  let reference_contexts := reference_contexts row in
  match retrieved_contexts, reference_contexts with
  | [], _ | _, [] =>
    Py.Ok
      {| average_precisions := average_precisions results ++ [0%Q];
         total_queries := total_queries results + 1;
         queries_with_relevant_chunks := queries_with_relevant_chunks results;
         queries_without_relevant_chunks :=
           queries_without_relevant_chunks results + 1;
         map_detailed_results := map_detailed_results results ++
           [{| map_row_index := idx; average_precision := 0;
               map_retrieved_count := length retrieved_contexts;
               map_reference_count := length reference_contexts;
               relevant_chunks_count := 0;
               calculation_details :=
                 {| precision_at_k := []; relevant_positions := [];
                    chunk_relevance_scores := []; total_relevant := 0;
                    total_retrieved := length retrieved_contexts |} |}];
         mean_average_precision := mean_average_precision results |}
  | _, _ =>
    '(average_precision, calculation_details) ←
      calculate_average_precision env user_input retrieved_contexts
        reference_contexts;
    let found := Py.gt average_precision 0 in
    relevant_chunks ← get_relevant_chunks_for_query user_input reference_contexts;
    Py.Ok
      {| average_precisions := average_precisions results ++ [average_precision];
         total_queries := total_queries results + 1;
         queries_with_relevant_chunks :=
           (if found then queries_with_relevant_chunks results + 1
            else queries_with_relevant_chunks results);
         queries_without_relevant_chunks :=
           (if found then queries_without_relevant_chunks results
            else queries_without_relevant_chunks results + 1);
         map_detailed_results := map_detailed_results results ++
           [{| map_row_index := idx; average_precision := average_precision;
               map_retrieved_count := length retrieved_contexts;
               map_reference_count := length reference_contexts;
               relevant_chunks_count := length relevant_chunks;
               calculation_details := calculation_details |}];
         mean_average_precision := mean_average_precision results |}
  end.

(** [MAPEvaluator.evaluate_map] *)
Definition evaluate_map (env : Env) (df : list row) : Py.result map_results :=
  results ← Py.for_ (Py.enumerate df) no_map_results (evaluate_map_row env);
  let mean_average_precision :=
    match average_precisions results with
    | [] => 0%Q
    | _ => Py.mean (average_precisions results)
    end in
  Py.Ok
    {| average_precisions := average_precisions results;
       map_detailed_results := map_detailed_results results;
       total_queries := total_queries results;
       queries_with_relevant_chunks := queries_with_relevant_chunks results;
       queries_without_relevant_chunks := queries_without_relevant_chunks results;
       mean_average_precision := mean_average_precision |}.

End Unicode.
End MAP_Metrics.

(** ** NDCG_Metrics.py *)

Module NDCG_Metrics.
Import BM25_evaluate.

(** [np.log2] *)
Definition log2 (x : R) : R := (ln x / ln 2)%R.

(** [2**relevance - 1] *)
Definition gain (relevance : Q) : R := (Rpower 2 (Q2R relevance) - 1)%R.

(** [sorted(l, reverse=True)]: stable, so [x] goes behind the entries
    that are not smaller. *)
Fixpoint insert_reverse (x : Q) (l : list Q) : list Q :=
  match l with
  | [] => [x]
  | y :: l' => if Py.gt x y then x :: l else y :: insert_reverse x l'
  end.

Definition sorted_reverse (l : list Q) : list Q :=
  foldl (λ sorted x, insert_reverse x sorted) [] l.

(** [NDCGEvaluator.calculate_dcg] *)
Definition calculate_dcg (relevance_scores : list Q) : R :=
  match relevance_scores with
  | [] => 0%R
  | _ =>
    foldl (λ dcg '(i, relevance),
      let position := (length relevance_scores - i)%nat in
      (dcg + gain relevance / log2 (INR position + 1))%R)
      0%R (Py.enumerate relevance_scores)
  end.

(** [NDCGEvaluator.calculate_idcg] *)
Definition calculate_idcg (relevance_scores : list Q) : R :=
  match relevance_scores with
  | [] => 0%R
  | _ =>
    let ideal_scores := sorted_reverse relevance_scores in
    foldl (λ idcg '(i, relevance),
      let position := (i + 1)%nat in
      (idcg + gain relevance / log2 (INR position + 1))%R)
      0%R (Py.enumerate ideal_scores)
  end.

Record ndcg_details := {
  relevance_scores : list Q;
  dcg : R;
  idcg : R;
  ndcg : R
}.

Section Unicode.
Context `{PyUnicode}.

(** [NDCGEvaluator.calculate_relevance_scores] *)
Definition calculate_relevance_scores (env : Env)
    (retrieved_contexts reference_contexts : list (list N)) : list Q :=
  match retrieved_contexts, reference_contexts with
  | [], _ | _, [] => []
  | _, _ =>
    foldl (λ relevance_scores retrieved_chunk,
      let max_relevance :=
        foldl (λ max_relevance ref_chunk,
          let relevance := calculate_relevance_score env retrieved_chunk ref_chunk in
          if Py.gt relevance max_relevance then relevance else max_relevance)
          0%Q reference_contexts in
      let binary_relevance :=
        if Py.gt max_relevance (SIMILARITY_THRESHOLD env) then 1%Q else 0%Q in
      relevance_scores ++ [binary_relevance])
      [] retrieved_contexts
  end.

(** [NDCGEvaluator.calculate_ndcg]: the value and the numbers of the
    detail record. *)
Definition calculate_ndcg (env : Env) (query : list N)
    (retrieved_contexts reference_contexts : list (list N)) : R * ndcg_details :=
  match retrieved_contexts, reference_contexts with
  | [], _ | _, [] =>
      (0%R, {| relevance_scores := []; dcg := 0; idcg := 0; ndcg := 0 |})
  | _, _ =>
    let relevance_scores :=
      calculate_relevance_scores env retrieved_contexts reference_contexts in
    let dcg := calculate_dcg relevance_scores in
    let idcg := calculate_idcg relevance_scores in
    let ndcg := if bool_decide (0 < idcg)%R then (dcg / idcg)%R else 0%R in
    (ndcg, {| relevance_scores := relevance_scores; dcg := dcg; idcg := idcg;
              ndcg := ndcg |})
  end.

End Unicode.

(** *** NDCGEvaluator.evaluate_ndcg *)

Record ndcg_row_detail := {
  ndcg_row_index : nat;
  row_ndcg : R;
  row_dcg : R;
  row_idcg : R;
  ndcg_retrieved_count : nat;
  ndcg_reference_count : nat;
  relevant_chunks_count : Q
}.

Record ndcg_results := {
  ndcg_scores : list R;
  ndcg_detailed_results : list ndcg_row_detail;
  total_queries : nat;
  queries_with_relevant_chunks : nat;
  queries_without_relevant_chunks : nat;
  avg_ndcg : R
}.

Definition no_ndcg_results : ndcg_results :=
  {| ndcg_scores := []; ndcg_detailed_results := []; total_queries := 0;
     queries_with_relevant_chunks := 0; queries_without_relevant_chunks := 0;
     avg_ndcg := 0 |}.

Section Unicode.
Context `{PyUnicode}.

(** One turn of the loop [for idx, row in df.iterrows()]. *)
Definition evaluate_ndcg_row (env : Env) (results : ndcg_results)
    (entry : nat * row) : ndcg_results :=
  let '(idx, row) := entry in
  let user_input := user_input row in
  let retrieved_contexts := retrieved_contexts row in
  let reference_contexts := reference_contexts row in
  match retrieved_contexts, reference_contexts with
  | [], _ | _, [] =>
    {| ndcg_scores := ndcg_scores results ++ [0%R];
       total_queries := total_queries results + 1;
       queries_with_relevant_chunks := queries_with_relevant_chunks results;
       queries_without_relevant_chunks :=
         queries_without_relevant_chunks results + 1;
       ndcg_detailed_results := ndcg_detailed_results results ++
         [{| ndcg_row_index := idx; row_ndcg := 0; row_dcg := 0; row_idcg := 0;
             ndcg_retrieved_count := length retrieved_contexts;
             ndcg_reference_count := length reference_contexts;
             relevant_chunks_count := 0 |}];
       avg_ndcg := avg_ndcg results |}
  | _, _ =>
    let '(ndcg, calculation_details) :=
      calculate_ndcg env user_input retrieved_contexts reference_contexts in
    let found := bool_decide (0 < ndcg)%R in
    {| ndcg_scores := ndcg_scores results ++ [ndcg];
       total_queries := total_queries results + 1;
       queries_with_relevant_chunks :=
         (if found then queries_with_relevant_chunks results + 1
          else queries_with_relevant_chunks results);
       queries_without_relevant_chunks :=
         (if found then queries_without_relevant_chunks results
          else queries_without_relevant_chunks results + 1);
       ndcg_detailed_results := ndcg_detailed_results results ++
         [{| ndcg_row_index := idx; row_ndcg := ndcg;
             row_dcg := dcg calculation_details;
             row_idcg := idcg calculation_details;
             ndcg_retrieved_count := length retrieved_contexts;
             ndcg_reference_count := length reference_contexts;
             relevant_chunks_count :=
               Py.sum (relevance_scores calculation_details) |}];
       avg_ndcg := avg_ndcg results |}
  end.

(** [NDCGEvaluator.evaluate_ndcg] *)
Definition evaluate_ndcg (env : Env) (df : list row) : ndcg_results :=
  let results := foldl (evaluate_ndcg_row env) no_ndcg_results (Py.enumerate df) in
  let avg_ndcg :=
    match ndcg_scores results with
    | [] => 0%R
    | _ => Py.rmean (ndcg_scores results)
    end in
  {| ndcg_scores := ndcg_scores results;
     ndcg_detailed_results := ndcg_detailed_results results;
     total_queries := total_queries results;
     queries_with_relevant_chunks := queries_with_relevant_chunks results;
     queries_without_relevant_chunks := queries_without_relevant_chunks results;
     avg_ndcg := avg_ndcg |}.

End Unicode.
End NDCG_Metrics.

(** ** NDCG and F1 in double precision

    [calculate_dcg] and [calculate_idcg] add the same quotients in
    opposite orders: DCG from position [N] down to 1, IDCG from position
    1 up.  In double precision every operation rounds to the nearest
    double, and the order of a sum shows in its last bit.  This module
    replays the two sums, the quotient of [calculate_ndcg] and the
    quotient of [calculate_f1_score] on binary64 floats, operation by
    operation.  [np.log2] and [**] are functions of numpy and of the C
    library: they are a parameter. *)

Module Binary64.
Import PrimFloat.
Local Open Scope float_scope.

Class Libm := {
  log2 : Z → float;              (* np.log2 of a Python int *)
  pow : float → float → float    (* x ** y *)
}.

Record ndcg_details := {
  relevance_scores : list float;
  dcg : float;
  idcg : float;
  ndcg : float
}.

(** The double of an entry of a binary relevance vector: [1.0] or
    [0.0]. *)
Definition of_binary (relevance : Q) : float :=
  if Qeq_bool relevance 1 then 1 else 0.

Section Libm.
Context `{Libm}.

(** [2**relevance - 1] *)
Definition gain (relevance : float) : float := pow 2 relevance - 1.

(** [sorted(l, reverse=True)] *)
Fixpoint insert_reverse (x : float) (l : list float) : list float :=
  match l with
  | [] => [x]
  | y :: l' => if y <? x then x :: l else y :: insert_reverse x l'
  end.

Definition sorted_reverse (l : list float) : list float :=
  foldl (λ sorted x, insert_reverse x sorted) [] l.

(** [NDCGEvaluator.calculate_dcg] *)
Definition calculate_dcg (relevance_scores : list float) : float :=
  match relevance_scores with
  | [] => 0
  | _ =>
    foldl (λ dcg '(i, relevance),
      let position := (Z.of_nat (length relevance_scores) - Z.of_nat i)%Z in
      dcg + gain relevance / log2 (position + 1))
      0 (Py.enumerate relevance_scores)
  end.

(** [NDCGEvaluator.calculate_idcg] *)
Definition calculate_idcg (relevance_scores : list float) : float :=
  match relevance_scores with
  | [] => 0
  | _ =>
    let ideal_scores := sorted_reverse relevance_scores in
    foldl (λ idcg '(i, relevance),
      let position := (Z.of_nat i + 1)%Z in
      idcg + gain relevance / log2 (position + 1))
      0 (Py.enumerate ideal_scores)
  end.

Section Unicode.
Context `{PyUnicode}.

(** [NDCGEvaluator.calculate_relevance_scores]: the entries [1.0] and
    [0.0] of the vector; the similarities behind them stay rationals. *)
Definition calculate_relevance_scores (env : BM25_evaluate.Env)
    (retrieved_contexts reference_contexts : list (list N)) : list float :=
  of_binary <$> NDCG_Metrics.calculate_relevance_scores env retrieved_contexts
                  reference_contexts.

(** [NDCGEvaluator.calculate_ndcg] *)
Definition calculate_ndcg (env : BM25_evaluate.Env) (query : list N)
    (retrieved_contexts reference_contexts : list (list N))
    : float * ndcg_details :=
  match retrieved_contexts, reference_contexts with
  | [], _ | _, [] =>
      (0, {| relevance_scores := []; dcg := 0; idcg := 0; ndcg := 0 |})
  | _, _ =>
    let relevance_scores :=
      calculate_relevance_scores env retrieved_contexts reference_contexts in
    let dcg := calculate_dcg relevance_scores in
    let idcg := calculate_idcg relevance_scores in
    let ndcg := if 0 <? idcg then dcg / idcg else 0 in
    (ndcg, {| relevance_scores := relevance_scores; dcg := dcg; idcg := idcg;
              ndcg := ndcg |})
  end.

End Unicode.
End Libm.

(** [F1ScoreCalculator.calculate_f1_score] and the function
    [calculate_f1_score] of the module *)
Definition calculate_f1_score (precision recall : option float) : float :=
  match precision, recall with
  | Some precision, Some recall =>
      if precision + recall =? 0 then 0
      else 2 * (precision * recall) / (precision + recall)
  | _, _ => 0
  end.

(** The doubles that [log2] of the C library returns on the integers 2
    to 16, and [2**1.0] and [2**0.0]: an instance for running the
    functions on lists of at most fifteen entries 0.0 and 1.0. *)
Definition log2_table (n : Z) : float :=
  if (n =? 2)%Z then 0x1p+0
  else if (n =? 3)%Z then 0x1.95c01a39fbd68p+0
  else if (n =? 4)%Z then 0x1p+1
  else if (n =? 5)%Z then 0x1.2934f0979a371p+1
  else if (n =? 6)%Z then 0x1.4ae00d1cfdeb4p+1
  else if (n =? 7)%Z then 0x1.675767f54042dp+1
  else if (n =? 8)%Z then 0x1.8p+1
  else if (n =? 9)%Z then 0x1.95c01a39fbd68p+1
  else if (n =? 10)%Z then 0x1.a934f0979a371p+1
  else if (n =? 11)%Z then 0x1.bacea7c065d42p+1
  else if (n =? 12)%Z then 0x1.cae00d1cfdeb4p+1
  else if (n =? 13)%Z then 0x1.d9a802391e233p+1
  else if (n =? 14)%Z then 0x1.e75767f54042dp+1
  else if (n =? 15)%Z then 0x1.f414fdb498226p+1
  else if (n =? 16)%Z then 0x1p+2
  else nan.

Definition pow_table (x y : float) : float :=
  if (x =? 2) && (y =? 1) then 2
  else if (x =? 2) && (y =? 0) then 1
  else nan.

Definition libm : Libm := Build_Libm log2_table pow_table.

End Binary64.

(** ** The tables on ASCII and the CJK block

    An instance for running the functions: it agrees with CPython on code
    points below 128 and on U+4E00..U+9FFF, which is all the examples
    below contain. *)

Module Basic.

Definition isword (c : N) : bool :=
  ((48 <=? c) && (c <=? 57) || (65 <=? c) && (c <=? 90)
   || (97 <=? c) && (c <=? 122) || (c =? 95) || Py.is_cjk c)%N.

Definition isspace (c : N) : bool :=
  ((9 <=? c) && (c <=? 13) || (28 <=? c) && (c <=? 32))%N.

Definition isdigit (c : N) : bool := ((48 <=? c) && (c <=? 57))%N.

Definition lower_char (c : N) : N :=
  if ((65 <=? c) && (c <=? 90))%N then (c + 32)%N else c.

Definition lower (s : list N) : list N := map lower_char s.

Lemma lower_char_nonspace c : isspace c = false → isspace (lower_char c) = false.
Proof.
  unfold lower_char, isspace.
  destruct ((65 <=? c) && (c <=? 90))%N eqn:E; [|done].
  intros _. apply andb_true_iff in E as [?%N.leb_le ?%N.leb_le].
  apply orb_false_iff; split; apply andb_false_iff.
  - right. apply N.leb_gt. lia.
  - right. apply N.leb_gt. lia.
Qed.

Lemma lower_keeps_nonspace s :
  Exists (λ c, isspace c = false) s → Exists (λ c, isspace c = false) (lower s).
Proof.
  induction 1 as [c s Hc|c s _ IH]; simpl.
  - left. by apply lower_char_nonspace.
  - right. exact IH.
Qed.

Definition unicode : PyUnicode :=
  Build_PyUnicode isword isspace isdigit lower eq_refl lower_keeps_nonspace.

End Basic.

(** * Properties *)

(** ** Floats as rationals *)

Section Floats.
Local Open Scope Q_scope.

Lemma max_cases a b : (b <= a ∧ Py.max a b = a) ∨ (a < b ∧ Py.max a b = b).
Proof.
  unfold Py.max. destruct (Qle_bool b a) eqn:E.
  - left. split; [by apply Qle_bool_iff | done].
  - right. split; [|done]. apply Qnot_le_lt. intros Hle.
    apply Qle_bool_iff in Hle. congruence.
Qed.

Lemma min_cases a b : (a <= b ∧ Py.min a b = a) ∨ (b < a ∧ Py.min a b = b).
Proof.
  unfold Py.min. destruct (Qle_bool a b) eqn:E.
  - left. split; [by apply Qle_bool_iff | done].
  - right. split; [|done]. apply Qnot_le_lt. intros Hle.
    apply Qle_bool_iff in Hle. congruence.
Qed.

Lemma gt_true a b : Py.gt a b = true ↔ b < a.
Proof.
  unfold Py.gt. rewrite negb_true_iff. split.
  - intros E. apply Qnot_le_lt. intros Hle. apply Qle_bool_iff in Hle. congruence.
  - intros Hlt. destruct (Qle_bool a b) eqn:E; [|done].
    apply Qle_bool_iff in E. exfalso. lra.
Qed.

Lemma gt_false a b : Py.gt a b = false ↔ a <= b.
Proof.
  unfold Py.gt. rewrite negb_false_iff. apply Qle_bool_iff.
Qed.

Lemma float_nonneg n : 0 <= Py.float n.
Proof.
  unfold Py.float. change 0 with (inject_Z 0). rewrite <- Zle_Qle. lia.
Qed.

Lemma float_pos n : (0 < n)%nat → 0 < Py.float n.
Proof.
  intros Hn. unfold Py.float. change 0 with (inject_Z 0). rewrite <- Zlt_Qlt. lia.
Qed.

Lemma float_le n m : (n ≤ m)%nat → Py.float n <= Py.float m.
Proof. intros Hnm. unfold Py.float. rewrite <- Zle_Qle. lia. Qed.

(** A quotient of two counts, the first at most the second. *)
Lemma ratio_bounds n m : (n ≤ m)%nat → 0 <= Py.float n / Py.float m <= 1.
Proof.
  intros Hnm. destruct (Nat.eq_dec m 0%nat) as [->|Hm].
  - assert (n = 0%nat) as -> by lia. vm_compute. split; discriminate.
  - pose proof (float_pos m ltac:(lia)) as Hpos.
    pose proof (float_nonneg n) as Hn. pose proof (float_le n m Hnm) as Hle.
    split.
    + apply Qle_shift_div_l; [done | lra].
    + apply Qle_shift_div_r; [done | lra].
Qed.

Lemma ratio_self n : (0 < n)%nat → Py.float n / Py.float n == 1.
Proof.
  intros Hn. pose proof (float_pos n Hn). field. lra.
Qed.

End Floats.

(** ** Loops *)

Lemma foldl_invariant {A B} (P : A → Prop) (f : A → B → A) (l : list B) (a : A) :
  P a → (∀ a x, x ∈ l → P a → P (f a x)) → P (foldl f a l).
Proof.
  revert a. induction l as [|x l IH]; intros a Ha Hf; simpl; [done|].
  apply IH.
  - apply Hf; [left | done].
  - intros a' y Hy. apply Hf. by right.
Qed.

Lemma foldl_snoc {A B} (f : A → B → A) (l : list B) (x : B) (a : A) :
  foldl f a (l ++ [x]) = f (foldl f a l) x.
Proof. by rewrite foldl_app. Qed.

Lemma range_S n : Py.range 0 (S n) = Py.range 0 n ++ [n].
Proof.
  unfold Py.range. rewrite !Nat.sub_0_r. by rewrite seq_S.
Qed.

Lemma elem_of_range a b i : i ∈ Py.range a b ↔ (a ≤ i < b)%nat.
Proof. unfold Py.range. rewrite elem_of_seq. lia. Qed.

Lemma bind_ok {A B} (a : A) (f : A → Py.result B) : (Py.Ok a ≫= f) = f a.
Proof. done. Qed.

Lemma for_nil {A B} (init : A) (body : A → B → Py.result A) :
  Py.for_ [] init body = Py.Ok init.
Proof. done. Qed.

Lemma for_snoc {A B} (l : list B) (x : B) (init : A) (body : A → B → Py.result A) :
  Py.for_ (l ++ [x]) init body = (a ← Py.for_ l init body; body a x).
Proof. unfold Py.for_. by rewrite foldl_snoc. Qed.

Lemma for_raise {A B} (l : list B) (e : Py.exn) (body : A → B → Py.result A) :
  foldl (λ acc x, a ← acc; body a x) (Py.Raise e) l = Py.Raise e.
Proof. induction l as [|x l IH]; simpl; [done | exact IH]. Qed.

Lemma for_cons {A B} (l : list B) (x : B) (init : A) (body : A → B → Py.result A) :
  Py.for_ (x :: l) init body = (a ← body init x; Py.for_ l a body).
Proof.
  unfold Py.for_. simpl. destruct (body init x) as [a|e]; simpl; [done|].
  apply for_raise.
Qed.

Lemma getitem_lookup {A} (l : list A) (i : nat) (x : A) :
  l !! i = Some x → Py.getitem l (Z.of_nat i) = Py.Ok x.
Proof.
  intros Hl. unfold Py.getitem.
  assert ((Z.of_nat i <? 0)%Z = false) as E by (apply Z.ltb_ge; lia).
  cbv zeta. rewrite E. cbv iota. rewrite E, Nat2Z.id, Hl. done.
Qed.

Lemma enumerate_snoc {A} (l : list A) (x : A) :
  Py.enumerate (l ++ [x]) = Py.enumerate l ++ [(length l, x)].
Proof.
  unfold Py.enumerate. rewrite length_app, seq_app.
  by rewrite zip_with_app by (by rewrite length_seq).
Qed.

(** ** Maxima and sums of scores *)

Section Scores.
Local Open Scope Q_scope.

(** [m] is the largest entry of [l]. *)
Definition is_max_of (m : Q) (l : list Q) : Prop :=
  (∃ x, x ∈ l ∧ x == m) ∧ ∀ x, x ∈ l → x <= m.

Lemma is_max_of_unique m m' l : is_max_of m l → is_max_of m' l → m == m'.
Proof.
  intros [(x & Hx & Ex) Hm] [(x' & Hx' & Ex') Hm'].
  apply Hm' in Hx. apply Hm in Hx'. lra.
Qed.

(** The value of [max(l) if l else 0]. *)
Definition row_max (similarities : list Q) : Q :=
  match similarities with
  | [] => 0
  | x :: l => foldl Py.max x l
  end.

Lemma foldl_max_elem x l : foldl Py.max x l ∈ x :: l.
Proof.
  revert x. induction l as [|y l IH]; intros x; simpl; [left|].
  specialize (IH (Py.max x y)).
  apply elem_of_cons in IH as [->|IH]; [|by do 2 right].
  unfold Py.max. destruct (Qle_bool y x); [left | right; left].
Qed.

Lemma foldl_max_ge x l : x <= foldl Py.max x l ∧ ∀ y, y ∈ l → y <= foldl Py.max x l.
Proof.
  revert x. induction l as [|y l IH]; intros x; simpl.
  - split; [lra|]. intros y Hy. by apply elem_of_nil in Hy.
  - destruct (IH (Py.max x y)) as [Hacc Hall].
    destruct (max_cases x y) as [[? E]|[? E]]; rewrite E in *.
    + split; [done|]. intros z [->|Hz]%elem_of_cons; [lra | by apply Hall].
    + split; [lra|]. intros z [->|Hz]%elem_of_cons; [lra | by apply Hall].
Qed.

Lemma row_max_is_max l : l ≠ [] → is_max_of (row_max l) l.
Proof.
  destruct l as [|x l]; [done|]. intros _. simpl. split.
  - exists (foldl Py.max x l). split; [apply foldl_max_elem | reflexivity].
  - destruct (foldl_max_ge x l) as [Hx Hl].
    intros y [->|Hy]%elem_of_cons; [done | by apply Hl].
Qed.

Lemma max_list_row_max l :
  match l with [] => Py.Ok 0 | _ => Py.max_list l end = Py.Ok (row_max l).
Proof. by destruct l. Qed.

Lemma index_from_found i l m :
  m ∈ l → ∃ j, Py.index_from i l m = Py.Ok j ∧ (i ≤ j < i + length l)%nat.
Proof.
  revert i. induction l as [|y l IH]; intros i Hm; [by apply elem_of_nil in Hm|].
  simpl. destruct (Qeq_bool y m) eqn:E.
  - exists i. split; [done | lia].
  - apply elem_of_cons in Hm as [->|Hm].
    + assert (Qeq_bool y y = true) by (apply Qeq_bool_iff; reflexivity). congruence.
    + destruct (IH (S i) Hm) as (j & Hj & ?). exists j. split; [done | lia].
Qed.

(** The running maximum of the scan of a column, from 0. *)
Definition running_max (l : list Q) : Q :=
  foldl (λ m x, if Py.gt x m then x else m) 0 l.

Lemma running_max_from a l :
  let m := foldl (λ m x, if Py.gt x m then x else m) a l in
  a <= m ∧ (∀ x, x ∈ l → x <= m) ∧ (m = a ∨ m ∈ l).
Proof.
  revert a. induction l as [|x l IH]; intros a; simpl.
  - split; [lra|]. split; [|by left]. intros x Hx. by apply elem_of_nil in Hx.
  - destruct (Py.gt x a) eqn:E.
    + apply gt_true in E. destruct (IH x) as (Ha & Hall & Hm).
      split; [lra|]. split.
      * intros y [->|Hy]%elem_of_cons; [done | by apply Hall].
      * right. destruct Hm as [->|Hm]; [left | by right].
    + apply gt_false in E. destruct (IH a) as (Ha & Hall & Hm).
      split; [done|]. split.
      * intros y [->|Hy]%elem_of_cons; [lra | by apply Hall].
      * destruct Hm as [->|Hm]; [by left | right; by right].
Qed.

Lemma running_max_is_max l :
  l ≠ [] → Forall (λ x, 0 <= x) l → is_max_of (running_max l) l.
Proof.
  intros Hne Hpos. destruct (running_max_from 0 l) as (H0 & Hall & Hm).
  fold (running_max l) in *. split; [|done].
  destruct Hm as [Hm|Hm]; [|exists (running_max l); split; [done | reflexivity]].
  destruct l as [|x l]; [done|]. exists x. split; [left|].
  rewrite Forall_forall in Hpos.
  pose proof (Hpos x ltac:(left)). pose proof (Hall x ltac:(left)).
  rewrite Hm in *. lra.
Qed.

Lemma float_S n : Py.float (S n) == Py.float n + 1.
Proof.
  unfold Py.float. rewrite Nat2Z.inj_succ, <- Z.add_1_r, inject_Z_plus. reflexivity.
Qed.

Lemma sum_snoc l x : Py.sum (l ++ [x]) = Py.sum l + x.
Proof. unfold Py.sum. by rewrite foldl_snoc. Qed.

Lemma sum_bounds l :
  Forall (λ x, 0 <= x <= 1) l → 0 <= Py.sum l <= Py.float (length l).
Proof.
  induction l as [|x l IH] using rev_ind; intros Hl.
  - vm_compute. split; discriminate.
  - rewrite Forall_app, Forall_singleton in Hl. destruct Hl as [Hl Hx].
    specialize (IH Hl). rewrite sum_snoc, length_app. simpl.
    rewrite Nat.add_1_r, float_S. lra.
Qed.

End Scores.

(** ** The similarity of two chunks *)

Section Similarity.
Context `{PyUnicode}.
Local Open Scope Q_scope.

Lemma slice_length (s : list N) i j : (length (Py.slice s i j) ≤ length s)%nat.
Proof. unfold Py.slice. rewrite length_take, length_drop. lia. Qed.

Lemma partial_match_le shorter longer :
  (app.partial_match shorter longer ≤ length shorter)%nat.
Proof.
  unfold app.partial_match.
  apply (foldl_invariant (λ m, m ≤ length shorter)%nat); [lia|].
  intros m i _ Hm.
  apply (foldl_invariant (λ m, m ≤ length shorter)%nat); [done|].
  intros m' j _ Hm'. simpl.
  destruct (Py.contains _ _); [|done].
  pose proof (slice_length shorter i j). lia.
Qed.

Lemma substring_similarity_bounds c1 c2 :
  0 <= app.substring_similarity c1 c2 <= 1.
Proof.
  unfold app.substring_similarity.
  destruct (_ && _); [|lra].
  destruct (length c1 <? length c2)%nat eqn:E.
  - apply Nat.ltb_lt in E.
    destruct (Py.contains c1 c2); [apply ratio_bounds; lia|].
    destruct c2 as [|x c2]; [lra|].
    apply ratio_bounds. pose proof (partial_match_le c1 (x :: c2)). lia.
  - apply Nat.ltb_ge in E.
    destruct (Py.contains c2 c1); [by apply ratio_bounds|].
    destruct c1 as [|x c1]; [lra|].
    apply ratio_bounds. pose proof (partial_match_le c2 (x :: c1)). lia.
Qed.

Lemma jaccard_bounds {K} `{!EqDecision K, !Countable K} (A B : gset K) :
  0 <= (if (0 <? size (A ∪ B))%nat
        then Py.float (size (A ∩ B)) / Py.float (size (A ∪ B)) else 0) <= 1.
Proof.
  destruct (0 <? _)%nat; [|lra].
  apply ratio_bounds, subseteq_size.
  intros x. rewrite elem_of_intersection, elem_of_union. tauto.
Qed.

Lemma weighted_similarity_bounds c1 c2 words1 words2 :
  0 <= app.weighted_similarity c1 c2 words1 words2 <= 1.
Proof.
  unfold app.weighted_similarity.
  pose proof (jaccard_bounds words1 words2) as Hj.
  pose proof (jaccard_bounds (list_to_set c1 : gset N) (list_to_set c2)) as Hc.
  pose proof (substring_similarity_bounds c1 c2) as Hs.
  cbv zeta.
  set (j := if (0 <? size (words1 ∪ words2))%nat then _ else _) in *.
  set (c := if (0 <? size (list_to_set c1 ∪ list_to_set c2))%nat then _ else _) in *.
  set (u := app.substring_similarity c1 c2) in *.
  assert (0 <= j * (2 # 5) + c * (3 # 10) + u * (3 # 10) <= 1) as Hf by lra.
  set (f := j * (2 # 5) + c * (3 # 10) + u * (3 # 10)) in *.
  assert (0 <= Py.max f (4 # 5) <= 1) as Hm.
  { destruct (max_cases f (4 # 5)) as [[_ ->]|[_ ->]]; lra. }
  repeat match goal with |- context [if ?b then _ else _] => destruct b end; done.
Qed.

Lemma clean_text_nil : app.clean_text [] = [].
Proof. unfold app.clean_text. simpl. apply lower_nil. Qed.

Lemma split_nil : Py.split [] = [].
Proof. done. Qed.

(** The semantic-containment override and the clamp keep a score of the
    unit interval inside it. *)
Lemma override_bounds (threshold f : Q) (n m : nat) :
  0 <= f <= 1 →
  0 <= Py.min
         (if Qle_bool threshold (Py.float n / Py.float m)
          then Py.max f (Py.min (Py.float n / Py.float m) (19 # 20)) else f) 1 <= 1.
Proof.
  intros Hf.
  set (sc := Py.float n / Py.float m).
  assert (0 <= (if Qle_bool threshold sc
                then Py.max f (Py.min sc (19 # 20)) else f)) as Hlow.
  { destruct (Qle_bool threshold sc); [|lra].
    destruct (max_cases f (Py.min sc (19 # 20))) as [[? ->]|[? ->]]; lra. }
  destruct (min_cases
    (if Qle_bool threshold sc then Py.max f (Py.min sc (19 # 20)) else f) 1)
    as [[? ->]|[? ->]]; lra.
Qed.

Lemma app_similarity_bounds (semantic_containment_threshold : Q) (x y : list N) :
  0 <= app.calculate_text_similarity semantic_containment_threshold x y <= 1.
Proof.
  unfold app.calculate_text_similarity.
  destruct x as [|a x]; [lra|]. destruct y as [|b y]; [lra|].
  cbv zeta. destruct (_ || _); [lra|].
  pose proof (weighted_similarity_bounds (app.clean_text (a :: x))
    (app.clean_text (b :: y))
    (list_to_set (Py.split (app.clean_text (a :: x))))
    (list_to_set (Py.split (app.clean_text (b :: y))))) as Hw.
  destruct (_ && _).
  - destruct (_ <=? _)%nat; by apply override_bounds.
  - destruct (min_cases (app.weighted_similarity (app.clean_text (a :: x))
      (app.clean_text (b :: y))
      (list_to_set (Py.split (app.clean_text (a :: x))))
      (list_to_set (Py.split (app.clean_text (b :: y))))) 1) as [[? ->]|[? ->]]; lra.
Qed.

Lemma relevance_score_bounds (env : BM25_evaluate.Env) (x y : list N) :
  0 <= BM25_evaluate.calculate_relevance_score env x y <= 1.
Proof.
  unfold BM25_evaluate.calculate_relevance_score.
  destruct x; [lra|]. destruct y; [lra|]. apply app_similarity_bounds.
Qed.

(** C7: for all strings [x] and [y], the similarity lies in [[0,1]], in
    both variants of [calculate_text_similarity], and it is 0 when either
    string is empty or cleans to the empty string. *)
Theorem calculate_text_similarity_unit_interval
    (semantic_containment_threshold : Q) (x y : list N) :
  0 <= app.calculate_text_similarity semantic_containment_threshold x y <= 1 ∧
  0 <= text_similarity.calculate_text_similarity x y <= 1 ∧
  (x = [] ∨ y = [] ∨ app.clean_text x = [] ∨ app.clean_text y = [] →
   app.calculate_text_similarity semantic_containment_threshold x y = 0 ∧
   text_similarity.calculate_text_similarity x y = 0).
Proof.
  split; [apply app_similarity_bounds|split].
  - unfold text_similarity.calculate_text_similarity.
    destruct x as [|a x]; [lra|]. destruct y as [|b y]; [lra|].
    cbv zeta. destruct (_ || _); [lra|]. apply weighted_similarity_bounds.
  - unfold app.calculate_text_similarity, text_similarity.calculate_text_similarity.
    intros [->|[->|[Hx|Hy]]].
    + done.
    + by destruct x.
    + destruct x as [|a x]; [done|]. destruct y as [|b y]; [done|].
      cbv zeta. rewrite Hx, split_nil. done.
    + destruct x as [|a x]; [done|]. destruct y as [|b y]; [done|].
      cbv zeta. rewrite Hy, split_nil.
      rewrite !orb_true_r. done.
Qed.

(** *** Identical chunks *)

Lemma runs_from_cur p cur s : cur ≠ [] → Py.runs_from p cur s ≠ [].
Proof.
  revert cur. induction s as [|c s IH]; intros cur Hcur; simpl.
  - by destruct cur.
  - destruct (p c); [by apply IH|]. by destruct cur.
Qed.

Lemma runs_nonempty p s : Exists (λ c, p c = true) s → Py.runs p s ≠ [].
Proof.
  unfold Py.runs. intros Hex. generalize (@nil N).
  induction Hex as [c s Hc|c s _ IH]; intros cur; simpl.
  - rewrite Hc. by apply runs_from_cur.
  - destruct (p c); [by apply runs_from_cur|]. destruct cur; [apply IH|done].
Qed.

Lemma lstrip_nonspace s :
  Py.lstrip s ≠ [] → Exists (λ c, isspace c = false) (Py.lstrip s).
Proof.
  induction s as [|c s IH]; simpl; [done|].
  destruct (isspace c) eqn:E; [done|]. intros _. by left.
Qed.

Lemma strip_nonspace s :
  Py.strip s ≠ [] → Exists (λ c, isspace c = false) (Py.strip s).
Proof.
  unfold Py.strip. intros Hne.
  assert (Py.lstrip (rev (Py.lstrip s)) ≠ []) as Hne'.
  { intros E. by rewrite E in Hne. }
  apply lstrip_nonspace in Hne'.
  apply Exists_exists in Hne' as (c & Hin & Hc).
  apply Exists_exists. exists c. split; [|done].
  apply list_elem_of_In, in_rev. rewrite rev_involutive. by apply list_elem_of_In.
Qed.

(** A cleaned text with a character in it has a word in it. *)
Lemma clean_text_words text :
  app.clean_text text ≠ [] → Py.split (app.clean_text text) ≠ [].
Proof.
  unfold app.clean_text. cbv zeta. intros Hne.
  apply runs_nonempty.
  eapply Exists_impl; [apply lower_nonspace|].
  - apply strip_nonspace. intros E. rewrite E, lower_nil in Hne. done.
  - intros c Hc. simpl. by rewrite Hc.
Qed.

Lemma startswith_refl s : Py.startswith s s = true.
Proof. induction s as [|c s IH]; simpl; [done|]. by rewrite N.eqb_refl. Qed.

Lemma contains_refl s : Py.contains s s = true.
Proof. destruct s; simpl; [done|]. by rewrite N.eqb_refl, startswith_refl. Qed.

Lemma list_to_set_size {K} `{!EqDecision K, !Countable K} (l : list K) :
  l ≠ [] → (0 < size (list_to_set l : gset K))%nat.
Proof.
  destruct l as [|x l]; [done|]. intros _.
  assert (size (list_to_set (x :: l) : gset K) ≠ 0%nat); [|lia].
  rewrite size_non_empty_iff.
  intros E. apply (not_elem_of_empty (C := gset K) x). rewrite <- E.
  apply elem_of_list_to_set. left.
Qed.

Lemma jaccard_self {K} `{!EqDecision K, !Countable K} (A : gset K) :
  (0 < size A)%nat →
  (if (0 <? size (A ∪ A))%nat
   then Py.float (size (A ∩ A)) / Py.float (size (A ∪ A)) else 0) == 1.
Proof.
  intros HA.
  replace (A ∪ A) with A by (apply set_eq; intros x; rewrite elem_of_union; tauto).
  replace (A ∩ A) with A by (apply set_eq; intros x; rewrite elem_of_intersection; tauto).
  apply Nat.ltb_lt in HA as HA'. rewrite HA'. by apply ratio_self.
Qed.

Lemma substring_similarity_self c :
  (10 < length c)%nat → app.substring_similarity c c == 1.
Proof.
  intros Hc. unfold app.substring_similarity.
  apply Nat.ltb_lt in Hc as Hc'. rewrite Hc'. simpl andb. cbv iota.
  rewrite Nat.ltb_irrefl, contains_refl. apply ratio_self. lia.
Qed.

Lemma weighted_similarity_self c words :
  (10 < length c)%nat → (0 < size words)%nat →
  app.weighted_similarity c c words words == 1.
Proof.
  intros Hc Hw. unfold app.weighted_similarity. cbv zeta.
  rewrite Nat.ltb_irrefl.
  pose proof (jaccard_self words Hw) as Hj.
  pose proof (jaccard_self (list_to_set c : gset N)
    ltac:(apply list_to_set_size; intros ->; simpl in Hc; lia)) as Hch.
  pose proof (substring_similarity_self c Hc) as Hs.
  lra.
Qed.

(** C6, amended: a string whose cleaned form is longer than 10 characters
    has similarity exactly 1 with itself, whatever the
    semantic-containment threshold. *)
Theorem identical_chunks_similarity
    (semantic_containment_threshold : Q) (s : list N) :
  (10 < length (app.clean_text s))%nat →
  app.calculate_text_similarity semantic_containment_threshold s s == 1.
Proof.
  intros Hlen.
  assert (app.clean_text s ≠ []) as Hne by (intros E; rewrite E in Hlen; simpl in Hlen; lia).
  pose proof (list_to_set_size _ (clean_text_words s Hne)) as Hw.
  unfold app.calculate_text_similarity.
  destruct s as [|a s]; [by rewrite clean_text_nil in Hne|].
  cbv zeta.
  set (c := app.clean_text (a :: s)) in *.
  set (words := list_to_set (Py.split c) : gset (list N)) in *.
  rewrite bool_decide_eq_false_2; last first.
  { intros E. rewrite E, size_empty in Hw. lia. }
  simpl orb. cbv iota.
  pose proof (weighted_similarity_self c words Hlen Hw) as Hf.
  apply Nat.ltb_lt in Hw as Hw'. rewrite Hw'. simpl andb. cbv iota.
  rewrite Nat.leb_refl.
  replace (words ∩ words) with words
    by (apply set_eq; intros x; rewrite elem_of_intersection; tauto).
  pose proof (ratio_self (size words) Hw) as Hsc.
  set (f := app.weighted_similarity c c words words) in *.
  set (sc := Py.float (size words) / Py.float (size words)) in *.
  assert ((if Qle_bool semantic_containment_threshold sc
           then Py.max f (Py.min sc (19 # 20)) else f) == 1) as Hov.
  { destruct (Qle_bool semantic_containment_threshold sc); [|done].
    destruct (min_cases sc (19 # 20)) as [[? Hm]|[? Hm]]; rewrite Hm;
      destruct (max_cases f sc) as [[? Hx]|[? Hx]];
      destruct (max_cases f (19 # 20)) as [[? Hy]|[? Hy]];
      rewrite ?Hx, ?Hy; lra. }
  destruct (min_cases
    (if Qle_bool semantic_containment_threshold sc
     then Py.max f (Py.min sc (19 # 20)) else f) 1) as [[? Hm]|[? Hm]];
    rewrite Hm; lra.
Qed.

End Similarity.

(** ** One row of the dataset *)

(** The scores of a retrieved chunk against every reference chunk (a row
    of the similarity matrix), and of a reference chunk against every
    retrieved chunk (a column). *)
Definition similarities_to_references `{PyUnicode} (env : BM25_evaluate.Env)
    (reference : list (list N)) (chunk : list N) : list Q :=
  BM25_evaluate.calculate_relevance_score env chunk <$> reference.

Definition similarities_to_retrieved `{PyUnicode} (env : BM25_evaluate.Env)
    (retrieved : list (list N)) (chunk : list N) : list Q :=
  (λ r, BM25_evaluate.calculate_relevance_score env r chunk) <$> retrieved.

(** The indices that a row evaluation records. *)
Definition relevant_indices (e : BM25_evaluate.row_evaluation) : list nat :=
  BM25_evaluate.rel_retrieved_idx <$>
    BM25_evaluate.row_relevant_chunks (BM25_evaluate.row_detail e).

Definition irrelevant_indices (e : BM25_evaluate.row_evaluation) : list nat :=
  BM25_evaluate.irr_retrieved_idx <$> BM25_evaluate.row_irrelevant e.

Definition missed_indices (e : BM25_evaluate.row_evaluation) : list nat :=
  BM25_evaluate.mis_reference_idx <$> BM25_evaluate.row_missed e.

Section Rows.
Context `{PyUnicode}.
Import BM25_evaluate.
Local Open Scope Q_scope.

Variable env : Env.
Variable idx : nat.
Variable sample : row.

Local Abbreviation retrieved := (retrieved_contexts sample).
Local Abbreviation reference := (reference_contexts sample).
Local Abbreviation thr := (SIMILARITY_THRESHOLD env).
Local Abbreviation matrix := (similarities_to_references env reference <$> retrieved).
Local Abbreviation rm i := (row_max (default [] (matrix !! i))).
Local Abbreviation column j := ((λ row : list Q, default 0 (row !! j)) <$> matrix).

Hypothesis retrieved_nonempty : retrieved ≠ [].
Hypothesis reference_nonempty : reference ≠ [].

Lemma matrix_lookup i chunk :
  retrieved !! i = Some chunk →
  matrix !! i = Some (similarities_to_references env reference chunk).
Proof. intros Hi. by rewrite list_lookup_fmap, Hi. Qed.

Lemma similarities_nonempty chunk : similarities_to_references env reference chunk ≠ [].
Proof.
  unfold similarities_to_references. destruct reference; [done|]. simpl. done.
Qed.

Lemma similarities_bounds chunk :
  Forall (λ x, 0 <= x <= 1) (similarities_to_references env reference chunk).
Proof.
  unfold similarities_to_references. apply Forall_fmap, Forall_forall.
  intros f _. apply relevance_score_bounds.
Qed.

Lemma rm_lookup i chunk :
  retrieved !! i = Some chunk →
  rm i = row_max (similarities_to_references env reference chunk).
Proof. intros Hi. by rewrite (matrix_lookup i chunk Hi). Qed.

Lemma rm_bounds i : (i < length retrieved)%nat → 0 <= rm i <= 1.
Proof.
  intros Hi. destruct (lookup_lt_is_Some_2 retrieved i Hi) as [chunk Hc].
  rewrite (rm_lookup i chunk Hc).
  destruct (row_max_is_max _ (similarities_nonempty chunk)) as [(x & Hx & Ex) _].
  pose proof (similarities_bounds chunk) as Hb. rewrite Forall_forall in Hb.
  specialize (Hb x Hx). lra.
Qed.

(** *** The loop over the retrieved chunks *)

Definition classified (st : classification) (i : nat) (m : Q) (j : Z)
    : classification :=
  if Py.gt m thr then
    {| relevant_retrieved := relevant_retrieved st ++
         [{| relevance_score := m; rel_row_index := idx;
             rel_retrieved_idx := i; rel_reference_idx := j |}];
       matched_references := matched_references st ∪ {[j]};
       total := total st + m;
       irrelevant := irrelevant st |}
  else
    {| relevant_retrieved := relevant_retrieved st;
       matched_references := matched_references st;
       total := total st;
       irrelevant := irrelevant st ++
         [{| irr_max_relevance := m; irr_row_index := idx;
             irr_retrieved_idx := i |}] |}.

Lemma classify_chunk_ok st i :
  (i < length retrieved)%nat →
  ∃ j, classify_chunk thr idx reference matrix st i = Py.Ok (classified st i (rm i) j).
Proof.
  intros Hi. destruct (lookup_lt_is_Some_2 retrieved i Hi) as [chunk Hc].
  pose proof (matrix_lookup i chunk Hc) as Hrow.
  rewrite (rm_lookup i chunk Hc).
  set (row := similarities_to_references env reference chunk) in *.
  assert (row ≠ []) as Hne by apply similarities_nonempty.
  assert (length row = length reference) as Hlen
    by (unfold row, similarities_to_references; by rewrite length_fmap).
  assert (row_max row ∈ row) as Hin.
  { destruct row as [|x l]; [done|]. apply foldl_max_elem. }
  destruct (index_from_found 0 row (row_max row) Hin) as (j & Hj & Hlt).
  destruct (lookup_lt_is_Some_2 reference j ltac:(lia)) as [ref Href].
  exists (Z.of_nat j).
  unfold classify_chunk, classified.
  rewrite (getitem_lookup _ _ _ Hrow). simpl.
  rewrite max_list_row_max. simpl.
  destruct row as [|x l] eqn:Erow; [done|]. rewrite <- Erow in *.
  unfold Py.index. rewrite Hj. simpl.
  destruct (Py.gt (row_max row) thr); [|done].
  by rewrite (getitem_lookup _ _ _ Href).
Qed.

Definition classify_invariant (k : nat) (st : classification) : Prop :=
  rel_retrieved_idx <$> relevant_retrieved st
    = filter (λ i, Py.gt (rm i) thr = true) (seq 0 k) ∧
  relevance_score <$> relevant_retrieved st
    = (λ i, rm i) <$> (rel_retrieved_idx <$> relevant_retrieved st) ∧
  irr_retrieved_idx <$> irrelevant st
    = filter (λ i, Py.gt (rm i) thr = false) (seq 0 k) ∧
  total st = Py.sum (relevance_score <$> relevant_retrieved st).

Lemma classify_loop k :
  (k ≤ length retrieved)%nat →
  ∃ st,
    Py.for_ (Py.range 0 k)
      {| relevant_retrieved := []; matched_references := ∅; total := 0;
         irrelevant := [] |}
      (classify_chunk thr idx reference matrix) = Py.Ok st ∧
    classify_invariant k st.
Proof.
  induction k as [|k IH]; intros Hk.
  - eexists. split; [reflexivity|]. by repeat split.
  - destruct (IH ltac:(lia)) as (st & Hst & Hrel & Hscore & Hirr & Htot).
    destruct (classify_chunk_ok st k ltac:(lia)) as [j Hj].
    exists (classified st k (rm k) j). split.
    { by rewrite range_S, for_snoc, Hst. }
    unfold classify_invariant, classified. rewrite seq_S, !filter_app. simpl.
    destruct (Py.gt (rm k) thr) eqn:E; simpl.
    + rewrite !fmap_app. simpl. rewrite sum_snoc.
      rewrite (filter_cons_True _ k []) by done.
      rewrite (filter_cons_False _ k []) by congruence.
      rewrite !filter_nil, app_nil_r. repeat split; congruence.
    + rewrite (filter_cons_False _ k []) by congruence.
      rewrite (filter_cons_True _ k []) by done.
      rewrite !fmap_app, !filter_nil, app_nil_r. simpl. repeat split; congruence.
Qed.

(** *** The loop over the reference chunks *)

Lemma column_lookup j chunk :
  reference !! j = Some chunk →
  column j = similarities_to_retrieved env retrieved chunk.
Proof.
  intros Hj. unfold similarities_to_retrieved, similarities_to_references.
  rewrite <- list_fmap_compose. apply list_fmap_ext. intros i r _. simpl.
  by rewrite list_lookup_fmap, Hj.
Qed.

Lemma best_retrieved_ok n j :
  (n ≤ length retrieved)%nat → (j < length reference)%nat →
  ∃ best_idx,
    best_retrieved matrix n j = Py.Ok (running_max (take n (column j)), best_idx).
Proof.
  intros Hn Hj. unfold best_retrieved. induction n as [|n IH].
  - by eexists.
  - destruct (IH ltac:(lia)) as [best_idx Hbest].
    destruct (lookup_lt_is_Some_2 retrieved n ltac:(lia)) as [chunk Hc].
    destruct (lookup_lt_is_Some_2 reference j Hj) as [ref Href].
    pose proof (matrix_lookup n chunk Hc) as Hrow.
    assert (similarities_to_references env reference chunk !! j
            = Some (calculate_relevance_score env chunk ref)) as Hcell.
    { unfold similarities_to_references. by rewrite list_lookup_fmap, Href. }
    rewrite range_S, for_snoc, Hbest. simpl.
    rewrite (getitem_lookup _ _ _ Hrow). simpl.
    rewrite (getitem_lookup _ _ _ Hcell). simpl.
    erewrite take_S_r; last first.
    { rewrite list_lookup_fmap, Hrow. simpl. by rewrite Hcell. }
    unfold running_max. rewrite foldl_snoc.
    destruct (Py.gt _ _); by eexists.
Qed.

Lemma check_missed_ok missed j :
  (j < length reference)%nat →
  ∃ best_idx,
    check_missed thr idx (length retrieved) matrix missed j =
    Py.Ok (if Qle_bool (running_max (column j)) thr
           then missed ++
             [{| mis_max_relevance := running_max (column j); mis_row_index := idx;
                 mis_reference_idx := j; best_retrieved_idx := best_idx |}]
           else missed).
Proof.
  intros Hj. destruct (best_retrieved_ok (length retrieved) j ltac:(lia) Hj)
    as [best_idx Hbest].
  rewrite take_ge in Hbest by (rewrite !length_fmap; lia).
  exists best_idx. unfold check_missed. rewrite Hbest. simpl.
  by destruct (Qle_bool _ _).
Qed.

Lemma missed_loop k :
  (k ≤ length reference)%nat →
  ∃ missed,
    Py.for_ (Py.range 0 k) []
      (check_missed thr idx (length retrieved) matrix) = Py.Ok missed ∧
    mis_reference_idx <$> missed
      = filter (λ j, Qle_bool (running_max (column j)) thr = true) (seq 0 k).
Proof.
  induction k as [|k IH]; intros Hk.
  - by eexists.
  - destruct (IH ltac:(lia)) as (missed & Hloop & Hidx).
    destruct (check_missed_ok missed k ltac:(lia)) as [best_idx Hstep].
    eexists. split.
    { rewrite range_S, for_snoc, Hloop. simpl. exact Hstep. }
    rewrite seq_S, filter_app. simpl.
    destruct (Qle_bool _ _) eqn:E.
    + rewrite (filter_cons_True _ k []) by done.
      rewrite fmap_app, filter_nil. simpl. congruence.
    + rewrite (filter_cons_False _ k []) by congruence.
      rewrite filter_nil, app_nil_r. done.
Qed.

(** *** What one row yields *)

Lemma evaluate_row_unfold :
  evaluate_row env idx sample =
  (st ← Py.for_ (Py.range 0 (length retrieved))
         {| relevant_retrieved := []; matched_references := ∅; total := 0;
            irrelevant := [] |}
         (classify_chunk thr idx reference matrix);
   missed ← Py.for_ (Py.range 0 (length reference)) []
         (check_missed thr idx (length retrieved) matrix);
   Py.Ok (Some
     {| row_irrelevant := irrelevant st;
        row_missed := missed;
        row_detail :=
          {| row_index := idx;
             precision := total st / Py.float (length retrieved);
             recall := total st / Py.float (length reference);
             retrieved_count := length retrieved;
             reference_count := length reference;
             relevant_count := length (relevant_retrieved st);
             total_relevance_score := total st;
             matched_reference_count := size (matched_references st);
             row_relevant_chunks := relevant_retrieved st;
             similarity_matrix := matrix |} |})).
Proof.
  unfold evaluate_row.
  destruct retrieved as [|r rs]; [done|]. by destruct reference as [|f fs].
Qed.

Lemma evaluate_row_ok :
  ∃ e,
    evaluate_row env idx sample = Py.Ok (Some e) ∧
    relevant_indices e
      = filter (λ i, Py.gt (rm i) thr = true) (seq 0 (length retrieved)) ∧
    relevance_score <$> row_relevant_chunks (row_detail e)
      = (λ i, rm i) <$> relevant_indices e ∧
    irrelevant_indices e
      = filter (λ i, Py.gt (rm i) thr = false) (seq 0 (length retrieved)) ∧
    missed_indices e
      = filter (λ j, Qle_bool (running_max (column j)) thr = true)
          (seq 0 (length reference)) ∧
    total_relevance_score (row_detail e)
      = Py.sum (relevance_score <$> row_relevant_chunks (row_detail e)) ∧
    precision (row_detail e)
      = total_relevance_score (row_detail e) / Py.float (length retrieved) ∧
    recall (row_detail e)
      = total_relevance_score (row_detail e) / Py.float (length reference).
Proof.
  destruct (classify_loop (length retrieved) ltac:(lia))
    as (st & Hst & Hrel & Hscore & Hirr & Htot).
  destruct (missed_loop (length reference) ltac:(lia)) as (missed & Hmissed & Hmis).
  eexists. split.
  { rewrite evaluate_row_unfold, Hst. simpl. rewrite Hmissed. reflexivity. }
  unfold relevant_indices, irrelevant_indices, missed_indices. simpl.
  repeat split; done.
Qed.

Lemma row_max_characterised chunk (P : Q → Prop) :
  (∀ m m', m == m' → P m → P m') →
  P (row_max (similarities_to_references env reference chunk)) ↔
  ∃ m, is_max_of m (similarities_to_references env reference chunk) ∧ P m.
Proof.
  intros HP. pose proof (row_max_is_max _ (similarities_nonempty chunk)) as Hmax.
  split.
  - intros Hm. eauto.
  - intros (m & Hm & Pm). eapply HP; [|exact Pm].
    eapply is_max_of_unique; eauto.
Qed.

Lemma column_max_characterised chunk (P : Q → Prop) :
  (∀ m m', m == m' → P m → P m') →
  P (running_max (similarities_to_retrieved env retrieved chunk)) ↔
  ∃ m, is_max_of m (similarities_to_retrieved env retrieved chunk) ∧ P m.
Proof.
  intros HP.
  assert (is_max_of (running_max (similarities_to_retrieved env retrieved chunk))
            (similarities_to_retrieved env retrieved chunk)) as Hmax.
  { apply running_max_is_max.
    - unfold similarities_to_retrieved. by destruct retrieved.
    - unfold similarities_to_retrieved. apply Forall_fmap, Forall_forall.
      intros r _. apply relevance_score_bounds. }
  split.
  - intros Hm. eauto.
  - intros (m & Hm & Pm). eapply HP; [|exact Pm].
    eapply is_max_of_unique; eauto.
Qed.

(** C4: a retrieved chunk is recorded as relevant iff its largest
    similarity over the reference chunks is strictly above the threshold,
    as irrelevant otherwise; a reference chunk is recorded as missed iff
    its largest similarity over the retrieved chunks is at most the
    threshold.  With one chunk on each side and a similarity equal to the
    threshold, the retrieved chunk is irrelevant and the reference chunk
    is missed. *)
Theorem relevance_classification :
  ∃ e,
    evaluate_row env idx sample = Py.Ok (Some e) ∧
    (∀ i, i ∈ relevant_indices e ↔
       ∃ chunk m, retrieved !! i = Some chunk ∧
         is_max_of m (similarities_to_references env reference chunk) ∧ thr < m) ∧
    (∀ i, i ∈ irrelevant_indices e ↔
       ∃ chunk m, retrieved !! i = Some chunk ∧
         is_max_of m (similarities_to_references env reference chunk) ∧ m <= thr) ∧
    (∀ j, j ∈ missed_indices e ↔
       ∃ chunk m, reference !! j = Some chunk ∧
         is_max_of m (similarities_to_retrieved env retrieved chunk) ∧ m <= thr) ∧
    (∀ r f, retrieved = [r] → reference = [f] →
       calculate_relevance_score env r f == thr →
       relevant_indices e = [] ∧ irrelevant_indices e = [0%nat] ∧
       missed_indices e = [0%nat]).
Proof.
  destruct evaluate_row_ok as (e & He & Hrel & _ & Hirr & Hmis & _).
  exists e. split; [done|]. split; [|split; [|split]].
  - intros i. rewrite Hrel, list_elem_of_filter, elem_of_seq, gt_true. split.
    + intros [Hgt Hi].
      destruct (lookup_lt_is_Some_2 retrieved i ltac:(lia)) as [chunk Hc].
      rewrite (rm_lookup i chunk Hc) in Hgt.
      apply (row_max_characterised chunk (λ m, thr < m)) in Hgt as (m & ? & ?);
        [by exists chunk, m | intros; lra].
    + intros (chunk & m & Hc & Hm & Hgt).
      split; [|apply lookup_lt_Some in Hc; lia].
      rewrite (rm_lookup i chunk Hc).
      apply (row_max_characterised chunk (λ m, thr < m)); [intros; lra | eauto].
  - intros i. rewrite Hirr, list_elem_of_filter, elem_of_seq, gt_false. split.
    + intros [Hle Hi].
      destruct (lookup_lt_is_Some_2 retrieved i ltac:(lia)) as [chunk Hc].
      rewrite (rm_lookup i chunk Hc) in Hle.
      apply (row_max_characterised chunk (λ m, m <= thr)) in Hle as (m & ? & ?);
        [by exists chunk, m | intros; lra].
    + intros (chunk & m & Hc & Hm & Hle).
      split; [|apply lookup_lt_Some in Hc; lia].
      rewrite (rm_lookup i chunk Hc).
      apply (row_max_characterised chunk (λ m, m <= thr)); [intros; lra | eauto].
  - intros j. rewrite Hmis, list_elem_of_filter, elem_of_seq, Qle_bool_iff. split.
    + intros [Hle Hj].
      destruct (lookup_lt_is_Some_2 reference j ltac:(lia)) as [chunk Hc].
      rewrite (column_lookup j chunk Hc) in Hle.
      apply (column_max_characterised chunk (λ m, m <= thr)) in Hle as (m & ? & ?);
        [by exists chunk, m | intros; lra].
    + intros (chunk & m & Hc & Hm & Hle).
      split; [|apply lookup_lt_Some in Hc; lia].
      rewrite (column_lookup j chunk Hc).
      apply (column_max_characterised chunk (λ m, m <= thr)); [intros; lra | eauto].
  - intros r f Hr Hf Heq.
    pose proof (relevance_score_bounds env r f) as Hb.
    rewrite Hrel, Hirr, Hmis. rewrite Hr, Hf. simpl.
    unfold similarities_to_references, running_max. simpl.
    assert (Py.gt (calculate_relevance_score env r f) thr = false) as Hgt
      by (apply gt_false; lra).
    assert (Qle_bool (if Py.gt (calculate_relevance_score env r f) 0
                      then calculate_relevance_score env r f else 0) thr = true)
      as Hle.
    { apply Qle_bool_iff. destruct (Py.gt _ 0) eqn:E; [lra|].
      apply gt_false in E. lra. }
    rewrite (filter_cons_False _ 0%nat []) by (simpl; congruence).
    rewrite (filter_cons_True _ 0%nat []) by done.
    rewrite (filter_cons_True _ 0%nat []) by done.
    done.
Qed.

Lemma relevant_chunks_scores e :
  relevant_indices e
    = filter (λ i, Py.gt (rm i) thr = true) (seq 0 (length retrieved)) →
  relevance_score <$> row_relevant_chunks (row_detail e)
    = (λ i, rm i) <$> relevant_indices e →
  Forall (λ info,
    ∃ chunk, retrieved !! rel_retrieved_idx info = Some chunk ∧
      is_max_of (relevance_score info)
        (similarities_to_references env reference chunk) ∧
      thr < relevance_score info ∧ 0 <= relevance_score info <= 1)
    (row_relevant_chunks (row_detail e)).
Proof.
  unfold relevant_indices. intros Hrel Hscore.
  assert (Forall (λ i, Py.gt (rm i) thr = true ∧ (i < length retrieved)%nat)
            (rel_retrieved_idx <$> row_relevant_chunks (row_detail e))) as Hidx.
  { rewrite Hrel. apply Forall_forall. intros i.
    rewrite list_elem_of_filter, elem_of_seq. intros [? ?]. split; [done | lia]. }
  revert Hscore Hidx. clear Hrel.
  induction (row_relevant_chunks (row_detail e)) as [|info l IH]; simpl;
    intros Hscore Hidx; [constructor|].
  injection Hscore as Hhead Htail. apply Forall_cons in Hidx as [[Hgt Hlt] Hidx].
  constructor; [|by apply IH].
  destruct (lookup_lt_is_Some_2 retrieved _ Hlt) as [chunk Hc].
  exists chunk. split; [done|].
  pose proof (rm_bounds _ Hlt) as Hb. apply gt_true in Hgt.
  rewrite Hhead. rewrite (rm_lookup _ chunk Hc) in *.
  split; [apply row_max_is_max, similarities_nonempty | done].
Qed.

Lemma Qdiv_le_compat (a b c : Q) : 0 < c → a <= b → a / c <= b / c.
Proof.
  intros Hc Hab. unfold Qdiv. apply Qmult_le_compat_r; [done|].
  apply Qlt_le_weak, Qinv_lt_0_compat, Hc.
Qed.

Lemma total_relevance_score_bounds e :
  relevant_indices e
    = filter (λ i, Py.gt (rm i) thr = true) (seq 0 (length retrieved)) →
  relevance_score <$> row_relevant_chunks (row_detail e)
    = (λ i, rm i) <$> relevant_indices e →
  0 <= Py.sum (relevance_score <$> row_relevant_chunks (row_detail e))
    <= Py.float (length retrieved).
Proof.
  intros Hrel Hscore.
  pose proof (relevant_chunks_scores e Hrel Hscore) as Hall.
  pose proof (sum_bounds (relevance_score <$> row_relevant_chunks (row_detail e)))
    as Hsum.
  destruct Hsum as [Hlow Hhigh].
  { apply Forall_fmap. eapply Forall_impl; [exact Hall|].
    intros info (chunk & _ & _ & _ & Hb). exact Hb. }
  split; [done|]. eapply Qle_trans; [exact Hhigh|]. apply float_le.
  rewrite Hscore, length_fmap, Hrel.
  etransitivity; [apply length_filter|]. by rewrite length_seq.
Qed.

(** C1, amended: for a sample with [R] retrieved and [F] reference
    chunks, both non-empty, the total relevance score is the sum, over
    the retrieved chunks recorded as relevant, of their largest
    similarity to a reference chunk; precision is that total over [R] and
    lies in [[0,1]]; recall is that total over [F] and lies in
    [[0, R/F]], hence in [[0,1]] when [R <= F]. *)
Theorem precision_recall_bounds :
  ∃ e,
    evaluate_row env idx sample = Py.Ok (Some e) ∧
    total_relevance_score (row_detail e)
      = Py.sum (relevance_score <$> row_relevant_chunks (row_detail e)) ∧
    Forall (λ info,
      ∃ chunk, retrieved !! rel_retrieved_idx info = Some chunk ∧
        is_max_of (relevance_score info)
          (similarities_to_references env reference chunk) ∧
        thr < relevance_score info ∧ 0 <= relevance_score info <= 1)
      (row_relevant_chunks (row_detail e)) ∧
    precision (row_detail e)
      = total_relevance_score (row_detail e) / Py.float (length retrieved) ∧
    recall (row_detail e)
      = total_relevance_score (row_detail e) / Py.float (length reference) ∧
    0 <= precision (row_detail e) <= 1 ∧
    0 <= recall (row_detail e)
      <= Py.float (length retrieved) / Py.float (length reference) ∧
    ((length retrieved ≤ length reference)%nat → recall (row_detail e) <= 1).
Proof.
  destruct evaluate_row_ok as (e & He & Hrel & Hscore & _ & _ & Htot & Hp & Hr).
  pose proof (total_relevance_score_bounds e Hrel Hscore) as Hb.
  rewrite <- Htot in Hb.
  assert (0 < Py.float (length retrieved)) as HR.
  { apply float_pos. destruct retrieved; [done | simpl; lia]. }
  assert (0 < Py.float (length reference)) as HF.
  { apply float_pos. destruct reference; [done | simpl; lia]. }
  assert (0 <= recall (row_detail e)
            <= Py.float (length retrieved) / Py.float (length reference)) as Hrec.
  { rewrite Hr. split.
    - apply Qle_shift_div_l; [done | lra].
    - apply Qdiv_le_compat; [done | lra]. }
  exists e. repeat split; try done.
  - by apply relevant_chunks_scores.
  - rewrite Hp. apply Qle_shift_div_l; [done | lra].
  - rewrite Hp. apply Qle_shift_div_r; [done | lra].
  - apply Hrec.
  - apply Hrec.
  - intros Hle. eapply Qle_trans; [apply Hrec|].
    apply Qle_shift_div_r; [done|]. apply float_le in Hle. lra.
Qed.

End Rows.

(** ** The dataset *)

(** The spec's per-sample formula: [2pr/(p+r)] if [p+r > 0], else 0. *)
Definition f1_formula (p r : Q) : Q :=
  if Qlt_le_dec 0 (p + r) then (2 * p * r / (p + r))%Q else 0%Q.

(** The rows that the loop does not skip. *)
Definition evaluated (row : BM25_evaluate.row) : Prop :=
  BM25_evaluate.retrieved_contexts row ≠ [] ∧
  BM25_evaluate.reference_contexts row ≠ [].

Section Dataset.
Context `{PyUnicode}.
Import BM25_evaluate.
Local Open Scope Q_scope.

Variable env : Env.

Lemma harmonic_formula p r : harmonic p r == f1_formula p r.
Proof.
  unfold harmonic, f1_formula.
  destruct (Py.gt (p + r) 0) eqn:E; destruct (Qlt_le_dec 0 (p + r)) as [Hlt|Hle].
  - unfold Qdiv. ring.
  - apply gt_true in E. lra.
  - apply gt_false in E. lra.
  - reflexivity.
Qed.

Lemma calculate_f1_score_formula p r :
  0 <= p → 0 <= r →
  F1_Metrics.calculate_f1_score (Some p) (Some r) == f1_formula p r.
Proof.
  intros Hp Hr. unfold F1_Metrics.calculate_f1_score, f1_formula.
  destruct (Qeq_bool (p + r) 0) eqn:E; destruct (Qlt_le_dec 0 (p + r)) as [Hlt|Hle].
  - apply Qeq_bool_iff in E. lra.
  - reflexivity.
  - unfold Qdiv. ring.
  - apply Qeq_bool_neq in E. exfalso. apply E. lra.
Qed.

Lemma evaluate_row_total idx row :
  ∃ o, evaluate_row env idx row = Py.Ok o ∧
    match o with
    | Some e => evaluated row ∧
                0 <= precision (row_detail e) ∧ 0 <= recall (row_detail e)
    | None => ¬ evaluated row
    end.
Proof.
  destruct (decide (retrieved_contexts row = [])) as [ER|ER].
  { exists None. split; [|by intros [? ?]].
    unfold evaluate_row. by rewrite ER. }
  destruct (decide (reference_contexts row = [])) as [EF|EF].
  { exists None. split; [|by intros [? ?]].
    unfold evaluate_row. rewrite EF. by destruct (retrieved_contexts row). }
  destruct (evaluate_row_ok env idx row ER EF)
    as (e & He & Hrel & Hscore & _ & _ & Htot & Hp & Hr).
  pose proof (total_relevance_score_bounds env row EF e Hrel Hscore) as Hb.
  rewrite <- Htot in Hb.
  exists (Some e). split; [done|]. split; [done|].
  rewrite Hp, Hr. split.
  - apply Qle_shift_div_l; [|lra].
    apply float_pos. destruct (retrieved_contexts row); [done | simpl; lia].
  - apply Qle_shift_div_l; [|lra].
    apply float_pos. destruct (reference_contexts row); [done | simpl; lia].
Qed.

(** The accumulator of the loop over the rows. *)
Definition scores_invariant (rows : list row) (results : results) : Prop :=
  Forall (λ p, 0 <= p) (precision_scores results) ∧
  Forall (λ r, 0 <= r) (recall_scores results) ∧
  length (precision_scores results) = length (filter evaluated rows) ∧
  length (recall_scores results) = length (filter evaluated rows).

Lemma append_row_ok (done_rows : list row) (results : results) idx row :
  scores_invariant done_rows results →
  ∃ results',
    append_row env results (idx, row) = Py.Ok results' ∧
    scores_invariant (done_rows ++ [row]) results'.
Proof.
  intros (Hp & Hr & Hlp & Hlr).
  destruct (evaluate_row_total idx row) as (o & Ho & Hspec).
  unfold append_row. rewrite Ho. simpl.
  destruct o as [e|]; eexists; (split; [reflexivity|]);
    unfold scores_invariant; rewrite filter_app; simpl.
  - destruct Hspec as (Hev & Hpe & Hre).
    rewrite (filter_cons_True _ row []) by done.
    rewrite !Forall_app, !Forall_singleton, !length_app. simpl.
    repeat split; try done; lia.
  - rewrite (filter_cons_False _ row []) by done.
    rewrite filter_nil, app_nil_r. done.
Qed.

Lemma rows_loop (done_rows rows : list (nat * row)) (results : results) :
  scores_invariant done_rows.*2 results →
  ∃ results',
    Py.for_ rows results (append_row env) = Py.Ok results' ∧
    scores_invariant (done_rows ++ rows).*2 results'.
Proof.
  revert done_rows results.
  induction rows as [|[idx row] rows IH]; intros done_rows results Hinv.
  - exists results. by rewrite app_nil_r.
  - destruct (append_row_ok _ _ idx row Hinv) as (results' & Hstep & Hinv').
    rewrite for_cons, Hstep. simpl.
    replace (done_rows ++ (idx, row) :: rows)
      with ((done_rows ++ [(idx, row)]) ++ rows) by by rewrite <- app_assoc.
    apply IH. by rewrite fmap_app.
Qed.

Lemma sum_nonneg l : Forall (λ x, 0 <= x) l → 0 <= Py.sum l.
Proof.
  induction l as [|x l IH] using rev_ind; intros Hl.
  - vm_compute. discriminate.
  - rewrite Forall_app, Forall_singleton in Hl. destruct Hl as [Hl Hx].
    specialize (IH Hl). rewrite sum_snoc. lra.
Qed.

Lemma mean_nonneg l :
  Forall (λ x, 0 <= x) l →
  0 <= match l with [] => 0 | _ => Py.mean l end.
Proof.
  intros Hl. destruct l as [|x l]; [lra|].
  unfold Py.mean. apply Qle_shift_div_l.
  - apply float_pos. simpl. lia.
  - pose proof (sum_nonneg _ Hl). lra.
Qed.

Lemma collect_range {A} (g : nat → A) n :
  foldl (λ acc i, acc ++ [g i]) [] (Py.range 0 n) = g <$> seq 0 n.
Proof.
  induction n as [|n IH]; [done|].
  by rewrite range_S, foldl_snoc, IH, seq_S, fmap_app.
Qed.

(** C5, amended: the dataset-level f1, as the evaluator and as the F1
    module compute it, is the formula [2PR/(P+R)] (0 when [P+R] is not
    positive) applied to the arithmetic means [P] and [R] of the
    per-sample precision and recall over the samples that are not
    skipped.  The per-sample f1 values follow the same formula on each
    sample's precision and recall; their mean is not computed. *)
Theorem dataset_f1_of_means (df : list row) :
  ∃ results,
    evaluate_precision_recall env df = Py.Ok results ∧
    length (precision_scores results) = length (filter evaluated df) ∧
    length (recall_scores results) = length (filter evaluated df) ∧
    avg_precision results
      = match precision_scores results with
        | [] => 0
        | _ => Py.mean (precision_scores results)
        end ∧
    avg_recall results
      = match recall_scores results with
        | [] => 0
        | _ => Py.mean (recall_scores results)
        end ∧
    avg_f1 results == f1_formula (avg_precision results) (avg_recall results) ∧
    F1_Metrics.avg_f1 (F1_Metrics.calculate_f1_scores_from_bm25_results results)
      == f1_formula (avg_precision results) (avg_recall results) ∧
    ∀ i p r,
      precision_scores results !! i = Some p →
      recall_scores results !! i = Some r →
      ∃ f1,
        F1_Metrics.f1_scores
          (F1_Metrics.calculate_f1_scores_from_bm25_results results) !! i
          = Some f1 ∧
        f1 == f1_formula p r.
Proof.
  destruct (rows_loop [] (Py.enumerate df) no_results) as (acc & Hacc & Hinv).
  { unfold scores_invariant. simpl. repeat split; constructor. }
  simpl in Hinv.
  replace ((Py.enumerate df).*2) with df in Hinv
    by (unfold Py.enumerate; rewrite snd_zip; [done | by rewrite length_seq]).
  destruct Hinv as (Hp & Hr & Hlp & Hlr).
  eexists. split.
  { unfold evaluate_precision_recall. rewrite Hacc. reflexivity. }
  simpl. repeat split; try done.
  - apply harmonic_formula.
  - apply calculate_f1_score_formula; by apply mean_nonneg.
  - intros i p r Hip Hir. rewrite collect_range.
    rewrite list_lookup_fmap, lookup_seq_lt by (by apply lookup_lt_Some in Hip).
    simpl. rewrite Hip, Hir. simpl. eexists. split; [done|].
    rewrite Forall_forall in Hp, Hr.
    apply calculate_f1_score_formula.
    + apply Hp. by eapply list_elem_of_lookup_2.
    + apply Hr. by eapply list_elem_of_lookup_2.
Qed.

End Dataset.

(** ** The BM25 index *)

Section Index.
Context `{PyUnicode}.
Import BM25_evaluate.

Lemma fit_corpus_length self corpus : length (BM25_evaluate.corpus (fit self corpus)) = length corpus.
Proof. simpl. by rewrite length_fmap. Qed.

(** C8 fails on negative indices: the guard of [score] only covers the
    indices from the corpus size upwards, where the score is 0.  On an
    empty corpus the index -1 raises [IndexError]; on a corpus of one
    document it is scored as document 0. *)
Theorem score_out_of_range (self : BM25) (query : list N) :
  (∀ corpus k,
     score (fit self corpus) query (Z.of_nat (length corpus + k)) = Py.Ok 0%R) ∧
  score (fit self []) query (-1) = Py.Raise Py.IndexError ∧
  (∀ chunk,
     score (fit self [chunk]) query (-1) = score (fit self [chunk]) query 0).
Proof.
  split; [|split].
  - intros corpus k. unfold score. rewrite fit_corpus_length.
    assert ((Z.of_nat (length corpus) <=? Z.of_nat (length corpus + k))%Z = true)
      as -> by (apply Z.leb_le; lia).
    done.
  - reflexivity.
  - intros chunk. reflexivity.
Qed.

Lemma Counter_lookup doc token tf :
  Counter doc !! token = Some tf → token ∈ doc.
Proof.
  unfold Counter. revert token tf.
  apply (foldl_invariant
    (λ m : gmap (list N) nat, ∀ token tf, m !! token = Some tf → token ∈ doc)).
  - intros token tf Hl. by rewrite lookup_empty in Hl.
  - intros m t Ht Hm token tf Hl.
    destruct (decide (t = token)) as [->|Hne]; [done|].
    rewrite lookup_insert_ne in Hl by done. by eapply Hm.
Qed.

(** On the one-document index that [is_chunk_relevant] builds, [score]
    divides by the document length and by a positive denominator only
    for a token of the document: it never raises. *)
Lemma score_single_document chunk query :
  ∃ s, score (fit new [chunk]) query 0 = Py.Ok s.
Proof.
  unfold score. simpl.
  set (tokens := _tokenize chunk).
  unfold Py.for_.
  apply (foldl_invariant (λ acc : Py.result R, ∃ s, acc = Py.Ok s)); [by eexists|].
  intros acc token _ [s ->]. simpl.
  destruct (Counter tokens !! token) as [tf|] eqn:Htf; [|by eexists].
  apply Counter_lookup in Htf.
  assert (0 < INR (length tokens))%R as Hlen.
  { apply lt_0_INR. destruct tokens; [by apply elem_of_nil in Htf | simpl; lia]. }
  unfold Py.rtruediv.
  destruct (Req_dec_T _ 0) as [E|_]; [exfalso; simpl in E; lra|]. simpl.
  destruct (Req_dec_T _ 0) as [E|_]; [exfalso|by eexists].
  pose proof (pos_INR tf) as Htf0.
  assert (INR (length tokens) / (INR (length tokens) / 1) = 1)%R as Hratio
    by (field; lra).
  simpl in E. rewrite Hratio in E. lra.
Qed.

Lemma is_chunk_relevant_total query chunk threshold :
  ∃ relevant s, is_chunk_relevant query chunk threshold = Py.Ok (relevant, s).
Proof.
  unfold is_chunk_relevant.
  destruct chunk as [|c chunk]; [by eexists _, _|].
  destruct query as [|q query]; [by eexists _, _|].
  destruct (score_single_document (c :: chunk) (q :: query)) as [s Hs].
  rewrite Hs. simpl. by eexists _, _.
Qed.

Lemma is_chunk_relevant_score query chunk threshold s :
  query ≠ [] → chunk ≠ [] →
  score (fit new [chunk]) query 0 = Py.Ok s →
  is_chunk_relevant query chunk threshold
  = Py.Ok (bool_decide (threshold < s)%R, s).
Proof.
  intros Hq Hc Hs. unfold is_chunk_relevant.
  destruct chunk as [|c chunk]; [done|]. destruct query as [|q query]; [done|].
  by rewrite Hs.
Qed.

End Index.

(** ** Reciprocal rank *)

(** A reference chunk passes the BM25 filter of the ranking metrics. *)
Definition bm25_qualifies `{PyUnicode} (query chunk : list N) : Prop :=
  ∃ score, BM25_evaluate.is_chunk_relevant query chunk (-10) = Py.Ok (true, score).

(** The retrieved chunk at index [i] is similar, above the threshold, to
    a reference chunk that passes the filter. *)
Definition rank_candidate `{PyUnicode} (env : BM25_evaluate.Env) (query : list N)
    (retrieved reference : list (list N)) (i : nat) : Prop :=
  ∃ chunk ref,
    retrieved !! i = Some chunk ∧ ref ∈ reference ∧ bm25_qualifies query ref ∧
    (BM25_evaluate.SIMILARITY_THRESHOLD env
       < BM25_evaluate.calculate_relevance_score env chunk ref)%Q.

(** The update of [(best_position, best_chunk)] by a relevant chunk at
    [position]. *)
Definition improve (best : option (nat * list N)) (position : nat) (chunk : list N)
    : option (nat * list N) :=
  match best with
  | Some (best_position, _) =>
      if (position <? best_position)%nat then Some (position, chunk) else best
  | None => Some (position, chunk)
  end.

Section ReciprocalRank.
Context `{PyUnicode}.
Import BM25_evaluate MRR_Metrics.
Local Open Scope Q_scope.

Variable env : Env.
Variable query : list N.

Local Abbreviation thr := (SIMILARITY_THRESHOLD env).

Lemma get_relevant_chunks_ok reference :
  ∃ relevant_chunks,
    get_relevant_chunks_for_query query reference = Py.Ok relevant_chunks ∧
    ∀ chunk, chunk ∈ relevant_chunks ↔ chunk ∈ reference ∧ bm25_qualifies query chunk.
Proof.
  unfold get_relevant_chunks_for_query.
  destruct query as [|q query'] eqn:Eq.
  { exists []. split; [done|]. intros chunk. split.
    - intros Hin. by apply elem_of_nil in Hin.
    - intros [_ [s Hs]]. unfold is_chunk_relevant in Hs. by destruct chunk. }
  destruct reference as [|f reference'] eqn:Ef.
  { exists []. split; [done|]. intros chunk. split.
    - intros Hin. by apply elem_of_nil in Hin.
    - intros [Hin _]. by apply elem_of_nil in Hin. }
  rewrite <- Eq, <- Ef. clear Eq Ef.
  induction reference as [|ref l IH] using rev_ind.
  - exists []. split; [done|]. intros chunk. split.
    + intros Hin. by apply elem_of_nil in Hin.
    + intros [Hin _]. by apply elem_of_nil in Hin.
  - destruct IH as (relevant & Hloop & Hspec).
    destruct (is_chunk_relevant_total query ref (-10)) as (b & s & Hrel).
    rewrite for_snoc, Hloop. simpl. rewrite Hrel. simpl.
    destruct b.
    + eexists. split; [done|]. intros chunk.
      rewrite !elem_of_app, !list_elem_of_singleton, Hspec. split.
      * intros [[? ?] | ->]; [by auto|]. split; [by right | by exists s].
      * intros [[Hl|Hl] Hq]; [left | right]; done.
    + eexists. split; [done|]. intros chunk.
      rewrite elem_of_app, list_elem_of_singleton, Hspec. split.
      * intros [? ?]. by auto.
      * intros [[Hl|Hl] Hq]; [done|]. subst chunk.
        destruct Hq as [s' Hs']. congruence.
Qed.

(** *** The dict of positions *)

Lemma positions_lookup (n : nat) (l : list (list N)) (chunk : list N) :
  chunk ∈ l →
  ∃ i, l !! i = Some chunk ∧ (∀ i', l !! i' = Some chunk → (i' ≤ i)%nat) ∧
    foldl (λ (cp : gmap (list N) nat) '(i, chunk), <[chunk := (n - i)%nat]> cp)
      ∅ (Py.enumerate l) !! chunk = Some (n - i)%nat.
Proof.
  induction l as [|c l IH] using rev_ind; intros Hin; [by apply elem_of_nil in Hin|].
  rewrite enumerate_snoc, foldl_snoc.
  destruct (decide (c = chunk)) as [->|Hne].
  - exists (length l). rewrite lookup_insert_eq. split; [|split; [|done]].
    + by rewrite lookup_app_r, Nat.sub_diag by lia.
    + intros i' Hi'. apply lookup_lt_Some in Hi'. rewrite length_app in Hi'.
      simpl in Hi'. lia.
  - apply elem_of_app in Hin as [Hin|Hin]; [|apply list_elem_of_singleton in Hin; done].
    destruct (IH Hin) as (i & Hi & Hmax & Hcp). exists i.
    rewrite lookup_insert_ne by done. split; [|split; [|done]].
    + by rewrite lookup_app_l by (by eapply lookup_lt_Some).
    + intros i' Hi'. apply Hmax.
      destruct (decide (i' < length l)%nat) as [Hlt|Hge].
      * by rewrite lookup_app_l in Hi' by done.
      * rewrite lookup_app_r in Hi' by lia.
        destruct (i' - length l)%nat; simpl in Hi'; [congruence | done].
Qed.

Lemma chunk_positions_lookup (retrieved : list (list N)) (chunk : list N) :
  chunk ∈ retrieved →
  ∃ i, retrieved !! i = Some chunk ∧
    (∀ i', retrieved !! i' = Some chunk → (i' ≤ i)%nat) ∧
    chunk_positions retrieved !! chunk = Some (length retrieved - i)%nat.
Proof. apply positions_lookup. Qed.

(** *** The two loops *)

Local Abbreviation hit relevant_chunks chunk :=
  (existsb (λ ref, Py.gt (calculate_relevance_score env chunk ref) thr) relevant_chunks).

Lemma improve_idempotent best position chunk :
  improve (improve best position chunk) position chunk = improve best position chunk.
Proof.
  destruct best as [[best_position best_chunk]|]; simpl.
  - destruct (position <? best_position)%nat eqn:E; simpl.
    + by rewrite Nat.ltb_irrefl.
    + by rewrite E.
  - by rewrite Nat.ltb_irrefl.
Qed.

Lemma update_best_ok positions chunk position best ref :
  positions !! chunk = Some position →
  update_best env positions chunk best ref =
  Py.Ok (if Py.gt (calculate_relevance_score env chunk ref) thr
         then improve best position chunk else best).
Proof.
  intros Hp. unfold update_best. cbv zeta. rewrite Hp.
  destruct (Py.gt _ _); [|done].
  destruct best as [[bp bc]|]; simpl; [|done]. by destruct (position <? bp)%nat.
Qed.

Lemma scan_chunk_ok positions relevant_chunks best chunk position :
  positions !! chunk = Some position →
  scan_chunk env positions relevant_chunks best chunk =
  Py.Ok (if hit relevant_chunks chunk then improve best position chunk else best).
Proof.
  intros Hp. unfold scan_chunk. revert best.
  induction relevant_chunks as [|ref l IH]; intros best; [done|].
  rewrite for_cons, (update_best_ok _ _ position) by done. rewrite bind_ok, IH.
  simpl. destruct (Py.gt _ _); simpl; [|done].
  rewrite improve_idempotent. by destruct (existsb _ _).
Qed.

(** The value of [(best_position, best_chunk)] after the outer loop. *)
Definition best_of (positions : gmap (list N) nat) (relevant_chunks : list (list N))
    (best : option (nat * list N)) (chunks : list (list N)) : option (nat * list N) :=
  foldl (λ best chunk,
    if hit relevant_chunks chunk
    then improve best (default 0%nat (positions !! chunk)) chunk else best)
    best chunks.

Lemma retrieved_loop_ok positions relevant_chunks chunks best :
  (∀ chunk, chunk ∈ chunks → is_Some (positions !! chunk)) →
  Py.for_ chunks best (scan_chunk env positions relevant_chunks) =
  Py.Ok (best_of positions relevant_chunks best chunks).
Proof.
  revert best. induction chunks as [|chunk chunks IH]; intros best Hpos; [done|].
  destruct (Hpos chunk ltac:(left)) as [position Hp].
  rewrite for_cons, (scan_chunk_ok _ _ _ _ position Hp), bind_ok.
  rewrite IH by (intros c Hc; apply Hpos; by right).
  unfold best_of. simpl. by rewrite Hp.
Qed.

Lemma best_of_spec positions relevant_chunks chunks :
  match best_of positions relevant_chunks None chunks with
  | None => ∀ chunk, chunk ∈ chunks → hit relevant_chunks chunk = false
  | Some (position, chunk) =>
      chunk ∈ chunks ∧ hit relevant_chunks chunk = true ∧
      position = default 0%nat (positions !! chunk) ∧
      ∀ chunk', chunk' ∈ chunks → hit relevant_chunks chunk' = true →
        (position ≤ default 0%nat (positions !! chunk'))%nat
  end.
Proof.
  induction chunks as [|c chunks IH] using rev_ind.
  - simpl. intros chunk Hin. by apply elem_of_nil in Hin.
  - unfold best_of in *. rewrite foldl_snoc.
    set (best := foldl _ None chunks) in *.
    destruct (hit relevant_chunks c) eqn:Ehit.
    + destruct best as [[bp bc]|]; simpl.
      * destruct IH as (Hin & Hhit & Hbp & Hmin).
        destruct (default 0%nat (positions !! c) <? bp)%nat eqn:E.
        -- apply Nat.ltb_lt in E. split; [apply elem_of_app; right; by left|].
           split; [done|]. split; [done|].
           intros c' [Hc'|Hc']%elem_of_app Hhit'.
           ++ specialize (Hmin c' Hc' Hhit'). lia.
           ++ apply list_elem_of_singleton in Hc'. by subst.
        -- apply Nat.ltb_ge in E. split; [apply elem_of_app; by left|].
           split; [done|]. split; [done|].
           intros c' [Hc'|Hc']%elem_of_app Hhit'.
           ++ by apply Hmin.
           ++ apply list_elem_of_singleton in Hc'. by subst.
      * split; [apply elem_of_app; right; by left|].
        split; [done|]. split; [done|].
        intros c' [Hc'|Hc']%elem_of_app Hhit'.
        -- rewrite (IH c' Hc') in Hhit'. done.
        -- apply list_elem_of_singleton in Hc'. by subst.
    + destruct best as [[bp bc]|].
      * destruct IH as (Hin & Hhit & Hbp & Hmin).
        split; [apply elem_of_app; by left|]. split; [done|]. split; [done|].
        intros c' [Hc'|Hc']%elem_of_app Hhit'; [by apply Hmin|].
        apply list_elem_of_singleton in Hc'. subst. congruence.
      * intros c' [Hc'|Hc']%elem_of_app; [by apply IH|].
        apply list_elem_of_singleton in Hc'. by subst.
Qed.

Lemma hit_spec (reference relevant_chunks : list (list N)) (chunk : list N) :
  (∀ c, c ∈ relevant_chunks ↔ c ∈ reference ∧ bm25_qualifies query c) →
  hit relevant_chunks chunk = true ↔
  ∃ ref, ref ∈ reference ∧ bm25_qualifies query ref ∧
    thr < calculate_relevance_score env chunk ref.
Proof.
  intros Hspec. rewrite existsb_exists. split.
  - intros (ref & Hin & Hgt). apply list_elem_of_In, Hspec in Hin as [? ?].
    apply gt_true in Hgt. by exists ref.
  - intros (ref & Hin & Hq & Hgt). exists ref. split.
    + apply list_elem_of_In, Hspec. done.
    + by apply gt_true.
Qed.

Lemma truediv_position position :
  (1 ≤ position)%nat →
  Py.truediv 1 (Py.float position) = Py.Ok (1 / Py.float position).
Proof.
  intros Hp. unfold Py.truediv.
  destruct (Qeq_bool (Py.float position) 0) eqn:E; [|done].
  apply Qeq_bool_iff in E. pose proof (float_pos position Hp). lra.
Qed.

(** C3: the reciprocal rank is [1/p] for the smallest reversed position
    [p = N - i] among the retrieved chunks similar, strictly above the
    threshold, to a reference chunk that passes the BM25 filter, and 0
    when there is none; so it is 0 or [1/k] for some [k] in [1..N]. *)
Theorem reciprocal_rank_smallest_position (retrieved reference : list (list N)) :
  ∃ rr,
    calculate_reciprocal_rank env query retrieved reference = Py.Ok rr ∧
    ((∀ i, ¬ rank_candidate env query retrieved reference i) → rr = 0) ∧
    (∀ i, rank_candidate env query retrieved reference i →
       ∃ i0,
         rank_candidate env query retrieved reference i0 ∧
         (∀ i', rank_candidate env query retrieved reference i' →
            (length retrieved - i0 ≤ length retrieved - i')%nat) ∧
         rr == 1 / Py.float (length retrieved - i0)) ∧
    (rr == 0 ∨ ∃ k, (1 ≤ k ≤ length retrieved)%nat ∧ rr == 1 / Py.float k).
Proof.
  destruct (get_relevant_chunks_ok reference) as (relevant & Hrel & Hspec).
  pose proof (hit_spec reference relevant) as Hhit.
  assert (∀ i, rank_candidate env query retrieved reference i ↔
               ∃ chunk, retrieved !! i = Some chunk ∧ hit relevant chunk = true)
    as Hcand.
  { intros i. unfold rank_candidate. split.
    - intros (chunk & ref & Hi & ? & ? & ?). exists chunk. split; [done|].
      apply Hhit; [done|]. by exists ref.
    - intros (chunk & Hi & Hh). apply Hhit in Hh as (ref & ? & ? & ?); [|done].
      by exists chunk, ref. }
  assert (∀ rr, rr = 0 → (∀ i, ¬ rank_candidate env query retrieved reference i) →
            ((∀ i, ¬ rank_candidate env query retrieved reference i) → rr = 0) ∧
            (∀ i, rank_candidate env query retrieved reference i →
               ∃ i0,
                 rank_candidate env query retrieved reference i0 ∧
                 (∀ i', rank_candidate env query retrieved reference i' →
                    (length retrieved - i0 ≤ length retrieved - i')%nat) ∧
                 rr == 1 / Py.float (length retrieved - i0)) ∧
            (rr == 0 ∨ ∃ k, (1 ≤ k ≤ length retrieved)%nat ∧ rr == 1 / Py.float k))
    as Hnone.
  { intros rr -> Hno. split; [done|]. split; [|by left].
    intros i Hi. by apply Hno in Hi. }
  unfold calculate_reciprocal_rank. rewrite Hrel, bind_ok.
  destruct relevant as [|ref relevant'] eqn:Erel.
  { eexists. split; [done|]. apply Hnone; [done|].
    intros i (chunk & _ & Hh)%Hcand. done. }
  destruct retrieved as [|r retrieved'] eqn:Eret.
  { eexists. split; [done|]. apply Hnone; [done|].
    intros i (chunk & Hi & _)%Hcand. done. }
  cbv beta iota zeta. rewrite <- Erel, <- Eret in *. clear Erel Eret.
  rewrite retrieved_loop_ok, bind_ok; last first.
  { intros chunk Hin. destruct (chunk_positions_lookup _ _ Hin) as (i & _ & _ & ->).
    by eexists. }
  pose proof (best_of_spec (chunk_positions retrieved) relevant retrieved) as Hbest.
  destruct (best_of _ _ None retrieved) as [[position chunk]|].
  - destruct Hbest as (Hin & Hh & Hpos & Hmin).
    destruct (chunk_positions_lookup _ _ Hin) as (i0 & Hi0 & Hlast & Hcp).
    rewrite Hcp in Hpos. simpl in Hpos.
    pose proof (lookup_lt_Some _ _ _ Hi0) as Hlt.
    assert (rank_candidate env query retrieved reference i0) as Hc0
      by (apply Hcand; by exists chunk).
    rewrite truediv_position by lia. eexists. split; [done|].
    split; [|split].
    + intros Hno. by apply Hno in Hc0.
    + intros _ _. exists i0. split; [done|]. split; [|by rewrite Hpos].
      intros i' (chunk' & Hi' & Hh')%Hcand.
      assert (chunk' ∈ retrieved) as Hin' by (by eapply list_elem_of_lookup_2).
      specialize (Hmin chunk' Hin' Hh').
      destruct (chunk_positions_lookup _ _ Hin') as (j & _ & Hlast' & Hcp').
      rewrite Hcp' in Hmin. simpl in Hmin. specialize (Hlast' i' Hi'). lia.
    + right. exists position. split; [lia | reflexivity].
  - eexists. split; [done|]. apply Hnone; [done|].
    intros i (chunk & Hi & Hh)%Hcand.
    rewrite Hbest in Hh; [done|]. by eapply list_elem_of_lookup_2.
Qed.

End ReciprocalRank.

(** ** Discounted cumulative gain *)

(** The sum, over the entries [x] of [l] at the indices [i], [i+1], ...,
    of [f i x]. *)
Fixpoint indexed_sum (f : nat → Q → R) (i : nat) (l : list Q) : R :=
  match l with
  | [] => 0
  | x :: l' => f i x + indexed_sum f (S i) l'
  end.

Section Gain.
Import NDCG_Metrics.
Local Open Scope R_scope.

Lemma ln_2_pos : 0 < ln 2.
Proof. rewrite <- ln_1. apply ln_increasing; lra. Qed.

Lemma log2_2 : log2 2 = 1.
Proof. unfold log2. pose proof ln_2_pos. field. lra. Qed.

Lemma log2_4 : log2 4 = 2.
Proof.
  unfold log2. replace 4 with (2 * 2) by lra.
  rewrite ln_mult by lra. pose proof ln_2_pos. field. lra.
Qed.

Lemma log2_increasing x y : 0 < x → x <= y → log2 x <= log2 y.
Proof.
  intros Hx Hxy. unfold log2. pose proof ln_2_pos.
  apply Rmult_le_compat_r; [left; by apply Rinv_0_lt_compat|].
  destruct Hxy as [Hlt| ->]; [left; by apply ln_increasing | right; done].
Qed.

Lemma log2_ge_1 x : 2 <= x → 1 <= log2 x.
Proof. intros Hx. rewrite <- log2_2. apply log2_increasing; lra. Qed.

(** [84/53 < log2 3 < 485/306], from [2^84 < 3^53] and [3^306 < 2^485]. *)
Lemma log2_3_bounds : 84 / 53 < log2 3 < 485 / 306.
Proof.
  pose proof ln_2_pos as H2.
  assert (84 * ln 2 < 53 * ln 3) as Hlow.
  { change 84 with (IZR (Z.of_nat 84)). change 53 with (IZR (Z.of_nat 53)).
    rewrite <- !INR_IZR_INZ, <- !ln_pow by lra.
    apply ln_increasing; [apply pow_lt; lra|].
    rewrite !pow_IZR. apply IZR_lt. by vm_compute. }
  assert (306 * ln 3 < 485 * ln 2) as Hhigh.
  { change 306 with (IZR (Z.of_nat 306)). change 485 with (IZR (Z.of_nat 485)).
    rewrite <- !INR_IZR_INZ, <- !ln_pow by lra.
    apply ln_increasing; [apply pow_lt; lra|].
    rewrite !pow_IZR. apply IZR_lt. by vm_compute. }
  unfold log2. split.
  - apply Rmult_lt_reg_r with (ln 2); [done|].
    replace (ln 3 / ln 2 * ln 2) with (ln 3) by (field; lra). lra.
  - apply Rmult_lt_reg_r with (ln 2); [done|].
    replace (ln 3 / ln 2 * ln 2) with (ln 3) by (field; lra). lra.
Qed.

Lemma gain_0 r : (r == 0)%Q → gain r = 0.
Proof.
  intros E. unfold gain. rewrite (Qeq_eqR _ _ E).
  replace (Q2R 0) with 0 by (unfold Q2R; simpl; lra).
  rewrite Rpower_O by lra. lra.
Qed.

Lemma gain_1 r : (r == 1)%Q → gain r = 1.
Proof.
  intros E. unfold gain. rewrite (Qeq_eqR _ _ E).
  replace (Q2R 1) with 1 by (unfold Q2R; simpl; lra).
  rewrite Rpower_1 by lra. lra.
Qed.

(** *** The two sums *)

Lemma foldl_indexed_sum (f : nat → Q → R) (l : list Q) (s : nat) (acc : R) :
  foldl (λ acc '(i, x), acc + f i x) acc (zip (seq s (length l)) l)
  = acc + indexed_sum f s l.
Proof.
  revert s acc. induction l as [|x l IH]; intros s acc; simpl; [lra|].
  rewrite IH. lra.
Qed.

Lemma calculate_dcg_sum (l : list Q) :
  calculate_dcg l
  = indexed_sum (λ i relevance,
      gain relevance / log2 (INR (length l - i) + 1)) 0 l.
Proof.
  unfold calculate_dcg. destruct l as [|x l]; [done|].
  unfold Py.enumerate.
  rewrite (foldl_indexed_sum (λ i relevance,
    gain relevance / log2 (INR (length (x :: l) - i) + 1))). lra.
Qed.

Lemma calculate_idcg_sum (l : list Q) :
  calculate_idcg l
  = indexed_sum (λ i relevance,
      gain relevance / log2 (INR (i + 1) + 1)) 0 (sorted_reverse l).
Proof.
  unfold calculate_idcg. destruct l as [|x l]; [done|].
  unfold Py.enumerate.
  rewrite (foldl_indexed_sum (λ i relevance,
    gain relevance / log2 (INR (i + 1) + 1))). lra.
Qed.

(** *** Sorting in reverse order *)

Lemma insert_reverse_Permutation x l : insert_reverse x l ≡ₚ x :: l.
Proof.
  induction l as [|y l IH]; simpl; [done|].
  destruct (Py.gt x y); [done|]. rewrite IH. apply Permutation_swap.
Qed.

Lemma insert_reverse_sorted x l :
  StronglySorted (λ a b, (b <= a)%Q) l →
  StronglySorted (λ a b, (b <= a)%Q) (insert_reverse x l).
Proof.
  induction 1 as [|y l Hsorted IH Hall]; simpl; [repeat constructor|].
  destruct (Py.gt x y) eqn:E.
  - apply gt_true in E. constructor; [by constructor|].
    constructor; [by apply Qlt_le_weak|].
    eapply Forall_impl; [exact Hall|]. intros z Hz. simpl in *.
    eapply Qle_trans; [exact Hz|]. by apply Qlt_le_weak.
  - apply gt_false in E. constructor; [done|].
    rewrite insert_reverse_Permutation. by constructor.
Qed.

Lemma sorted_reverse_from acc l :
  StronglySorted (λ a b, (b <= a)%Q) acc →
  foldl (λ sorted x, insert_reverse x sorted) acc l ≡ₚ acc ++ l ∧
  StronglySorted (λ a b, (b <= a)%Q)
    (foldl (λ sorted x, insert_reverse x sorted) acc l).
Proof.
  revert acc. induction l as [|x l IH]; intros acc Hacc; simpl.
  - by rewrite app_nil_r.
  - destruct (IH (insert_reverse x acc) (insert_reverse_sorted x acc Hacc))
      as [Hperm Hsorted].
    split; [|done]. rewrite Hperm, insert_reverse_Permutation.
    simpl. apply Permutation_middle.
Qed.

Lemma sorted_reverse_spec l :
  sorted_reverse l ≡ₚ l ∧ StronglySorted (λ a b, (b <= a)%Q) (sorted_reverse l).
Proof. apply (sorted_reverse_from [] l). constructor. Qed.

(** C2: on the relevance vector [[1,0,1]], DCG with the reversed
    positions is 1.5, IDCG on the vector sorted in descending order with
    the forward positions is [1/log2 2 + 1/log2 3], about 1.6309, and
    their quotient is about 0.9197.  In general DCG discounts entry [i]
    by [log2 ((N - i) + 1)] and IDCG discounts the [i]-th entry of the
    sorted vector by [log2 ((i + 1) + 1)]. *)
Theorem ndcg_scenario :
  calculate_dcg [1; 0; 1]%Q = 3 / 2 ∧
  sorted_reverse [1; 0; 1]%Q = [1; 1; 0]%Q ∧
  calculate_idcg [1; 0; 1]%Q = 1 / log2 2 + 1 / log2 3 ∧
  Rabs (calculate_idcg [1; 0; 1]%Q - 16309 / 10000) < 1 / 10000 ∧
  Rabs (calculate_dcg [1; 0; 1]%Q / calculate_idcg [1; 0; 1]%Q - 9197 / 10000)
    < 1 / 10000 ∧
  (∀ l, calculate_dcg l
        = indexed_sum (λ i relevance,
            gain relevance / log2 (INR (length l - i) + 1)) 0 l) ∧
  (∀ l, calculate_idcg l
        = indexed_sum (λ i relevance,
            gain relevance / log2 (INR (i + 1) + 1)) 0 (sorted_reverse l) ∧
        sorted_reverse l ≡ₚ l ∧
        StronglySorted (λ a b, (b <= a)%Q) (sorted_reverse l)).
Proof.
  assert (calculate_dcg [1; 0; 1]%Q = 3 / 2) as Hdcg.
  { rewrite calculate_dcg_sum. simpl indexed_sum. simpl length. simpl Nat.sub.
    rewrite (gain_1 1), (gain_0 0) by reflexivity.
    replace (1 + 1 + 1 + 1) with 4 by lra. replace (1 + 1) with 2 by lra.
    rewrite log2_4, log2_2. lra. }
  assert (calculate_idcg [1; 0; 1]%Q = 1 / log2 2 + 1 / log2 3) as Hidcg.
  { rewrite calculate_idcg_sum.
    change (sorted_reverse [1; 0; 1]%Q) with [1; 1; 0]%Q.
    simpl indexed_sum. simpl Nat.add.
    rewrite (gain_1 1), (gain_0 0) by reflexivity.
    replace (1 + 1 + 1 + 1) with 4 by lra. replace (1 + 1 + 1) with 3 by lra.
    replace (1 + 1) with 2 by lra. lra. }
  pose proof log2_3_bounds as [Hlow Hhigh].
  assert (0 < / log2 3) as Hinv by (apply Rinv_0_lt_compat; lra).
  assert (log2 3 * / log2 3 = 1) as Hone by (field; lra).
  assert (306 / 485 < / log2 3 < 53 / 84) as [Hx1 Hx2] by (split; nra).
  assert (calculate_idcg [1; 0; 1]%Q = 1 + / log2 3) as Hidcg'.
  { rewrite Hidcg, log2_2. lra. }
  split; [done|]. split; [done|]. split; [done|]. split; [|split; [|split]].
  - rewrite Hidcg'. apply Rabs_def1; lra.
  - rewrite Hdcg, Hidcg'.
    assert (0 < / (1 + / log2 3)) as Hz by (apply Rinv_0_lt_compat; lra).
    assert ((1 + / log2 3) * / (1 + / log2 3) = 1) as Hz1 by (field; lra).
    unfold Rdiv at 1. apply Rabs_def1; nra.
  - apply calculate_dcg_sum.
  - intros l. split; [apply calculate_idcg_sum | apply sorted_reverse_spec].
Qed.

(** *** Binary relevance *)

Definition binary (l : list Q) : Prop := Forall (λ r, r == 0 ∨ r == 1)%Q l.

(** The number of entries equal to 1. *)
Definition ones (l : list Q) : nat := length (filter (λ r, Qeq_bool r 1 = true) l).

(** The discount of position [p]. *)
Definition discount (p : nat) : R := 1 / log2 (INR p + 1).

(** The sum of the discounts of the positions [s+1 .. s+k]. *)
Fixpoint top_discounts (s k : nat) : R :=
  match k with
  | O => 0
  | S k' => discount (S s) + top_discounts (S s) k'
  end.

(** The sum of DCG, by recursion on the list: the head has the position
    [length l]. *)
Fixpoint reversed_sum (l : list Q) : R :=
  match l with
  | [] => 0
  | x :: l' => gain x / log2 (INR (length l) + 1) + reversed_sum l'
  end.

Lemma log2_position_pos p : 1 <= log2 (INR (S p) + 1).
Proof.
  apply log2_ge_1. pose proof (pos_INR p). rewrite S_INR. lra.
Qed.

Lemma discount_pos p : 0 < discount (S p).
Proof.
  unfold discount. pose proof (log2_position_pos p).
  apply Rdiv_lt_0_compat; lra.
Qed.

Lemma discount_decreasing p q : (p ≤ q)%nat → discount (S q) <= discount (S p).
Proof.
  intros Hpq. unfold discount.
  pose proof (log2_position_pos p). pose proof (log2_position_pos q).
  assert (log2 (INR (S p) + 1) <= log2 (INR (S q) + 1)) as Hle.
  { apply log2_increasing.
    - pose proof (pos_INR (S p)). lra.
    - apply le_INR in Hpq. rewrite !S_INR. lra. }
  unfold Rdiv. rewrite !Rmult_1_l. apply Rinv_le_contravar; lra.
Qed.

Lemma top_discounts_snoc s k :
  top_discounts s (S k) = top_discounts s k + discount (S (s + k)).
Proof.
  revert s. induction k as [|k IH]; intros s.
  - simpl. rewrite Nat.add_0_r. lra.
  - change (top_discounts s (S (S k)))
      with (discount (S s) + top_discounts (S s) (S k)).
    rewrite IH. simpl. replace (s + S k)%nat with (S (s + k)) by lia. lra.
Qed.

Lemma indexed_sum_reversed l n s :
  n = (s + length l)%nat →
  indexed_sum (λ i relevance, gain relevance / log2 (INR (n - i) + 1)) s l
  = reversed_sum l.
Proof.
  revert s. induction l as [|x l IH]; intros s Hn; [done|].
  simpl in *. rewrite IH by lia.
  replace (n - s)%nat with (S (length l)) by lia. done.
Qed.

Lemma ones_cons x l :
  ones (x :: l) = if Qeq_bool x 1 then S (ones l) else ones l.
Proof.
  unfold ones. destruct (Qeq_bool x 1) eqn:E.
  - by rewrite filter_cons_True.
  - rewrite filter_cons_False; [done | congruence].
Qed.

Lemma ones_le_length l : (ones l ≤ length l)%nat.
Proof. apply length_filter. Qed.

Lemma binary_cases x :
  (x == 0 ∨ x == 1)%Q →
  (gain x = 0 ∧ Qeq_bool x 1 = false) ∨ (gain x = 1 ∧ Qeq_bool x 1 = true).
Proof.
  intros [E|E].
  - left. split; [by apply gain_0|].
    destruct (Qeq_bool x 1) eqn:E1; [|done].
    apply Qeq_bool_iff in E1. rewrite E in E1. discriminate.
  - right. split; [by apply gain_1 | by apply Qeq_bool_iff].
Qed.

Lemma reversed_sum_bounds l :
  binary l → 0 <= reversed_sum l <= top_discounts 0 (ones l).
Proof.
  induction 1 as [|x l Hx Hl IH]; [simpl; lra|].
  rewrite ones_cons.
  change (reversed_sum (x :: l))
    with (gain x / log2 (INR (S (length l)) + 1) + reversed_sum l).
  destruct (binary_cases x Hx) as [[-> ->]|[-> ->]].
  - unfold Rdiv. rewrite Rmult_0_l. lra.
  - rewrite top_discounts_snoc.
    pose proof (discount_decreasing (ones l) (length l) (ones_le_length l)) as Hd.
    pose proof (discount_pos (length l)) as Hp.
    unfold discount in *. simpl Nat.add. lra.
Qed.

Lemma forward_sum_zero s l :
  Forall (λ r, r == 0)%Q l →
  indexed_sum (λ i relevance, gain relevance / log2 (INR (i + 1) + 1)) s l = 0
  ∧ ones l = 0%nat.
Proof.
  intros Hzero. revert s. induction Hzero as [|x l Hx Hl IH]; intros s; [done|].
  simpl. rewrite ones_cons.
  destruct (binary_cases x (or_introl Hx)) as [[-> ->]|[Hg _]].
  - destruct (IH (S s)) as [-> ->]. split; [|done].
    unfold Rdiv. rewrite Rmult_0_l. lra.
  - rewrite (gain_0 x Hx) in Hg. lra.
Qed.

Lemma forward_sum_sorted s l :
  binary l → StronglySorted (λ a b, (b <= a)%Q) l →
  indexed_sum (λ i relevance, gain relevance / log2 (INR (i + 1) + 1)) s l
  = top_discounts s (ones l).
Proof.
  intros Hb Hs. revert s. induction Hs as [|x l Hs IH Hall]; intros s; [done|].
  apply Forall_cons in Hb as [Hx Hb].
  destruct Hx as [Hx|Hx].
  - assert (Forall (λ r, r == 0)%Q (x :: l)) as Hzero.
    { constructor; [done|]. rewrite Forall_forall in Hall, Hb.
      apply Forall_forall. intros z Hz.
      destruct (Hb z Hz) as [?|E]; [done|].
      specialize (Hall z Hz). simpl in Hall. rewrite E, Hx in Hall.
      exfalso. by apply Hall. }
    by destruct (forward_sum_zero s (x :: l) Hzero) as [-> ->].
  - simpl. rewrite ones_cons.
    destruct (binary_cases x (or_intror Hx)) as [[Hg _]|[-> ->]].
    { rewrite (gain_1 x Hx) in Hg. lra. }
    rewrite (IH Hb (S s)). simpl. unfold discount.
    by replace (s + 1)%nat with (S s) by lia.
Qed.

Lemma calculate_dcg_bounds l :
  binary l → 0 <= calculate_dcg l <= calculate_idcg l.
Proof.
  intros Hb. destruct (sorted_reverse_spec l) as [Hperm Hsorted].
  rewrite calculate_dcg_sum, calculate_idcg_sum.
  rewrite indexed_sum_reversed by done.
  rewrite forward_sum_sorted; [| |done].
  - unfold ones. rewrite Hperm. apply reversed_sum_bounds, Hb.
  - unfold binary. by rewrite Hperm.
Qed.

End Gain.

Section NormalizedGain.
Context `{PyUnicode}.
Import BM25_evaluate NDCG_Metrics.
Local Open Scope R_scope.

Lemma relevance_scores_binary env retrieved reference :
  binary (calculate_relevance_scores env retrieved reference).
Proof.
  unfold calculate_relevance_scores.
  destruct retrieved as [|r retrieved']; [constructor|].
  destruct reference as [|f reference']; [constructor|].
  apply (foldl_invariant binary); [constructor|].
  intros scores chunk _ Hscores. apply Forall_app. split; [done|].
  apply Forall_singleton. destruct (Py.gt _ _); [by right | by left].
Qed.



End NormalizedGain.

(** *** The doubles of short vectors

    In doubles the two sums are compared by running them, on every
    vector of at most fourteen entries 0.0 and 1.0. *)

Section NormalizedGainDoubles.
Context `{PyUnicode}.
Import BM25_evaluate NDCG_Metrics.
Import PrimFloat.
Local Existing Instance Binary64.libm.








End NormalizedGainDoubles.

(** *** Concrete chunks *)

Section Examples.
Local Open Scope Q_scope.
Local Existing Instance Basic.unicode.

Lemma calculate_text_similarity_unit_interval_witness :
  app.calculate_text_similarity (9 # 10) (Py.str "!!!") (Py.str "abc") = 0 ∧
  text_similarity.calculate_text_similarity (Py.str "!!!") (Py.str "abc") = 0.
Proof.
  apply (calculate_text_similarity_unit_interval (9 # 10) (Py.str "!!!") (Py.str "abc")).
  right; right; left. reflexivity.
Defined.

Lemma identical_chunks_similarity_witness :
  (10 < length (app.clean_text (Py.str "abcdefghijk")))%nat ∧
  app.calculate_text_similarity (9 # 10)
    (Py.str "abcdefghijk") (Py.str "abcdefghijk") == 1.
Proof.
  split; [vm_compute; lia|].
  apply (identical_chunks_similarity (9 # 10) (Py.str "abcdefghijk")).
  vm_compute. lia.
Defined.

(** C6 as stated fails: an 11-character string that cleans to 10
    characters scores 0.95 against itself. *)
Lemma long_string_similarity_below_one :
  (10 < length (Py.str "abcdefghij!"))%nat ∧
  app.calculate_text_similarity (9 # 10)
    (Py.str "abcdefghij!") (Py.str "abcdefghij!") == 19 # 20 ∧
  ¬ app.calculate_text_similarity (9 # 10)
      (Py.str "abcdefghij!") (Py.str "abcdefghij!") == 1.
Proof.
  split; [vm_compute; lia|]. split.
  - vm_compute. reflexivity.
  - intros E. vm_compute in E. discriminate.
Qed.

(** C10 fails: two 12-character strings that share the run [abcde], at
    the start of one and at the end of the other.  With equal lengths the
    second argument is scanned as the shorter string, and the scan stops
    before its last five characters: the run is found in one order of
    the arguments only. *)
Theorem similarity_not_symmetric :
  app.calculate_text_similarity (9 # 10)
    (Py.str "abcde1234567") (Py.str "zyxwvutabcde") == 3 # 38 ∧
  app.calculate_text_similarity (9 # 10)
    (Py.str "zyxwvutabcde") (Py.str "abcde1234567") == 31 # 152 ∧
  ¬ app.calculate_text_similarity (9 # 10)
      (Py.str "abcde1234567") (Py.str "zyxwvutabcde") ==
    app.calculate_text_similarity (9 # 10)
      (Py.str "zyxwvutabcde") (Py.str "abcde1234567") ∧
  app.partial_match (Py.str "zyxwvutabcde") (Py.str "abcde1234567") = 0%nat ∧
  app.partial_match (Py.str "abcde1234567") (Py.str "zyxwvutabcde") = 5%nat ∧
  Py.slice (Py.str "zyxwvutabcde") 7 12 = Py.str "abcde" ∧
  Py.contains (Py.str "abcde") (Py.str "abcde1234567") = true.
Proof.
  split; [|split; [|split]].
  - vm_compute. reflexivity.
  - vm_compute. reflexivity.
  - intros E. vm_compute in E. discriminate.
  - by vm_compute.
Qed.

(** *** Concrete samples *)

Definition default_env : BM25_evaluate.Env :=
  {| BM25_evaluate.SIMILARITY_THRESHOLD := 1 # 2;
     BM25_evaluate.SEMANTIC_CONTAINMENT_THRESHOLD := 9 # 10 |}.

(** The same chunk retrieved twice, for one reference chunk. *)
Definition duplicated_sample : BM25_evaluate.row :=
  {| BM25_evaluate.user_input := Py.str "query";
     BM25_evaluate.retrieved_contexts := [Py.str "abcdefghijk"; Py.str "abcdefghijk"];
     BM25_evaluate.reference_contexts := [Py.str "abcdefghijk"] |}.

(** One of two reference chunks retrieved, and one of two retrieved
    chunks relevant. *)
Definition half_recalled_sample : BM25_evaluate.row :=
  {| BM25_evaluate.user_input := Py.str "query";
     BM25_evaluate.retrieved_contexts := [Py.str "abcdefghijk"];
     BM25_evaluate.reference_contexts := [Py.str "abcdefghijk"; Py.str "zzzzzzzzzzzz"] |}.

Definition half_precise_sample : BM25_evaluate.row :=
  {| BM25_evaluate.user_input := Py.str "query";
     BM25_evaluate.retrieved_contexts := [Py.str "abcdefghijk"; Py.str "zzzzzzzzzzzz"];
     BM25_evaluate.reference_contexts := [Py.str "abcdefghijk"] |}.

(** C1 as stated fails: with two copies of the reference chunk retrieved,
    precision is 1 and recall is 2. *)
Lemma recall_above_one :
  match BM25_evaluate.evaluate_row default_env 0 duplicated_sample with
  | Py.Ok (Some e) =>
      BM25_evaluate.precision (BM25_evaluate.row_detail e) == 1 ∧
      BM25_evaluate.recall (BM25_evaluate.row_detail e) == 2 ∧
      ¬ BM25_evaluate.recall (BM25_evaluate.row_detail e) <= 1
  | _ => False
  end.
Proof.
  vm_compute. repeat split. intros Hle. by apply Hle.
Qed.

Lemma precision_recall_bounds_witness :
  ∃ e,
    BM25_evaluate.evaluate_row default_env 0 duplicated_sample = Py.Ok (Some e) ∧
    0 <= BM25_evaluate.precision (BM25_evaluate.row_detail e) <= 1 ∧
    0 <= BM25_evaluate.recall (BM25_evaluate.row_detail e) <= 2.
Proof.
  destruct (precision_recall_bounds default_env 0 duplicated_sample)
    as (e & He & _ & _ & _ & _ & Hp & Hr & _); [done | done |].
  exists e. split; [exact He|]. split; [exact Hp|].
  destruct Hr as [Hr0 Hr1]. split; [exact Hr0|].
  eapply Qle_trans; [exact Hr1|]. vm_compute. discriminate.
Defined.

Lemma relevance_classification_witness :
  ∃ e,
    BM25_evaluate.evaluate_row default_env 0 half_precise_sample = Py.Ok (Some e) ∧
    (1%nat ∈ irrelevant_indices e ↔
     ∃ chunk m,
       BM25_evaluate.retrieved_contexts half_precise_sample !! 1%nat = Some chunk ∧
       is_max_of m
         (similarities_to_references default_env
            (BM25_evaluate.reference_contexts half_precise_sample) chunk) ∧
       m <= 1 # 2).
Proof.
  destruct (relevance_classification default_env 0 half_precise_sample)
    as (e & He & _ & Hirr & _); [done | done |].
  exists e. split; [exact He | exact (Hirr 1%nat)].
Defined.

(** C5 as stated fails: on two samples with precision and recall
    (1, 1/2) and (1/2, 1) both per-sample f1 values are 2/3, while the
    dataset-level f1 is 3/4. *)
Lemma dataset_f1_not_mean_of_f1 :
  match BM25_evaluate.evaluate_precision_recall default_env
          [half_recalled_sample; half_precise_sample] with
  | Py.Ok results =>
      let f1 := F1_Metrics.calculate_f1_scores_from_bm25_results results in
      BM25_evaluate.avg_f1 results == 3 # 4 ∧
      F1_Metrics.avg_f1 f1 == 3 # 4 ∧
      Py.mean (F1_Metrics.f1_scores f1) == 2 # 3 ∧
      ¬ BM25_evaluate.avg_f1 results == Py.mean (F1_Metrics.f1_scores f1) ∧
      ¬ F1_Metrics.avg_f1 f1 == Py.mean (F1_Metrics.f1_scores f1)
  | _ => False
  end.
Proof.
  vm_compute. repeat split; discriminate.
Qed.

(** *** Scenario: the relevance vector [[1,0,1]] *)


(** *** Scenario: position inversion

    Three retrieved chunks, of which only the last one matches the
    reference chunk: its reversed position is 1. *)

Definition chunk_A : list N := Py.str "abcdefghijk".
Definition chunk_B : list N := Py.str "zzzzzzzzzzzz".
Definition chunk_C : list N := Py.str "mnopqrstuvw".

Lemma query_qualifies_C : bm25_qualifies (Py.str "q") chunk_C.
Proof.
  exists 0%R.
  rewrite (is_chunk_relevant_score _ _ _ 0%R); [|done|done|by vm_compute].
  by rewrite bool_decide_eq_true_2 by lra.
Qed.

Lemma query_qualifies_A : bm25_qualifies (Py.str "q") chunk_A.
Proof.
  exists 0%R.
  rewrite (is_chunk_relevant_score _ _ _ 0%R); [|done|done|by vm_compute].
  by rewrite bool_decide_eq_true_2 by lra.
Qed.

(** With the reference chunk equal to the last retrieved chunk the
    reciprocal rank is 1; with the reference chunk equal to the first
    one it is 1/3. *)
Lemma reciprocal_rank_smallest_position_witness :
  (∃ rr,
     MRR_Metrics.calculate_reciprocal_rank default_env (Py.str "q")
       [chunk_A; chunk_B; chunk_C] [chunk_C] = Py.Ok rr ∧
     rr == 1) ∧
  (∃ rr,
     MRR_Metrics.calculate_reciprocal_rank default_env (Py.str "q")
       [chunk_A; chunk_B; chunk_C] [chunk_A] = Py.Ok rr ∧
     rr == 1 # 3).
Proof.
  split.
  - destruct (reciprocal_rank_smallest_position default_env (Py.str "q")
                [chunk_A; chunk_B; chunk_C] [chunk_C])
      as (rr & Hrr & _ & Hmin & _).
    exists rr. split; [exact Hrr|].
    assert (rank_candidate default_env (Py.str "q")
              [chunk_A; chunk_B; chunk_C] [chunk_C] 2) as Hlast.
    { exists chunk_C, chunk_C. split; [reflexivity|]. split; [left|].
      split; [exact query_qualifies_C | by vm_compute]. }
    destruct (Hmin 2%nat Hlast) as (i0 & (c & r & Hi0 & _) & Hle & Heq).
    specialize (Hle 2%nat Hlast). apply lookup_lt_Some in Hi0.
    simpl in Hi0, Hle, Heq.
    replace (3 - i0)%nat with 1%nat in Heq by lia. rewrite Heq. reflexivity.
  - destruct (reciprocal_rank_smallest_position default_env (Py.str "q")
                [chunk_A; chunk_B; chunk_C] [chunk_A])
      as (rr & Hrr & _ & Hmin & _).
    exists rr. split; [exact Hrr|].
    assert (rank_candidate default_env (Py.str "q")
              [chunk_A; chunk_B; chunk_C] [chunk_A] 0) as Hfirst.
    { exists chunk_A, chunk_A. split; [reflexivity|]. split; [left|].
      split; [exact query_qualifies_A | by vm_compute]. }
    destruct (Hmin 0%nat Hfirst)
      as (i0 & (c & r & Hi0 & Hr & _ & Hsim) & _ & Heq).
    apply list_elem_of_singleton in Hr. subst r. clear Hrr Hmin.
    destruct i0 as [|[|[|i0]]]; simpl in Hi0; try discriminate Hi0;
      injection Hi0 as <-.
    + rewrite Heq. reflexivity.
    + vm_compute in Hsim. discriminate Hsim.
    + vm_compute in Hsim. discriminate Hsim.
Defined.

End Examples.

Section DoublePrecision.
Import PrimFloat.
Local Existing Instance Basic.unicode.
Local Existing Instance Binary64.libm.

(** ** Scenario: fifteen relevant chunks, in doubles

    The same chunk retrieved fifteen times, for one reference chunk:
    every entry of the relevance vector is 1.0. *)




(** ** Scenario: precision and recall 0.95, in doubles

    The F1 score of two equal values is, in doubles, not always that
    value: for 0.95 it is 0.9500000000000001, above both. *)

Lemma f1_of_equal_values_in_doubles :
  Binary64.calculate_f1_score (Some 0x1.e666666666666p-1%float)
    (Some 0x1.e666666666666p-1%float) = 0x1.e666666666667p-1%float ∧
  ltb 0x1.e666666666666p-1
    (Binary64.calculate_f1_score (Some 0x1.e666666666666p-1%float)
       (Some 0x1.e666666666666p-1%float)) = true.
Proof.
  vm_compute. split; reflexivity.
Qed.

End DoublePrecision.

(** * Further properties

    Properties of the functions around the ones above: the tokenizer and
    the index, the ranking helpers, the similarity, and the loops of the
    evaluators. *)

(** ** The tokenizer, the index and the ranking of chunks *)
Section Ranking.
Context `{PyUnicode}.
Import BM25_evaluate.

Lemma tokenize_NoDup text : NoDup (_tokenize text).
Proof. destruct text; [constructor|]. apply NoDup_elements. Qed.

Lemma tokenize_nonempty text t : t ∈ _tokenize text → t ≠ [].
Proof.
  destruct text as [|c text]; [by intros ?%elem_of_nil|].
  unfold _tokenize. rewrite elem_of_elements, elem_of_list_to_set, list_elem_of_filter.
  intros [Hlen _] ->. simpl in Hlen. lia.
Qed.

Lemma tokenize_cjk text c :
  c ∈ lower text → Py.is_cjk c = true → [c] ∈ _tokenize text.
Proof.
  destruct text as [|c0 text]; [rewrite lower_nil; by intros ?%elem_of_nil|].
  intros Hin Hc.
  unfold _tokenize. rewrite elem_of_elements, elem_of_list_to_set, list_elem_of_filter.
  split; [simpl; lia|].
  apply elem_of_app. left. apply list_elem_of_fmap. exists c. split; [done|].
  apply list_elem_of_filter. split; [by rewrite Hc | done].
Qed.

Lemma Counter_snoc doc t :
  Counter (doc ++ [t]) = <[t := S (default 0%nat (Counter doc !! t))]> (Counter doc).
Proof. unfold Counter. by rewrite foldl_snoc. Qed.

Lemma Counter_NoDup doc t :
  NoDup doc → Counter doc !! t = if decide (t ∈ doc) then Some 1%nat else None.
Proof.
  induction doc as [|x doc IH] using rev_ind; intros Hnd.
  - rewrite decide_False by apply not_elem_of_nil. done.
  - apply NoDup_app in Hnd as (Hnd & Hx & _).
    rewrite Counter_snoc. specialize (IH Hnd).
    destruct (decide (x = t)) as [->|Hne].
    + rewrite lookup_insert_eq. rewrite IH.
      rewrite decide_False by (intros Hin; apply (Hx t Hin); by left).
      rewrite decide_True by (apply elem_of_app; right; by left). done.
    + rewrite lookup_insert_ne by done. rewrite IH.
      destruct (decide (t ∈ doc)) as [Hin|Hnin].
      * rewrite decide_True by (apply elem_of_app; by left). done.
      * rewrite decide_False; [done|]. intros [?|Hs%list_elem_of_singleton]%elem_of_app; by auto.
Qed.


Lemma sum_nat_from (a : nat) (l : list nat) :
  foldl Nat.add a l = (a + foldl Nat.add 0 l)%nat.
Proof.
  revert a. induction l as [|x l IH]; intros a; simpl; [lia|].
  rewrite (IH (a + x)%nat), (IH x). lia.
Qed.

Lemma sum_nat_ge (l : list nat) (x : nat) :
  x ∈ l → (x ≤ foldl Nat.add 0 l)%nat.
Proof.
  induction l as [|y l IH]; [by intros ?%elem_of_nil|].
  simpl. rewrite sum_nat_from. intros [->|Hin]%elem_of_cons; [lia|].
  specialize (IH Hin). lia.
Qed.

(** The fields of a fitted index, for a document of the corpus. *)
Lemma fit_lookup self corpus i doc :
  corpus !! i = Some doc →
  doc_freqs (fit self corpus) !! i = Some (Counter (_tokenize doc)) ∧
  doc_len (fit self corpus) !! i = Some (length (_tokenize doc)) ∧
  (length (_tokenize doc) ≤ foldl Nat.add 0%nat (doc_len (fit self corpus)))%nat ∧
  avgdl (fit self corpus)
    = (INR (foldl Nat.add 0%nat (doc_len (fit self corpus))) / INR (length corpus))%R.
Proof.
  intros Hi. cbn [doc_freqs doc_len avgdl fit].
  rewrite !list_lookup_fmap, Hi. simpl. split; [done|]. split; [done|]. split.
  - apply sum_nat_ge. apply list_elem_of_fmap. exists (_tokenize doc). split; [done|].
    apply list_elem_of_fmap. exists doc. split; [done|]. by eapply list_elem_of_lookup_2.
  - rewrite !length_fmap.
    assert ((0 <? length corpus)%nat = true) as ->; [|done].
    apply Nat.ltb_lt. apply lookup_lt_Some in Hi. lia.
Qed.

(** One turn of the loop of [score] never divides by zero: a token of the
    document makes the corpus non-empty in tokens, and its frequency is
    at least 1. *)
Lemma score_fit_ok self corpus query (i : nat) :
  (0 <= k1 self)%R → (0 <= b self <= 1)%R → (i < length corpus)%nat →
  ∃ s, score (fit self corpus) query (Z.of_nat i) = Py.Ok s.
Proof.
  intros Hk Hb Hi.
  destruct (lookup_lt_is_Some_2 corpus i Hi) as [doc Hdoc].
  destruct (fit_lookup self corpus i doc Hdoc) as (Hfreq & Hlen & Hsum & Havg).
  unfold score. rewrite fit_corpus_length.
  assert ((Z.of_nat (length corpus) <=? Z.of_nat i)%Z = false) as ->
    by (apply Z.leb_gt; lia).
  rewrite (getitem_lookup _ _ _ Hfreq), bind_ok.
  rewrite (getitem_lookup _ _ _ Hlen), bind_ok.
  unfold Py.for_.
  apply (foldl_invariant (λ acc : Py.result R, ∃ s, acc = Py.Ok s)); [by eexists|].
  intros acc token _ [s ->]. rewrite bind_ok.
  destruct (Counter (_tokenize doc) !! token) as [tf|] eqn:Htf; [|by eexists].
  rewrite Counter_NoDup in Htf by apply tokenize_NoDup.
  destruct (decide (token ∈ _tokenize doc)) as [Hin|]; [|done].
  injection Htf as <-.
  assert (1 <= INR (length (_tokenize doc)))%R as Hdl.
  { change 1%R with (INR 1). apply le_INR.
    destruct (_tokenize doc); [by apply elem_of_nil in Hin | simpl; lia]. }
  assert (INR (length (_tokenize doc))
          <= INR (foldl Nat.add 0%nat (doc_len (fit self corpus))))%R as Hs
    by (by apply le_INR).
  assert (1 <= INR (length corpus))%R as Hn.
  { change 1%R with (INR 1). apply le_INR. lia. }
  set (total := INR (foldl Nat.add 0%nat (doc_len (fit self corpus)))) in *.
  set (dl := INR (length (_tokenize doc))) in *.
  set (n := INR (length corpus)) in *.
  assert (0 < total / n)%R as Havg_pos by (apply Rdiv_lt_0_compat; lra).
  unfold Py.rtruediv. rewrite Havg.
  destruct (Req_dec_T (total / n) 0) as [E|_]; [lra|]. rewrite bind_ok.
  assert (0 < dl / (total / n))%R as Hratio by (apply Rdiv_lt_0_compat; lra).
  cbn [k1 b fit].
  destruct (Req_dec_T _ 0) as [E|_]; [exfalso|by eexists].
  change (INR 1) with 1%R in E.
  assert (0 <= b self * (dl / (total / n)))%R by (apply Rmult_le_pos; lra).
  assert (0 <= k1 self * (1 - b self + b self * (dl / (total / n))))%R
    by (apply Rmult_le_pos; lra).
  lra.
Qed.

Lemma get_scores_prefix self corpus query (k : nat) :
  (0 <= k1 self)%R → (0 <= b self <= 1)%R → (k ≤ length corpus)%nat →
  ∃ scores,
    Py.for_ (Py.range 0 k) [] (λ scores i,
      s ← score (fit self corpus) query (Z.of_nat i); Py.Ok (scores ++ [s]))
    = Py.Ok scores ∧
    length scores = k ∧
    ∀ i s, scores !! i = Some s →
      score (fit self corpus) query (Z.of_nat i) = Py.Ok s.
Proof.
  intros Hk Hb. induction k as [|k IH]; intros Hle.
  - exists []. split; [done|]. split; [done|]. intros i s Hs. done.
  - destruct (IH ltac:(lia)) as (scores & Hloop & Hlen & Hscores).
    destruct (score_fit_ok self corpus query k Hk Hb ltac:(lia)) as [s Hs].
    exists (scores ++ [s]). rewrite range_S, for_snoc, Hloop, bind_ok, Hs, bind_ok.
    split; [done|]. split; [rewrite length_app; simpl; lia|].
    intros i s' Hi.
    destruct (decide (i < length scores)%nat) as [Hlt|Hge].
    + rewrite lookup_app_l in Hi by done. by apply Hscores.
    + rewrite lookup_app_r in Hi by lia.
      destruct (i - length scores)%nat eqn:E; simpl in Hi; [|done].
      injection Hi as <-. assert (i = k) as -> by lia. done.
Qed.

Lemma get_scores_fit_ok self corpus query :
  (0 <= k1 self)%R → (0 <= b self <= 1)%R →
  ∃ scores,
    get_scores (fit self corpus) query = Py.Ok scores ∧
    length scores = length corpus ∧
    ∀ i s, scores !! i = Some s →
      score (fit self corpus) query (Z.of_nat i) = Py.Ok s.
Proof.
  intros Hk Hb. unfold get_scores.
  assert (corpus_size (fit self corpus) = length corpus) as ->
    by (cbn [corpus_size fit]; by rewrite length_fmap).
  by apply get_scores_prefix.
Qed.

(** A document that shares no token with the query adds nothing to the
    sum. *)
Lemma score_no_shared_token self corpus query (i : nat) doc :
  corpus !! i = Some doc →
  (∀ t, t ∈ _tokenize query → t ∉ _tokenize doc) →
  score (fit self corpus) query (Z.of_nat i) = Py.Ok 0%R.
Proof.
  intros Hdoc Hno.
  destruct (fit_lookup self corpus i doc Hdoc) as (Hfreq & Hlen & _ & _).
  unfold score. rewrite fit_corpus_length.
  assert ((Z.of_nat (length corpus) <=? Z.of_nat i)%Z = false) as ->.
  { apply Z.leb_gt. apply lookup_lt_Some in Hdoc. lia. }
  rewrite (getitem_lookup _ _ _ Hfreq), bind_ok.
  rewrite (getitem_lookup _ _ _ Hlen), bind_ok.
  unfold Py.for_.
  apply (foldl_invariant (λ acc : Py.result R, acc = Py.Ok 0%R)); [done|].
  intros acc token Hin ->. rewrite bind_ok.
  rewrite Counter_NoDup by apply tokenize_NoDup.
  rewrite decide_False by (by apply Hno). done.
Qed.

(** *** Document frequencies *)

Lemma Counter_is_Some doc w : is_Some (Counter doc !! w) ↔ w ∈ doc.
Proof.
  induction doc as [|x doc IH] using rev_ind.
  - unfold Counter. simpl. rewrite lookup_empty. split.
    + by intros [? ?].
    + by intros ?%elem_of_nil.
  - rewrite Counter_snoc, elem_of_app, list_elem_of_singleton.
    destruct (decide (x = w)) as [->|Hne].
    + rewrite lookup_insert_eq. split; [by right | by eexists].
    + rewrite lookup_insert_ne by done. rewrite IH. split; [by left|].
      intros [?|?]; [done | congruence].
Qed.

(** The loop [for word in frequencies: df[word] = df.get(word, 0) + 1]. *)
Lemma df_words (df : gmap (list N) nat) (words : list (list N)) (w : list N) :
  NoDup words →
  foldl (λ df word, <[word := (default 0%nat (df !! word) + 1)%nat]> df) df words !! w
  = if decide (w ∈ words) then Some (default 0%nat (df !! w) + 1)%nat else df !! w.
Proof.
  revert df. induction words as [|x words IH]; intros df Hnd.
  - by destruct (decide (w ∈ [])) as [?%elem_of_nil|].
  - simpl foldl. apply NoDup_cons in Hnd as [Hx Hnd]. rewrite (IH _ Hnd).
    destruct (decide (w ∈ words)) as [Hin|Hnin].
    + rewrite decide_True by (by right).
      rewrite lookup_insert_ne by (intros ->; done). done.
    + destruct (decide (x = w)) as [->|Hne].
      * rewrite lookup_insert_eq. by rewrite decide_True by (by left).
      * rewrite lookup_insert_ne by done.
        rewrite decide_False; [done|]. intros [?|?]%elem_of_cons; by auto.
Qed.

Lemma df_lookup (docs : list (list (list N))) (w : list N) :
  foldl (λ df frequencies,
    foldl (λ df word, <[word := (default 0%nat (df !! word) + 1)%nat]> df)
      df (elements (dom frequencies)))
    (∅ : gmap (list N) nat) (Counter <$> docs) !! w
  = match length (filter (λ doc, w ∈ doc) docs) with
    | O => None
    | S f => Some (S f)
    end.
Proof.
  induction docs as [|doc docs IH] using rev_ind; [done|].
  rewrite fmap_app, foldl_app. simpl. rewrite df_words by apply NoDup_elements.
  rewrite IH, filter_app, length_app.
  destruct (decide (w ∈ elements (dom (Counter doc)))) as [Hin|Hnin].
  - rewrite elem_of_elements, elem_of_dom, Counter_is_Some in Hin.
    rewrite (filter_cons_True _ doc []) by done. simpl.
    destruct (length (filter _ docs)); simpl; f_equal; lia.
  - rewrite elem_of_elements, elem_of_dom, Counter_is_Some in Hnin.
    rewrite (filter_cons_False _ doc []) by done. simpl.
    by rewrite Nat.add_0_r.
Qed.

Lemma filter_fmap_length {A B} (f : A → B) (P : B → Prop) `{!∀ x, Decision (P x)}
    (l : list A) :
  length (filter P (f <$> l)) = length (filter (λ x, P (f x)) l).
Proof.
  induction l as [|x l IH]; [done|]. rewrite fmap_cons.
  destruct (decide (P (f x))) as [Hp|Hp].
  - rewrite !filter_cons_True by done. simpl. by rewrite IH.
  - rewrite !filter_cons_False by done. done.
Qed.

(** The number of documents of the corpus in which the token [w] occurs. *)
Definition document_frequency (corpus : list (list N)) (w : list N) : nat :=
  length (filter (λ doc, w ∈ _tokenize doc) corpus).

(** The argument of [math.log] in [fit], for a token of frequency [f] in a
    corpus of [n] documents. *)
Definition idf_argument (n f : nat) : R :=
  ((INR n - INR f + 5 / 10) / (INR f + 5 / 10))%R.

Lemma fit_idf_lookup self corpus w :
  idf (fit self corpus) !! w =
  match document_frequency corpus w with
  | O => idf self !! w
  | S f => Some (ln (idf_argument (length corpus) (S f)))
  end.
Proof.
  cbn [idf fit]. rewrite lookup_union, lookup_fmap, df_lookup.
  rewrite filter_fmap_length, length_fmap. unfold document_frequency.
  destruct (length (filter _ corpus)) as [|f]; simpl.
  - by destruct (idf self !! w).
  - by destruct (idf self !! w).
Qed.

Lemma idf_argument_pos n f : (f ≤ n)%nat → (0 < idf_argument n f)%R.
Proof.
  intros Hle. unfold idf_argument. apply le_INR in Hle.
  pose proof (pos_INR f). apply Rdiv_lt_0_compat; lra.
Qed.

(** X2: the idf of a token is the logarithm of a positive number, computed
    from the number of documents that contain the token; it is negative
    exactly for a token of more than half of the documents.  A token of
    no document keeps the entry that the index had before [fit]. *)
Theorem idf_of_document_frequency self corpus w :
  (document_frequency corpus w ≤ length corpus)%nat ∧
  (0 < idf_argument (length corpus) (document_frequency corpus w))%R ∧
  idf (fit self corpus) !! w
    = (if decide (document_frequency corpus w = 0%nat) then idf self !! w
       else Some (ln (idf_argument (length corpus) (document_frequency corpus w)))) ∧
  ((length corpus < 2 * document_frequency corpus w)%nat ↔
   (ln (idf_argument (length corpus) (document_frequency corpus w)) < 0)%R).
Proof.
  assert (document_frequency corpus w ≤ length corpus)%nat as Hle
    by apply length_filter.
  pose proof (idf_argument_pos _ _ Hle) as Hpos.
  split; [done|]. split; [done|]. split.
  - rewrite fit_idf_lookup. by destruct (document_frequency corpus w).
  - set (f := document_frequency corpus w) in *. set (n := length corpus) in *.
    assert ((idf_argument n f < 1)%R ↔ (n < 2 * f)%nat) as Hlt.
    { unfold idf_argument. pose proof (pos_INR f).
      split.
      - intros Hr. apply INR_lt. rewrite mult_INR. simpl.
        apply (Rmult_lt_compat_r (INR f + 5 / 10)) in Hr; [|lra].
        unfold Rdiv in Hr. rewrite Rmult_assoc, Rinv_l in Hr by lra. lra.
      - intros Hn. apply lt_INR in Hn. rewrite mult_INR in Hn. simpl in Hn.
        apply (Rmult_lt_reg_r (INR f + 5 / 10)); [lra|].
        unfold Rdiv. rewrite Rmult_assoc, Rinv_l by lra. lra. }
    rewrite <- Hlt. rewrite <- ln_1. split.
    + intros Hr. by apply ln_increasing.
    + intros Hl. destruct (Rlt_or_le (idf_argument n f) 1) as [|Hge]; [done|].
      exfalso. destruct Hge as [Hgt|Heq].
      * apply ln_increasing in Hgt; lra.
      * rewrite <- Heq in Hl. lra.
Qed.

(** *** The index of one document *)

(** The number of tokens of the query that are tokens of the chunk. *)
Definition shared_tokens (query chunk : list N) : nat :=
  length (filter (λ t, t ∈ _tokenize chunk) (_tokenize query)).

Lemma ln_3_bounds : (1 <= ln 3 ∧ 9 * ln 3 < 10)%R.
Proof.
  split.
  - rewrite <- (ln_exp 1). destruct exp_le_3 as [Hlt|Heq].
    + left. apply ln_increasing; [apply exp_pos | done].
    + right. by rewrite Heq.
  - assert (9 * ln 3 + 640 * ln 64 < 640 * ln 65)%R as Hpow.
    { change 9%R with (IZR (Z.of_nat 9)). change 640%R with (IZR (Z.of_nat 640)).
      rewrite <- !INR_IZR_INZ, <- !ln_pow by lra.
      rewrite <- ln_mult by (apply pow_lt; lra).
      apply ln_increasing; [apply Rmult_lt_0_compat; apply pow_lt; lra|].
      rewrite !pow_IZR, <- mult_IZR. apply IZR_lt. by vm_compute. }
    assert (ln 65 < ln 64 + 1 / 64)%R as Hstep.
    { replace 65%R with (64 * (1 + 1 / 64))%R by lra.
      rewrite ln_mult by lra.
      assert (ln (1 + 1 / 64) < 1 / 64)%R; [|lra].
      rewrite <- (ln_exp (1 / 64)) at 2.
      apply ln_increasing; [lra|]. apply exp_ineq1. lra. }
    lra.
Qed.

Lemma getitem_first {A} (l : list A) (x : A) :
  l !! 0%nat = Some x → Py.getitem l 0 = Py.Ok x.
Proof. apply (getitem_lookup l 0). Qed.

Lemma idf_argument_single : ln (idf_argument 1 1) = (- ln 3)%R.
Proof.
  unfold idf_argument. simpl.
  replace ((1 - 1 + 5 / 10) / (1 + 5 / 10))%R with (/ 3)%R by lra.
  apply ln_Rinv. lra.
Qed.

(** On the index of one document every token has frequency 1 and the
    idf [ln (0.5 / 1.5)], and the length normalisation is 1: each token
    that the query shares with the chunk adds [- ln 3]. *)
Lemma score_single_document_value chunk query :
  score (fit new [chunk]) query 0
  = Py.Ok (- INR (shared_tokens query chunk) * ln 3)%R.
Proof.
  destruct (fit_lookup new [chunk] 0 chunk eq_refl) as (Hfreq & Hlen & _ & Havg).
  unfold score, shared_tokens. rewrite fit_corpus_length.
  change (Z.of_nat (length [chunk]) <=? 0)%Z with false. cbv iota.
  rewrite (getitem_first _ _ Hfreq), bind_ok.
  rewrite (getitem_first _ _ Hlen), bind_ok.
  set (tokens := _tokenize chunk) in *.
  set (dl := INR (length tokens)).
  assert (avgdl (fit new [chunk]) = dl) as Havg'.
  { rewrite Havg. simpl. fold tokens. fold dl. lra. }
  match goal with |- Py.for_ _ _ ?f = _ => set (body := f) end.
  assert (∀ acc token,
            body acc token
            = Py.Ok (if decide (token ∈ tokens) then acc - ln 3 else acc)%R) as Hbody.
  { intros acc token. unfold body.
    rewrite (Counter_NoDup tokens token) by apply tokenize_NoDup.
    destruct (decide (token ∈ tokens)) as [Hin|Hnin]; [|done].
    rewrite fit_idf_lookup.
    assert (document_frequency [chunk] token = 1%nat) as ->.
    { unfold document_frequency. by rewrite (filter_cons_True _ chunk []). }
    change (length [chunk]) with 1%nat. rewrite Havg', idf_argument_single.
    change (k1 (fit new [chunk])) with (15 / 10)%R.
    change (b (fit new [chunk])) with (75 / 100)%R.
    cbn [from_option id]. change (INR 1) with 1%R.
    assert (1 <= dl)%R as Hdl.
    { change 1%R with (INR 1). apply le_INR.
      destruct tokens; [by apply elem_of_nil in Hin | simpl; lia]. }
    unfold Py.rtruediv.
    destruct (Req_dec_T dl 0) as [E|_]; [lra|].
    rewrite bind_ok.
    assert (dl / dl = 1)%R as -> by (field; lra).
    destruct (Req_dec_T _ 0) as [E|_]; [lra|].
    rewrite bind_ok. f_equal. unfold Datatypes.id. lra. }
  clearbody body.
  enough (∀ l acc, Py.for_ l acc body
            = Py.Ok (acc - INR (length (filter (λ t, t ∈ tokens) l)) * ln 3)%R) as Hloop.
  { rewrite Hloop. f_equal. lra. }
  induction l as [|token l IH]; intros acc.
  - rewrite for_nil. f_equal. simpl. lra.
  - rewrite for_cons, Hbody, bind_ok, IH. f_equal.
    destruct (decide (token ∈ tokens)) as [Hin|Hnin].
    + rewrite filter_cons_True by done.
      change (length (token :: filter (λ t, t ∈ tokens) l))
        with (S (length (filter (λ t, t ∈ tokens) l))).
      rewrite S_INR. lra.
    + by rewrite filter_cons_False by done.
Qed.

(** X4: for a query and a chunk that are not empty, the BM25 score that
    [is_chunk_relevant] computes is [- k * ln 3], where [k] is the number
    of tokens of the query that are tokens of the chunk; so with the
    threshold -10 of the ranking evaluators the chunk passes exactly when
    it shares at most nine tokens with the query. *)
Theorem bm25_filter_shared_tokens query chunk :
  query ≠ [] → chunk ≠ [] →
  is_chunk_relevant query chunk (-10)
  = Py.Ok (bool_decide (shared_tokens query chunk ≤ 9)%nat,
           (- INR (shared_tokens query chunk) * ln 3)%R).
Proof.
  intros Hq Hc.
  rewrite (is_chunk_relevant_score query chunk (-10) _ Hq Hc
             (score_single_document_value chunk query)).
  f_equal. f_equal. apply bool_decide_ext.
  destruct ln_3_bounds as [Hlow Hhigh].
  generalize (shared_tokens query chunk). intros k.
  split.
  - intros Hlt. destruct (decide (k ≤ 9)%nat) as [|Hgt]; [done|]. exfalso.
    assert (10 ≤ k)%nat as Hk by lia.
    apply le_INR in Hk. rewrite (INR_IZR_INZ 10) in Hk.
    change (IZR (Z.of_nat 10)) with 10%R in Hk. nra.
  - intros Hle. apply le_INR in Hle. rewrite (INR_IZR_INZ 9) in Hle.
    change (IZR (Z.of_nat 9)) with 9%R in Hle.
    pose proof (pos_INR k). nra.
Qed.

(** *** Ranking the chunks of a corpus *)

Lemma insert_by_score_Permutation x l : insert_by_score x l ≡ₚ x :: l.
Proof.
  induction l as [|y l IH]; simpl; [done|].
  destruct (bool_decide (y.2 < x.2)%R); [done|].
  rewrite IH. apply Permutation_swap.
Qed.

Lemma insert_by_score_sorted x l :
  StronglySorted (λ a b : list N * R, (b.2 <= a.2)%R) l →
  StronglySorted (λ a b : list N * R, (b.2 <= a.2)%R) (insert_by_score x l).
Proof.
  induction 1 as [|y l Hs IH Hy]; simpl; [by repeat constructor|].
  destruct (bool_decide (y.2 < x.2)%R) eqn:E.
  - apply bool_decide_eq_true in E. constructor; [by constructor|].
    constructor; [lra|]. eapply Forall_impl; [exact Hy|]. simpl. intros z Hz. lra.
  - apply bool_decide_eq_false in E. constructor; [done|].
    rewrite insert_by_score_Permutation. constructor; [lra | done].
Qed.

Lemma sort_by_score_spec l :
  sort_by_score l ≡ₚ l ∧
  StronglySorted (λ a b : list N * R, (b.2 <= a.2)%R) (sort_by_score l).
Proof.
  unfold sort_by_score. induction l as [|x l [IHp IHs]] using rev_ind.
  - split; [done | constructor].
  - rewrite foldl_snoc. split.
    + rewrite insert_by_score_Permutation, IHp. apply Permutation_cons_append.
    + by apply insert_by_score_sorted.
Qed.

Lemma StronglySorted_filter {A} (R : relation A) (P : A → Prop)
    `{!∀ x, Decision (P x)} (l : list A) :
  StronglySorted R l → StronglySorted R (filter P l).
Proof.
  induction 1 as [|x l Hs IH Hx]; [constructor|].
  destruct (decide (P x)).
  - rewrite filter_cons_True by done. constructor; [done|].
    apply Forall_forall. intros y [_ Hy]%list_elem_of_filter.
    rewrite Forall_forall in Hx. by apply Hx.
  - by rewrite filter_cons_False by done.
Qed.

Lemma StronglySorted_take {A} (R : relation A) (n : nat) (l : list A) :
  StronglySorted R l → StronglySorted R (take n l).
Proof.
  intros Hs. revert n. induction Hs as [|x l Hs IH Hx]; intros [|n]; simpl;
    try constructor; [apply IH | by apply Forall_take].
Qed.

Lemma slice_to_take {A} (l : list A) (m : Z) : ∃ n, Py.slice_to l m = take n l.
Proof. unfold Py.slice_to. destruct (m <? 0)%Z; by eexists. Qed.

(** The list comprehension [[(chunks[i], scores[i]) for i in range(len(chunks))]]. *)
Lemma pairs_loop (chunks : list (list N)) (scores : list R) (k : nat) :
  (k ≤ length chunks)%nat → (k ≤ length scores)%nat →
  Py.for_ (Py.range 0 k) [] (λ chunk_scores i,
    chunk ← Py.getitem chunks (Z.of_nat i);
    score ← Py.getitem scores (Z.of_nat i);
    Py.Ok (chunk_scores ++ [(chunk, score)]))
  = Py.Ok (zip (take k chunks) (take k scores)).
Proof.
  induction k as [|k IH]; intros Hc Hs; [done|].
  destruct (lookup_lt_is_Some_2 chunks k ltac:(lia)) as [chunk Hchunk].
  destruct (lookup_lt_is_Some_2 scores k ltac:(lia)) as [s Hscore].
  rewrite range_S, for_snoc, IH, bind_ok by lia.
  rewrite (getitem_lookup _ _ _ Hchunk), bind_ok.
  rewrite (getitem_lookup _ _ _ Hscore), bind_ok.
  rewrite (take_S_r _ _ _ Hchunk), (take_S_r _ _ _ Hscore).
  rewrite zip_with_app; [done|]. rewrite !length_take. lia.
Qed.

Lemma find_relevant_chunks_unfold query chunks max_chunks threshold :
  chunks ≠ [] → query ≠ [] →
  find_relevant_chunks query chunks max_chunks threshold =
  (scores ← get_scores (fit new chunks) query;
   chunk_scores ← Py.for_ (Py.range 0 (length chunks)) [] (λ chunk_scores i,
     chunk ← Py.getitem chunks (Z.of_nat i);
     score ← Py.getitem scores (Z.of_nat i);
     Py.Ok (chunk_scores ++ [(chunk, score)]));
   Py.Ok (Py.slice_to
            (filter (λ chunk_score, (threshold < chunk_score.2)%R)
               (sort_by_score chunk_scores)) max_chunks)).
Proof. intros Hc Hq. destruct chunks; [done|]. by destruct query. Qed.

Lemma new_parameters : (0 <= k1 new)%R ∧ (0 <= b new <= 1)%R.
Proof. simpl. lra. Qed.

Lemma find_relevant_chunks_ok query chunks max_chunks threshold :
  chunks ≠ [] → query ≠ [] →
  ∃ scores,
    get_scores (fit new chunks) query = Py.Ok scores ∧
    length scores = length chunks ∧
    (∀ i s, scores !! i = Some s →
       score (fit new chunks) query (Z.of_nat i) = Py.Ok s) ∧
    find_relevant_chunks query chunks max_chunks threshold
    = Py.Ok (Py.slice_to
               (filter (λ chunk_score, (threshold < chunk_score.2)%R)
                  (sort_by_score (zip chunks scores))) max_chunks).
Proof.
  intros Hc Hq. destruct new_parameters as [Hk Hb].
  destruct (get_scores_fit_ok new chunks query Hk Hb) as (scores & Hs & Hlen & Hsc).
  exists scores. split; [done|]. split; [done|]. split; [done|].
  rewrite find_relevant_chunks_unfold, Hs, bind_ok by done.
  rewrite pairs_loop, bind_ok by lia.
  by rewrite <- Hlen at 2; rewrite !firstn_all.
Qed.

Lemma elem_of_zip_lookup {A B} (l : list A) (k : list B) (x : A) (y : B) :
  (x, y) ∈ zip l k → ∃ i, l !! i = Some x ∧ k !! i = Some y.
Proof.
  intros [i Hi]%list_elem_of_lookup_1. exists i.
  rewrite lookup_zip_with in Hi.
  destruct (l !! i) as [x'|]; [|done]. simpl in Hi.
  destruct (k !! i) as [y'|]; [|done]. simpl in Hi. by injection Hi as -> ->.
Qed.

(** X1: the tokens of a text are distinct and none is empty; every CJK
    character of the lowercased text is a token on its own; and, the
    tokens of a document being distinct, every term frequency that [fit]
    records is 1. *)
Theorem tokenize_distinct_nonempty (text : list N) :
  NoDup (_tokenize text) ∧
  Forall (λ t, t ≠ []) (_tokenize text) ∧
  (∀ c, c ∈ lower text → Py.is_cjk c = true → [c] ∈ _tokenize text) ∧
  (∀ self corpus i frequencies t tf,
     doc_freqs (fit self corpus) !! i = Some frequencies →
     frequencies !! t = Some tf → tf = 1%nat).
Proof.
  split; [apply tokenize_NoDup|]. split.
  { apply Forall_forall. intros t. apply tokenize_nonempty. }
  split; [apply tokenize_cjk|].
  intros self corpus i frequencies t tf Hi Ht.
  cbn [doc_freqs fit] in Hi. rewrite !list_lookup_fmap in Hi.
  destruct (corpus !! i) as [doc|]; [|done]. simpl in Hi. injection Hi as <-.
  rewrite Counter_NoDup in Ht by apply tokenize_NoDup.
  destruct (decide (t ∈ _tokenize doc)); congruence.
Qed.

(** X3: on an index fitted with [k1 >= 0] and [0 <= b <= 1], as the
    default one is, [get_scores] raises no exception and returns one
    score per document, the score that [score] gives for it; a document
    that shares no token with the query scores 0. *)
Theorem get_scores_after_fit self corpus query :
  (0 <= k1 self)%R → (0 <= b self <= 1)%R →
  ∃ scores,
    get_scores (fit self corpus) query = Py.Ok scores ∧
    length scores = length corpus ∧
    (∀ i s, scores !! i = Some s →
       score (fit self corpus) query (Z.of_nat i) = Py.Ok s) ∧
    (∀ i doc, corpus !! i = Some doc →
       (∀ t, t ∈ _tokenize query → t ∉ _tokenize doc) →
       scores !! i = Some 0%R).
Proof.
  intros Hk Hb.
  destruct (get_scores_fit_ok self corpus query Hk Hb) as (scores & Hs & Hlen & Hsc).
  exists scores. split; [done|]. split; [done|]. split; [done|].
  intros i doc Hdoc Hno.
  destruct (lookup_lt_is_Some_2 scores i) as [s Hi].
  { rewrite Hlen. by eapply lookup_lt_Some. }
  pose proof (Hsc i s Hi) as Hscore.
  rewrite (score_no_shared_token self corpus query i doc Hdoc Hno) in Hscore.
  by injection Hscore as <-.
Qed.

(** X5: [find_relevant_chunks] raises no exception; what it returns is
    sorted by decreasing score, every entry is a chunk of the input with
    the score of its document, above the threshold; there are at most
    [max_chunks] entries when that is not negative; and an empty query or
    an empty list of chunks gives the empty list. *)
Theorem find_relevant_chunks_ranked query chunks max_chunks threshold :
  ∃ ranked,
    find_relevant_chunks query chunks max_chunks threshold = Py.Ok ranked ∧
    StronglySorted (λ a b : list N * R, (b.2 <= a.2)%R) ranked ∧
    (∀ chunk s, (chunk, s) ∈ ranked →
       (threshold < s)%R ∧
       ∃ i, chunks !! i = Some chunk ∧
            score (fit new chunks) query (Z.of_nat i) = Py.Ok s) ∧
    (length ranked ≤ length chunks)%nat ∧
    ((0 <= max_chunks)%Z → (length ranked ≤ Z.to_nat max_chunks)%nat) ∧
    (query = [] ∨ chunks = [] → ranked = []).
Proof.
  destruct (decide (chunks = [])) as [->|Hc].
  { exists []. split; [done|]. split; [constructor|].
    split; [by intros ? ? ?%elem_of_nil|]. split; [done|].
    split; [simpl; lia | done]. }
  destruct (decide (query = [])) as [->|Hq].
  { exists []. split; [by destruct chunks|]. split; [constructor|].
    split; [by intros ? ? ?%elem_of_nil|]. split; [simpl; lia|].
    split; [simpl; lia | done]. }
  destruct (find_relevant_chunks_ok query chunks max_chunks threshold Hc Hq)
    as (scores & _ & Hlen & Hsc & ->).
  destruct (sort_by_score_spec (zip chunks scores)) as [Hperm Hsorted].
  set (relevant := filter _ (sort_by_score (zip chunks scores))).
  assert (StronglySorted (λ a b : list N * R, (b.2 <= a.2)%R) relevant) as Hrel
    by (by apply StronglySorted_filter).
  destruct (slice_to_take relevant max_chunks) as [n Hn].
  eexists. split; [done|]. rewrite Hn. split; [|split; [|split; [|split]]].
  - by apply StronglySorted_take.
  - intros chunk s Hin.
    apply (subseteq_take n relevant), list_elem_of_filter in Hin as [Hthr Hin].
    split; [done|]. rewrite Hperm in Hin.
    apply elem_of_zip_lookup in Hin as (i & Hchunk & Hscore).
    exists i. split; [done|]. by apply Hsc.
  - rewrite length_take.
    assert (length relevant ≤ length (zip chunks scores))%nat.
    { etransitivity; [apply length_filter|]. by rewrite (Permutation_length Hperm). }
    rewrite length_zip_with in *. lia.
  - intros Hm. rewrite <- Hn. unfold Py.slice_to.
    assert ((max_chunks <? 0)%Z = false) as -> by (apply Z.ltb_ge; lia).
    rewrite length_take. lia.
  - intros [?|?]; done.
Qed.

(** X6: the ranked list that the three ranking evaluators ask for, with
    [max_chunks] the number of chunks, leaves out no chunk that scores
    above -10: it is a permutation of those. *)
Theorem ranked_chunks_complete query retrieved_contexts :
  query ≠ [] → retrieved_contexts ≠ [] →
  ∃ scores ranked,
    get_scores (fit new retrieved_contexts) query = Py.Ok scores ∧
    MRR_Metrics.get_ranked_chunks_for_query query retrieved_contexts
      = Py.Ok ranked ∧
    ranked ≡ₚ filter (λ chunk_score, (-10 < chunk_score.2)%R)
                (zip retrieved_contexts scores).
Proof.
  intros Hq Hc.
  destruct (find_relevant_chunks_ok query retrieved_contexts
              (Z.of_nat (length retrieved_contexts)) (-10) Hc Hq)
    as (scores & Hs & Hlen & _ & Hfind).
  destruct (sort_by_score_spec (zip retrieved_contexts scores)) as [Hperm _].
  exists scores.
  exists (Py.slice_to
            (filter (λ chunk_score, (-10 < chunk_score.2)%R)
               (sort_by_score (zip retrieved_contexts scores)))
            (Z.of_nat (length retrieved_contexts))).
  split; [done|]. split.
  - unfold MRR_Metrics.get_ranked_chunks_for_query.
    destruct query; [done|]. destruct retrieved_contexts; [done|]. exact Hfind.
  - unfold Py.slice_to.
    assert ((Z.of_nat (length retrieved_contexts) <? 0)%Z = false) as ->
      by (apply Z.ltb_ge; lia).
    rewrite Nat2Z.id, take_ge; [by rewrite Hperm|].
    etransitivity; [apply length_filter|].
    rewrite (Permutation_length Hperm), length_zip_with. lia.
Qed.

End Ranking.

(** ** More on the similarity of two chunks *)

Section MoreSimilarity.
Context `{PyUnicode}.
Local Open Scope Q_scope.

(** The set of words of a text, and the share of the words of the smaller
    of two sets that are in the other one. *)
Definition words (text : list N) : gset (list N) :=
  list_to_set (Py.split (app.clean_text text)).

Definition containment (words1 words2 : gset (list N)) : Q :=
  if (size words1 <=? size words2)%nat
  then Py.float (size (words1 ∩ words2)) / Py.float (size words1)
  else Py.float (size (words2 ∩ words1)) / Py.float (size words2).

(** [calculate_text_similarity] of app.py after the cleaning. *)
Definition similarity_of_cleaned (threshold : Q) (c1 c2 : list N)
    (words1 words2 : gset (list N)) : Q :=
  if bool_decide (words1 = ∅) || bool_decide (words2 = ∅) then 0 else
  let final_similarity := app.weighted_similarity c1 c2 words1 words2 in
  Py.min
    (if (0 <? size words1)%nat && (0 <? size words2)%nat then
       if Qle_bool threshold (containment words1 words2)
       then Py.max final_similarity (Py.min (containment words1 words2) (19 # 20))
       else final_similarity
     else final_similarity) 1.

Lemma app_similarity_cleaned threshold x y :
  x ≠ [] → y ≠ [] →
  app.calculate_text_similarity threshold x y
  = similarity_of_cleaned threshold (app.clean_text x) (app.clean_text y)
      (words x) (words y).
Proof. intros Hx Hy. destruct x; [done|]. by destruct y. Qed.

Lemma containment_sym w1 w2 : containment w1 w2 = containment w2 w1.
Proof.
  unfold containment.
  destruct (size w1 <=? size w2)%nat eqn:E1; destruct (size w2 <=? size w1)%nat eqn:E2;
    try done.
  - apply Nat.leb_le in E1, E2. assert (size w1 = size w2) as -> by lia.
    assert (w1 ∩ w2 = w2 ∩ w1) as -> by apply (comm_L _). done.
  - apply Nat.leb_gt in E1, E2. lia.
Qed.

Lemma substring_similarity_sym c1 c2 :
  length c1 ≠ length c2 ∨ (length c1 ≤ 10)%nat →
  app.substring_similarity c1 c2 = app.substring_similarity c2 c1.
Proof.
  intros Hlen. unfold app.substring_similarity.
  rewrite (andb_comm (10 <? length c2)%nat).
  destruct ((10 <? length c1)%nat && (10 <? length c2)%nat) eqn:E; [|done].
  apply andb_true_iff in E as [E1%Nat.ltb_lt E2%Nat.ltb_lt].
  destruct Hlen as [Hne|Hle]; [|lia].
  destruct (length c1 <? length c2)%nat eqn:E12;
    destruct (length c2 <? length c1)%nat eqn:E21; try done.
  - apply Nat.ltb_lt in E12, E21. lia.
  - apply Nat.ltb_ge in E12, E21. lia.
Qed.

Lemma weighted_similarity_sym c1 c2 w1 w2 :
  length c1 ≠ length c2 ∨ (length c1 ≤ 10)%nat →
  app.weighted_similarity c1 c2 w1 w2 = app.weighted_similarity c2 c1 w2 w1.
Proof.
  intros Hlen. unfold app.weighted_similarity. cbv zeta.
  rewrite (substring_similarity_sym c1 c2 Hlen).
  assert (w1 ∩ w2 = w2 ∩ w1) as -> by apply (comm_L _).
  assert (w1 ∪ w2 = w2 ∪ w1) as -> by apply (comm_L _).
  assert ((list_to_set c1 : gset N) ∩ list_to_set c2 = list_to_set c2 ∩ list_to_set c1)
    as -> by apply (comm_L _).
  assert ((list_to_set c1 : gset N) ∪ list_to_set c2 = list_to_set c2 ∪ list_to_set c1)
    as -> by apply (comm_L _).
  destruct (length c2 <? length c1)%nat eqn:E21;
    destruct (length c1 <? length c2)%nat eqn:E12; try done.
  apply Nat.ltb_lt in E12, E21. lia.
Qed.

Lemma similarity_of_cleaned_sym threshold c1 c2 w1 w2 :
  length c1 ≠ length c2 ∨ (length c1 ≤ 10)%nat →
  similarity_of_cleaned threshold c1 c2 w1 w2
  = similarity_of_cleaned threshold c2 c1 w2 w1.
Proof.
  intros Hlen. unfold similarity_of_cleaned. cbv zeta.
  rewrite (orb_comm (bool_decide (w2 = ∅))), (andb_comm (0 <? size w2)%nat).
  by rewrite (containment_sym w2 w1), (weighted_similarity_sym c1 c2 w1 w2 Hlen).
Qed.

Lemma app_similarity_nil_r threshold x : app.calculate_text_similarity threshold x [] = 0.
Proof. by destruct x. Qed.

Lemma app_similarity_nil_l threshold y : app.calculate_text_similarity threshold [] y = 0.
Proof. done. Qed.

Lemma text_similarity_cleaned x y :
  x ≠ [] → y ≠ [] →
  text_similarity.calculate_text_similarity x y
  = if bool_decide (words x = ∅) || bool_decide (words y = ∅) then 0
    else app.weighted_similarity (app.clean_text x) (app.clean_text y)
           (words x) (words y).
Proof. intros Hx Hy. destruct x; [done|]. by destruct y. Qed.

Lemma words_nonempty text : app.clean_text text ≠ [] → words text ≠ ∅.
Proof.
  intros Hc Hw. apply clean_text_words in Hc.
  pose proof (list_to_set_size (Py.split (app.clean_text text)) Hc) as Hs.
  unfold words in Hw. rewrite Hw, size_empty in Hs. lia.
Qed.

Lemma clean_text_nonempty text : app.clean_text text ≠ [] → text ≠ [].
Proof. intros Hc ->. by rewrite clean_text_nil in Hc. Qed.

(** The value after the semantic override is at least the weighted
    sum, clamped. *)
Lemma similarity_of_cleaned_ge threshold c1 c2 w1 w2 :
  w1 ≠ ∅ → w2 ≠ ∅ →
  app.weighted_similarity c1 c2 w1 w2 <= similarity_of_cleaned threshold c1 c2 w1 w2.
Proof.
  intros H1 H2. unfold similarity_of_cleaned.
  rewrite !bool_decide_eq_false_2 by done. cbv zeta. simpl orb. cbv iota.
  pose proof (weighted_similarity_bounds c1 c2 w1 w2) as Hw.
  set (W := app.weighted_similarity c1 c2 w1 w2) in *.
  set (v := if (0 <? size w1)%nat && (0 <? size w2)%nat then _ else W).
  assert (W <= v) as Hv.
  { unfold v. destruct (_ && _); [|lra]. destruct (Qle_bool _ _); [|lra].
    destruct (max_cases W (Py.min (containment w1 w2) (19 # 20))) as [[? ->]|[? ->]]; lra. }
  destruct (min_cases v 1) as [[? ->]|[? ->]]; lra.
Qed.

Lemma check_semantic_containment_cleaned retrieved_chunk reference_chunk threshold :
  retrieved_chunk ≠ [] → reference_chunk ≠ [] →
  BM25_evaluate._check_semantic_containment retrieved_chunk reference_chunk threshold
  = if (size (words retrieved_chunk) =? 0)%nat || (size (words reference_chunk) =? 0)%nat
    then false
    else Qle_bool threshold (containment (words retrieved_chunk) (words reference_chunk)).
Proof. intros Hr Hf. destruct retrieved_chunk; [done|]. by destruct reference_chunk. Qed.

Lemma check_semantic_containment_true retrieved_chunk reference_chunk threshold :
  BM25_evaluate._check_semantic_containment retrieved_chunk reference_chunk threshold
    = true →
  retrieved_chunk ≠ [] ∧ reference_chunk ≠ [] ∧
  words retrieved_chunk ≠ ∅ ∧ words reference_chunk ≠ ∅ ∧
  threshold <= containment (words retrieved_chunk) (words reference_chunk).
Proof.
  intros Hflag.
  assert (retrieved_chunk ≠ []) as Hr by (intros ->; done).
  assert (reference_chunk ≠ []) as Hf by (intros ->; by destruct retrieved_chunk).
  rewrite check_semantic_containment_cleaned in Hflag by done.
  destruct (size (words retrieved_chunk) =? 0)%nat eqn:Er; [done|].
  destruct (size (words reference_chunk) =? 0)%nat eqn:Ef; [done|].
  simpl in Hflag. apply Qle_bool_iff in Hflag.
  apply Nat.eqb_neq in Er, Ef.
  repeat split; try done.
  - intros E. by rewrite E, size_empty in Er.
  - intros E. by rewrite E, size_empty in Ef.
Qed.

End MoreSimilarity.

Section SimilarityProperties.
Context `{PyUnicode}.
Local Open Scope Q_scope.

(** X7: the similarity does not depend on the order of the two texts when
    their cleaned forms differ in length, or when one of them has at most
    ten characters; this holds for both variants. *)
Theorem similarity_symmetric_for_different_lengths threshold x y :
  length (app.clean_text x) ≠ length (app.clean_text y)
  ∨ (length (app.clean_text x) ≤ 10)%nat →
  app.calculate_text_similarity threshold x y
    = app.calculate_text_similarity threshold y x ∧
  text_similarity.calculate_text_similarity x y
    = text_similarity.calculate_text_similarity y x.
Proof.
  intros Hlen.
  destruct (decide (x = [])) as [->|Hx]; [by destruct y|].
  destruct (decide (y = [])) as [->|Hy]; [by destruct x|].
  split.
  - rewrite !app_similarity_cleaned by done. by apply similarity_of_cleaned_sym.
  - rewrite !text_similarity_cleaned by done.
    rewrite (orb_comm (bool_decide (words y = ∅))).
    by rewrite (weighted_similarity_sym _ _ _ _ Hlen).
Qed.

(** X8: when the cleaned form of one text is a proper part of the cleaned
    form of the other, the similarity is at least 0.8, in either order
    and in both variants. *)
Theorem contained_text_similarity threshold x y :
  app.clean_text x ≠ [] →
  (length (app.clean_text x) < length (app.clean_text y))%nat →
  Py.contains (app.clean_text x) (app.clean_text y) = true →
  4 # 5 <= app.calculate_text_similarity threshold x y ∧
  4 # 5 <= app.calculate_text_similarity threshold y x ∧
  4 # 5 <= text_similarity.calculate_text_similarity x y ∧
  4 # 5 <= text_similarity.calculate_text_similarity y x.
Proof.
  intros Hcx Hlt Hin.
  assert (app.clean_text y ≠ []) as Hcy by (intros E; rewrite E in Hlt; simpl in Hlt; lia).
  pose proof (clean_text_nonempty x Hcx) as Hx.
  pose proof (clean_text_nonempty y Hcy) as Hy.
  pose proof (words_nonempty x Hcx) as Hwx. pose proof (words_nonempty y Hcy) as Hwy.
  assert (4 # 5 <= app.weighted_similarity (app.clean_text x) (app.clean_text y)
                     (words x) (words y)) as Hw.
  { unfold app.weighted_similarity. cbv zeta.
    assert ((length (app.clean_text y) <? length (app.clean_text x))%nat = false)
      as -> by (apply Nat.ltb_ge; lia).
    assert ((length (app.clean_text x) <? length (app.clean_text y))%nat = true)
      as -> by (by apply Nat.ltb_lt).
    rewrite Hin.
    match goal with |- _ <= Py.max ?f _ =>
      destruct (max_cases f (4 # 5)) as [[? ->]|[? ->]]; lra end. }
  assert (length (app.clean_text x) ≠ length (app.clean_text y)
          ∨ (length (app.clean_text x) ≤ 10)%nat) as Hlen by (left; lia).
  pose proof (similarity_of_cleaned_ge threshold (app.clean_text x) (app.clean_text y)
                (words x) (words y) Hwx Hwy) as Hge.
  rewrite !app_similarity_cleaned, !text_similarity_cleaned by done.
  rewrite <- (similarity_of_cleaned_sym threshold _ _ (words x) (words y) Hlen).
  rewrite <- (weighted_similarity_sym _ _ (words x) (words y) Hlen).
  rewrite (orb_comm (bool_decide (words y = ∅))).
  rewrite !bool_decide_eq_false_2 by done. simpl orb. cbv iota.
  repeat split; lra.
Qed.

(** X9: the semantic override and the clamp of app.py never lower the
    similarity: the variant of app.py is at least the variant of
    text_similarity.py, and equal to it when the share of common words is
    below the threshold. *)
Theorem semantic_override_only_raises threshold x y :
  text_similarity.calculate_text_similarity x y
    <= app.calculate_text_similarity threshold x y ∧
  (x ≠ [] → y ≠ [] → containment (words x) (words y) < threshold →
   app.calculate_text_similarity threshold x y
     == text_similarity.calculate_text_similarity x y).
Proof.
  split.
  - destruct (decide (x = [])) as [->|Hx]; [simpl; lra|].
    destruct (decide (y = [])) as [->|Hy]; [destruct x; simpl; lra|].
    rewrite app_similarity_cleaned, text_similarity_cleaned by done.
    destruct (decide (words x = ∅)) as [Ex|Ex].
    { unfold similarity_of_cleaned. rewrite !(bool_decide_eq_true_2 _ Ex). simpl. lra. }
    destruct (decide (words y = ∅)) as [Ey|Ey].
    { unfold similarity_of_cleaned. rewrite !(bool_decide_eq_true_2 _ Ey).
      rewrite !orb_true_r. lra. }
    rewrite !bool_decide_eq_false_2 by done. simpl orb. cbv iota.
    by apply similarity_of_cleaned_ge.
  - intros Hx Hy Hlt.
    rewrite app_similarity_cleaned, text_similarity_cleaned by done.
    unfold similarity_of_cleaned.
    destruct (bool_decide (words x = ∅) || bool_decide (words y = ∅)); [reflexivity|].
    cbv zeta.
    assert (Qle_bool threshold (containment (words x) (words y)) = false) as ->.
    { destruct (Qle_bool _ _) eqn:E; [|done]. apply Qle_bool_iff in E. lra. }
    pose proof (weighted_similarity_bounds (app.clean_text x) (app.clean_text y)
                  (words x) (words y)) as Hw.
    destruct (_ && _);
      match goal with |- Py.min ?w 1 == _ =>
        destruct (min_cases w 1) as [[? ->]|[? ->]]; lra end.
Qed.

(** X10: [_check_semantic_containment] does not depend on the order of
    its two chunks. *)
Theorem check_semantic_containment_symmetric retrieved_chunk reference_chunk threshold :
  BM25_evaluate._check_semantic_containment retrieved_chunk reference_chunk threshold
  = BM25_evaluate._check_semantic_containment reference_chunk retrieved_chunk threshold.
Proof.
  destruct (decide (retrieved_chunk = [])) as [->|Hr]; [by destruct reference_chunk|].
  destruct (decide (reference_chunk = [])) as [->|Hf]; [by destruct retrieved_chunk|].
  rewrite !check_semantic_containment_cleaned by done.
  by rewrite (orb_comm (size (words reference_chunk) =? 0)%nat),
    (containment_sym (words reference_chunk)).
Qed.

(** X11: a pair of chunks that [evaluate_precision_recall] flags as a
    semantic containment, with the threshold of the environment, has a
    relevance score of at least that threshold, or 0.95 if that is
    smaller. *)
Theorem semantic_containment_lifts_score env retrieved_chunk reference_chunk :
  BM25_evaluate._check_semantic_containment retrieved_chunk reference_chunk
    (BM25_evaluate.SEMANTIC_CONTAINMENT_THRESHOLD env) = true →
  Py.min (BM25_evaluate.SEMANTIC_CONTAINMENT_THRESHOLD env) (19 # 20)
    <= BM25_evaluate.calculate_relevance_score env retrieved_chunk reference_chunk.
Proof.
  intros (Hr & Hf & Hwr & Hwf & Hthr)%check_semantic_containment_true.
  unfold BM25_evaluate.calculate_relevance_score.
  destruct retrieved_chunk as [|c r] eqn:Er; [done|].
  destruct reference_chunk as [|d f] eqn:Ef; [done|].
  rewrite <- Er, <- Ef in *. clear Er Ef.
  rewrite app_similarity_cleaned by done. unfold similarity_of_cleaned.
  rewrite !bool_decide_eq_false_2 by done. simpl orb. cbv iota zeta.
  assert ((0 <? size (words retrieved_chunk))%nat = true) as ->.
  { apply Nat.ltb_lt. destruct (size (words retrieved_chunk)) eqn:E; [|lia].
    by apply size_empty_inv, leibniz_equiv in E. }
  assert ((0 <? size (words reference_chunk))%nat = true) as ->.
  { apply Nat.ltb_lt. destruct (size (words reference_chunk)) eqn:E; [|lia].
    by apply size_empty_inv, leibniz_equiv in E. }
  simpl andb. cbv iota.
  set (thr := BM25_evaluate.SEMANTIC_CONTAINMENT_THRESHOLD env) in *.
  set (sc := containment (words retrieved_chunk) (words reference_chunk)) in *.
  assert (Qle_bool thr sc = true) as -> by (by apply Qle_bool_iff).
  set (W := app.weighted_similarity _ _ _ _).
  destruct (min_cases thr (19 # 20)) as [[? ->]|[? ->]];
    destruct (min_cases sc (19 # 20)) as [[? Es]|[? Es]];
    destruct (max_cases W (Py.min sc (19 # 20))) as [[? Em]|[? Em]];
    rewrite Em; rewrite Es in *;
    match goal with |- _ <= Py.min ?v 1 =>
      destruct (min_cases v 1) as [[? ->]|[? ->]]; lra end.
Qed.

End SimilarityProperties.

(** ** The common run of two texts *)

Section PartialMatch.

Lemma foldl_max_found {B} (c : B → bool) (n : B → nat) (l : list B) (a : nat) :
  (a ≤ foldl (λ m x, if c x then Nat.max m (n x) else m) a l)%nat ∧
  (∀ x, x ∈ l → c x = true →
     (n x ≤ foldl (λ m x, if c x then Nat.max m (n x) else m) a l)%nat) ∧
  (foldl (λ m x, if c x then Nat.max m (n x) else m) a l = a ∨
   ∃ x, x ∈ l ∧ c x = true ∧
     foldl (λ m x, if c x then Nat.max m (n x) else m) a l = n x).
Proof.
  induction l as [|y l (Hge & Hall & Hex)] using rev_ind.
  - split; [done|]. split; [by intros ? ?%elem_of_nil | by left].
  - rewrite foldl_snoc. set (r := foldl _ a l) in *.
    destruct (c y) eqn:Ey.
    + split; [lia|]. split.
      * intros x [Hx | ->%list_elem_of_singleton]%elem_of_app Hc; [|lia].
        specialize (Hall x Hx Hc). lia.
      * destruct (Nat.max_spec r (n y)) as [[? ->]|[? ->]].
        -- right. exists y. split; [apply elem_of_app; right; by left | done].
        -- destruct Hex as [Hr|(x & Hx & Hc & Hr)]; [by left|].
           right. exists x. split; [apply elem_of_app; by left | done].
    + split; [done|]. split.
      * intros x [Hx | ->%list_elem_of_singleton]%elem_of_app Hc; [by apply Hall|].
        congruence.
      * destruct Hex as [Hr|(x & Hx & Hc & Hr)]; [by left|].
        right. exists x. split; [apply elem_of_app; by left | done].
Qed.

(** The runs that the two loops of [partial_match] try: they start at an
    index [i] with [i + 5 < len(shorter)] and have at least five
    characters. *)
Definition tried (shorter : list N) (i j : nat) : Prop :=
  (i + 5 < length shorter)%nat ∧ (i + 5 ≤ j ≤ length shorter)%nat.

Lemma slice_length_exact {A} (s : list A) (i j : nat) :
  (i ≤ j ≤ length s)%nat → length (Py.slice s i j) = (j - i)%nat.
Proof. intros Hij. unfold Py.slice. rewrite length_take, length_drop. lia. Qed.

Lemma partial_match_from shorter longer (starts : list nat) :
  (∀ i, i ∈ starts → (i + 5 < length shorter)%nat) →
  let m :=
    foldl (λ max_match i,
      foldl (λ max_match j,
        let substring := Py.slice shorter i j in
        if Py.contains substring longer
        then Nat.max max_match (length substring)
        else max_match)
        max_match (Py.range (i + 5) (length shorter + 1)))
      0%nat starts in
  (∀ i j, i ∈ starts → tried shorter i j →
     Py.contains (Py.slice shorter i j) longer = true → (j - i ≤ m)%nat) ∧
  (m = 0%nat ∨
   ∃ i j, i ∈ starts ∧ tried shorter i j ∧
     Py.contains (Py.slice shorter i j) longer = true ∧ m = (j - i)%nat).
Proof.
  induction starts as [|i0 starts IH] using rev_ind; intros Hstarts m.
  - split; [by intros ? ? ?%elem_of_nil | by left].
  - destruct IH as [Hall Hex].
    { intros i Hi. apply Hstarts, elem_of_app. by left. }
    assert (i0 + 5 < length shorter)%nat as Hi0
      by (apply Hstarts, elem_of_app; right; by left).
    unfold m. rewrite foldl_snoc.
    set (m0 := foldl _ 0%nat starts) in *.
    destruct (foldl_max_found
                (λ j, Py.contains (Py.slice shorter i0 j) longer)
                (λ j, length (Py.slice shorter i0 j))
                (Py.range (i0 + 5) (length shorter + 1)) m0)
      as (Hge & Hall' & Hex').
    cbv zeta. set (m1 := foldl _ m0 (Py.range _ _)) in *.
    split.
    + intros i j [Hi | ->%list_elem_of_singleton]%elem_of_app Ht Hc.
      * specialize (Hall i j Hi Ht Hc). lia.
      * destruct Ht as [_ Hj].
        rewrite <- (slice_length_exact shorter i0 j) by lia.
        apply (Hall' j); [|done]. apply elem_of_range. lia.
    + destruct Hex' as [Hm|(j & Hj & Hc & Hm)].
      * rewrite Hm. destruct Hex as [?|(i & j & Hi & Ht & Hc & Hm')]; [by left|].
        right. exists i, j. split; [apply elem_of_app; by left | done].
      * right. exists i0, j. apply elem_of_range in Hj.
        split; [apply elem_of_app; right; by left|].
        split; [split; lia|]. split; [done|].
        rewrite Hm. apply slice_length_exact. lia.
Qed.

(** X12: [partial_match] is the length of the longest run of [shorter]
    that occurs in [longer], among the runs that the loops try: runs of
    at least five characters that start at an index [i] with
    [i + 5 < len(shorter)].  So it is 0 or at least 5. *)
Theorem partial_match_longest_tried_run (shorter longer : list N) :
  (∀ i j, tried shorter i j →
     Py.contains (Py.slice shorter i j) longer = true →
     (j - i ≤ app.partial_match shorter longer)%nat) ∧
  (app.partial_match shorter longer = 0%nat ∨
   ∃ i j, tried shorter i j ∧
     Py.contains (Py.slice shorter i j) longer = true ∧
     app.partial_match shorter longer = (j - i)%nat) ∧
  (app.partial_match shorter longer = 0%nat
   ∨ (5 ≤ app.partial_match shorter longer ≤ length shorter)%nat).
Proof.
  assert ((∀ i j, i ∈ Py.range 0 (length shorter - 5) → tried shorter i j →
             Py.contains (Py.slice shorter i j) longer = true →
             (j - i ≤ app.partial_match shorter longer)%nat) ∧
          (app.partial_match shorter longer = 0%nat ∨
           ∃ i j, i ∈ Py.range 0 (length shorter - 5) ∧ tried shorter i j ∧
             Py.contains (Py.slice shorter i j) longer = true ∧
             app.partial_match shorter longer = (j - i)%nat)) as [Hall Hex].
  { apply (partial_match_from shorter longer (Py.range 0 (length shorter - 5))).
    intros i Hi%elem_of_range. lia. }
  split; [|split; [|]].
  - intros i j Ht Hc. apply (Hall i j); [|done..].
    apply elem_of_range. destruct Ht. lia.
  - destruct Hex as [?|(i & j & _ & ? & ? & ?)]; [by left|]. right. by exists i, j.
  - destruct Hex as [?|(i & j & _ & [? ?] & ? & ->)]; [by left|]. right. lia.
Qed.

End PartialMatch.

(** ** The F1 score *)

Section F1Properties.
Local Open Scope Q_scope.

(** X13: for a precision and a recall in [[0,1]], the F1 score lies in
    [[0,1]] and does not depend on their order; it is 0 when one of them
    is 0 and 1 when both are 1.  (Between the two values it lies only up
    to rounding: see the doubles of 0.95 above.) *)
Theorem f1_score_unit_interval (p r : Q) :
  0 <= p <= 1 → 0 <= r <= 1 →
  0 <= F1_Metrics.calculate_f1_score (Some p) (Some r) <= 1 ∧
  F1_Metrics.calculate_f1_score (Some p) (Some r)
    == F1_Metrics.calculate_f1_score (Some r) (Some p) ∧
  (p == 0 ∨ r == 0 → F1_Metrics.calculate_f1_score (Some p) (Some r) == 0) ∧
  (p == 1 → r == 1 → F1_Metrics.calculate_f1_score (Some p) (Some r) == 1).
Proof.
  intros Hp Hr. unfold F1_Metrics.calculate_f1_score.
  assert (Qeq_bool (r + p) 0 = Qeq_bool (p + r) 0) as ->.
  { destruct (Qeq_bool (p + r) 0) eqn:E.
    - apply Qeq_bool_iff in E. apply Qeq_bool_iff. lra.
    - apply Qeq_bool_neq in E. destruct (Qeq_bool (r + p) 0) eqn:E'; [|done].
      apply Qeq_bool_iff in E'. exfalso. apply E. lra. }
  destruct (Qeq_bool (p + r) 0) eqn:E.
  - apply Qeq_bool_iff in E.
    split; [lra|]. split; [reflexivity|]. split; [reflexivity|].
    intros Ep Er. exfalso. lra.
  - apply Qeq_bool_neq in E.
    assert (0 < p + r) as Hs
      by (destruct (Qlt_le_dec 0 (p + r)); [done | exfalso; apply E; lra]).
    set (f := 2 * (p * r) / (p + r)).
    assert (f * (p + r) == 2 * (p * r)) as Hf by (unfold f; field; lra).
    assert (2 * (r * p) / (r + p) == f) as Hsym by (unfold f; field; lra).
    split; [split; nra|]. split; [by rewrite Hsym|]. split.
    + intros [Ez|Ez]; nra.
    + intros Ep Er. nra.
Qed.

End F1Properties.

(** ** The counts of a row *)

Section RowCounts.
Context `{PyUnicode}.
Import BM25_evaluate.
Local Open Scope Q_scope.

Variable env : Env.
Variable idx : nat.
Variable sample : row.

Local Abbreviation retrieved := (retrieved_contexts sample).
Local Abbreviation reference := (reference_contexts sample).
Local Abbreviation thr := (SIMILARITY_THRESHOLD env).
Local Abbreviation matrix := (similarities_to_references env reference <$> retrieved).
Local Abbreviation rm i := (row_max (default [] (matrix !! i))).
Local Abbreviation column j := ((λ row : list Q, default 0 (row !! j)) <$> matrix).

Hypothesis retrieved_nonempty : retrieved ≠ [].
Hypothesis reference_nonempty : reference ≠ [].







Lemma complementary_filters {A} (f : A → bool) (l : list A) :
  filter (λ x, f x = true) l ++ filter (λ x, f x = false) l ≡ₚ l.
Proof.
  induction l as [|x l IH]; [done|].
  destruct (f x) eqn:E.
  - rewrite filter_cons_True, filter_cons_False by congruence. simpl. by rewrite IH.
  - rewrite filter_cons_False, filter_cons_True by congruence.
    rewrite <- Permutation_middle. by rewrite IH.
Qed.



End RowCounts.

(** ** The mean reciprocal rank *)

Section MeanReciprocalRank.
Context `{PyUnicode}.
Import BM25_evaluate MRR_Metrics.
Local Open Scope Q_scope.

Lemma reciprocal_rank_range env query retrieved reference :
  ∃ rr, calculate_reciprocal_rank env query retrieved reference = Py.Ok rr ∧
        0 <= rr <= 1.
Proof.
  destruct (get_relevant_chunks_ok query reference) as (relevant & Hrel & _).
  unfold calculate_reciprocal_rank. rewrite Hrel, bind_ok.
  destruct relevant as [|ref relevant'] eqn:Erel; [exists 0; split; [done | lra]|].
  destruct retrieved as [|r retrieved'] eqn:Eret; [exists 0; split; [done | lra]|].
  cbv beta iota zeta. rewrite <- Erel, <- Eret in *. clear Erel Eret.
  rewrite retrieved_loop_ok, bind_ok; last first.
  { intros chunk Hin. destruct (chunk_positions_lookup _ _ Hin) as (i & _ & _ & ->).
    by eexists. }
  pose proof (best_of_spec env (chunk_positions retrieved) relevant retrieved) as Hbest.
  destruct (best_of _ _ _ None retrieved) as [[position chunk]|];
    [|exists 0; split; [done | lra]].
  destruct Hbest as (Hin & _ & Hpos & _).
  destruct (chunk_positions_lookup _ _ Hin) as (i0 & Hi0 & _ & Hcp).
  rewrite Hcp in Hpos. simpl in Hpos. apply lookup_lt_Some in Hi0.
  rewrite truediv_position by lia. eexists. split; [done|].
  assert (1 <= Py.float position).
  { change 1 with (Py.float 1). apply float_le. lia. }
  split.
  - apply Qle_shift_div_l; lra.
  - apply Qle_shift_div_r; lra.
Qed.

(** What the loop over the rows keeps true of [results], after the rows
    [rows]. *)
Definition mrr_invariant (rows : list row) (results : mrr_results) : Prop :=
  length (reciprocal_ranks results) = length rows ∧
  total_queries results = length rows ∧
  Forall (λ rr, 0 <= rr <= 1) (reciprocal_ranks results) ∧
  queries_with_relevant_chunks results
    = length (filter (λ rr, Py.gt rr 0 = true) (reciprocal_ranks results)) ∧
  (queries_with_relevant_chunks results + queries_without_relevant_chunks results
   = length rows)%nat ∧
  (∀ i row, rows !! i = Some row →
     retrieved_contexts row = [] ∨ reference_contexts row = [] →
     reciprocal_ranks results !! i = Some 0).

Lemma evaluate_mrr_row_ok env rows results idx row :
  mrr_invariant rows results →
  ∃ results',
    evaluate_mrr_row env results (idx, row) = Py.Ok results' ∧
    mrr_invariant (rows ++ [row]) results'.
Proof.
  intros (Hlen & Htot & Hall & Hwith & Hsum & Hskip).
  assert (∀ rr results',
    reciprocal_ranks results' = reciprocal_ranks results ++ [rr] →
    total_queries results' = (total_queries results + 1)%nat →
    0 <= rr <= 1 →
    queries_with_relevant_chunks results'
      = (if Py.gt rr 0 then queries_with_relevant_chunks results + 1
         else queries_with_relevant_chunks results)%nat →
    queries_without_relevant_chunks results'
      = (if Py.gt rr 0 then queries_without_relevant_chunks results
         else queries_without_relevant_chunks results + 1)%nat →
    (retrieved_contexts row = [] ∨ reference_contexts row = [] → rr = 0) →
    mrr_invariant (rows ++ [row]) results') as Hstep.
  { intros rr results' Hrr Ht Hb Hw Hwo Hz. unfold mrr_invariant.
    rewrite Hrr, Ht, Hw, Hwo, !length_app, filter_app, length_app. simpl.
    split; [lia|]. split; [lia|]. split.
    { apply Forall_app. split; [done|]. by apply Forall_singleton. }
    destruct (Py.gt rr 0) eqn:E.
    - rewrite (filter_cons_True _ rr []) by done. apply gt_true in E. simpl.
      split; [lia|]. split; [lia|].
      intros i row' Hi Hempty.
      destruct (decide (i < length rows)%nat) as [Hlt|Hge].
      + rewrite lookup_app_l in Hi by done. rewrite lookup_app_l by lia.
        by apply (Hskip i row').
      + rewrite lookup_app_r in Hi by lia.
        destruct (i - length rows)%nat eqn:Ei; simpl in Hi; [|done].
        injection Hi as <-. rewrite (Hz Hempty) in E. lra.
    - rewrite (filter_cons_False _ rr []) by congruence. simpl.
      split; [lia|]. split; [lia|].
      intros i row' Hi Hempty.
      destruct (decide (i < length rows)%nat) as [Hlt|Hge].
      + rewrite lookup_app_l in Hi by done. rewrite lookup_app_l by lia.
        by apply (Hskip i row').
      + rewrite lookup_app_r in Hi by lia.
        destruct (i - length rows)%nat eqn:Ei; simpl in Hi; [|done].
        injection Hi as <-. rewrite lookup_app_r by lia.
        replace (i - length (reciprocal_ranks results))%nat with 0%nat by lia.
        simpl. by rewrite (Hz Hempty). }
  unfold evaluate_mrr_row. cbv zeta.
  destruct (retrieved_contexts row) as [|r retrieved'] eqn:Er.
  { eexists. split; [done|]. apply (Hstep 0); try done; lra. }
  destruct (reference_contexts row) as [|f reference'] eqn:Ef.
  { eexists. split; [done|]. apply (Hstep 0); try done; lra. }
  destruct (reciprocal_rank_range env (user_input row) (r :: retrieved') (f :: reference'))
    as (rr & -> & Hb).
  destruct (get_relevant_chunks_ok (user_input row) (f :: reference'))
    as (relevant & -> & _).
  rewrite !bind_ok. eexists. split; [done|].
  apply (Hstep rr); try done. intros [?|?]; done.
Qed.

Lemma evaluate_mrr_loop env (done_rows rows : list (nat * row)) results :
  mrr_invariant done_rows.*2 results →
  ∃ results',
    Py.for_ rows results (evaluate_mrr_row env) = Py.Ok results' ∧
    mrr_invariant (done_rows ++ rows).*2 results'.
Proof.
  revert done_rows results. induction rows as [|[idx row] rows IH];
    intros done_rows results Hinv.
  - exists results. split; [done|]. by rewrite app_nil_r.
  - destruct (evaluate_mrr_row_ok env _ _ idx row Hinv) as (results1 & Hrow & Hinv1).
    destruct (IH (done_rows ++ [(idx, row)]) results1) as (results' & Hloop & Hinv').
    { by rewrite fmap_app. }
    exists results'. rewrite for_cons, Hrow, bind_ok. split; [done|].
    by rewrite <- app_assoc in Hinv'.
Qed.

Lemma mean_bounds (l : list Q) :
  l ≠ [] → Forall (λ x, 0 <= x <= 1) l → 0 <= Py.mean l <= 1.
Proof.
  intros Hne Hall. pose proof (sum_bounds l Hall) as Hs.
  assert (0 < Py.float (length l)) as Hlen
    by (apply float_pos; destruct l; [done | simpl; lia]).
  unfold Py.mean. split.
  - apply Qle_shift_div_l; lra.
  - apply Qle_shift_div_r; lra.
Qed.

Lemma enumerate_snd {A} (l : list A) : (Py.enumerate l).*2 = l.
Proof. unfold Py.enumerate. apply snd_zip. by rewrite length_seq. Qed.

(** X19: [evaluate_mrr] raises no exception; it records one reciprocal
    rank per row, each in [[0,1]], and 0 for a row without retrieved or
    without reference chunks; the two counters add up to the number of
    rows, the first counting the positive ranks; and the MRR lies in
    [[0,1]]. *)
Theorem evaluate_mrr_totals env (df : list row) :
  ∃ results,
    evaluate_mrr env df = Py.Ok results ∧
    length (reciprocal_ranks results) = length df ∧
    total_queries results = length df ∧
    Forall (λ rr, 0 <= rr <= 1) (reciprocal_ranks results) ∧
    queries_with_relevant_chunks results
      = length (filter (λ rr, Py.gt rr 0 = true) (reciprocal_ranks results)) ∧
    (queries_with_relevant_chunks results + queries_without_relevant_chunks results
     = length df)%nat ∧
    (∀ i row, df !! i = Some row →
       retrieved_contexts row = [] ∨ reference_contexts row = [] →
       reciprocal_ranks results !! i = Some 0) ∧
    0 <= mrr results <= 1.
Proof.
  destruct (evaluate_mrr_loop env [] (Py.enumerate df) no_mrr_results)
    as (results & Hloop & Hinv).
  { unfold mrr_invariant. simpl. repeat split; try done. }
  simpl in Hinv. rewrite enumerate_snd in Hinv.
  destruct Hinv as (Hlen & Htot & Hall & Hwith & Hsum & Hskip).
  unfold evaluate_mrr. rewrite Hloop, bind_ok. eexists. split; [done|]. simpl.
  repeat (split; [done|]).
  destruct (reciprocal_ranks results) as [|rr l] eqn:E; [lra|].
  rewrite <- E in *. apply mean_bounds; [by rewrite E | done].
Qed.

End MeanReciprocalRank.

(** ** The averages of the dataset *)

Section DatasetTotals.
Context `{PyUnicode}.
Import BM25_evaluate.
Local Open Scope Q_scope.

Variable env : Env.

(** What a row that is not skipped yields. *)
Lemma evaluate_row_counts idx row :
  evaluated row →
  ∃ e,
    evaluate_row env idx row = Py.Ok (Some e) ∧
    0 <= precision (row_detail e) <= 1 ∧
    0 <= recall (row_detail e) ∧
    row_index (row_detail e) = idx ∧
    retrieved_count (row_detail e) = length (retrieved_contexts row) ∧
    (length (row_relevant_chunks (row_detail e)) + length (row_irrelevant e)
     = length (retrieved_contexts row))%nat.
Proof.
  intros [ER EF].
  destruct (classify_loop env idx row EF (length (retrieved_contexts row)) ltac:(lia))
    as (st & Hst & Hrel & Hscore & Hirr & Htot).
  destruct (missed_loop env idx row (length (reference_contexts row)) ltac:(lia))
    as (missed & Hmissed & _).
  eexists. split.
  { rewrite evaluate_row_unfold, Hst, bind_ok, Hmissed by done. reflexivity. }
  cbn [row_detail row_irrelevant row_relevant_chunks precision recall row_index
       retrieved_count].
  assert (0 < Py.float (length (retrieved_contexts row))) as HR.
  { apply float_pos. destruct (retrieved_contexts row); [done | simpl; lia]. }
  assert (0 < Py.float (length (reference_contexts row))) as HF.
  { apply float_pos. destruct (reference_contexts row); [done | simpl; lia]. }
  assert (0 <= total st <= Py.float (length (retrieved_contexts row))) as Hb.
  { rewrite Htot.
    assert (Forall (λ x, 0 <= x <= 1) (relevance_score <$> relevant_retrieved st)) as Hall.
    { rewrite Hscore, Hrel. apply Forall_fmap, Forall_forall.
      intros i [_ Hi%elem_of_seq]%list_elem_of_filter. simpl.
      apply (rm_bounds env row EF). lia. }
    pose proof (sum_bounds _ Hall) as Hs.
    assert (Py.float (length (relevance_score <$> relevant_retrieved st))
            <= Py.float (length (retrieved_contexts row))); [|lra].
    apply float_le. rewrite Hscore, Hrel, !length_fmap.
    etransitivity; [apply length_filter|]. by rewrite length_seq. }
  split; [split|].
  - apply Qle_shift_div_l; lra.
  - apply Qle_shift_div_r; lra.
  - split; [apply Qle_shift_div_l; lra|]. split; [done|]. split; [done|].
    rewrite <- (length_fmap rel_retrieved_idx), <- (length_fmap irr_retrieved_idx).
    rewrite Hrel, Hirr, <- length_app, complementary_filters. apply length_seq.
Qed.

Lemma evaluate_row_skipped idx row :
  ¬ evaluated row → evaluate_row env idx row = Py.Ok None.
Proof.
  intros Hno. unfold evaluate_row.
  destruct (retrieved_contexts row) as [|r l] eqn:ER; [done|].
  destruct (reference_contexts row) as [|f l'] eqn:EF; [done|].
  exfalso. apply Hno. unfold evaluated. by rewrite ER, EF.
Qed.

(** What the loop over the rows keeps true of [results], after the
    indexed rows [rows]. *)
Definition dataset_invariant (rows : list (nat * row)) (results : results) : Prop :=
  Forall (λ p, 0 <= p <= 1) (precision_scores results) ∧
  Forall (λ r, 0 <= r) (recall_scores results) ∧
  row_index <$> detailed_results results
    = fst <$> filter (λ entry, evaluated entry.2) rows ∧
  precision <$> detailed_results results = precision_scores results ∧
  recall <$> detailed_results results = recall_scores results ∧
  (length (relevant_chunks results) + length (irrelevant_chunks results)
   = sum_list (retrieved_count <$> detailed_results results))%nat.

Lemma append_row_totals rows results idx row :
  dataset_invariant rows results →
  ∃ results',
    append_row env results (idx, row) = Py.Ok results' ∧
    dataset_invariant (rows ++ [(idx, row)]) results'.
Proof.
  intros (Hp & Hr & Hidx & Hps & Hrs & Hcount).
  unfold append_row, dataset_invariant. rewrite filter_app.
  destruct (decide (evaluated row)) as [Hev|Hno].
  - destruct (evaluate_row_counts idx row Hev)
      as (e & -> & Hpe & Hre & Hie & Hce & Hle).
    rewrite bind_ok. eexists. split; [reflexivity|].
    cbn [precision_scores recall_scores detailed_results relevant_chunks
         irrelevant_chunks].
    rewrite (filter_cons_True _ (idx, row) []) by done.
    rewrite !fmap_app, !Forall_app, !Forall_singleton, !length_app, sum_list_with_app.
    simpl. rewrite Hidx, Hps, Hrs, Hie, Hce.
    destruct Hpe. repeat split; try done. lia.
  - rewrite (evaluate_row_skipped idx row Hno), bind_ok.
    exists results. split; [done|].
    rewrite (filter_cons_False _ (idx, row) []) by done.
    rewrite filter_nil, app_nil_r. done.
Qed.

Lemma dataset_loop (done_rows rows : list (nat * row)) results :
  dataset_invariant done_rows results →
  ∃ results',
    Py.for_ rows results (append_row env) = Py.Ok results' ∧
    dataset_invariant (done_rows ++ rows) results'.
Proof.
  revert done_rows results. induction rows as [|[idx row] rows IH];
    intros done_rows results Hinv.
  - exists results. by rewrite app_nil_r.
  - destruct (append_row_totals _ _ idx row Hinv) as (results1 & Hstep & Hinv1).
    destruct (IH _ _ Hinv1) as (results' & Hloop & Hinv').
    exists results'. rewrite for_cons, Hstep, bind_ok. split; [done|].
    by rewrite <- app_assoc in Hinv'.
Qed.

Lemma harmonic_bounds p r :
  0 <= p <= 1 → 0 <= r →
  0 <= harmonic p r ∧ (r <= 1 → harmonic p r <= 1).
Proof.
  intros Hp Hr. unfold harmonic.
  destruct (Py.gt (p + r) 0) eqn:E.
  - apply gt_true in E.
    set (f := 2 * (p * r) / (p + r)).
    assert (f * (p + r) == 2 * (p * r)) as Hf by (unfold f; field; lra).
    split; [nra|]. intros Hr1. nra.
  - split; [lra|]. intros _. lra.
Qed.

(** X15: [evaluate_precision_recall] raises no exception.  Every
    per-sample precision and the average precision lie in [[0,1]]; the
    average recall is not negative; the average f1 is not negative, and
    at most 1 when the average recall is.  There is one detailed result per row that
    is not skipped, with the index of that row, in order; and every
    retrieved chunk of such a row is listed once, among the relevant or
    among the irrelevant chunks. *)
Theorem dataset_averages (df : list row) :
  ∃ results,
    evaluate_precision_recall env df = Py.Ok results ∧
    Forall (λ p, 0 <= p <= 1) (precision_scores results) ∧
    0 <= avg_precision results <= 1 ∧
    0 <= avg_recall results ∧
    0 <= avg_f1 results ∧
    (avg_recall results <= 1 → avg_f1 results <= 1) ∧
    row_index <$> detailed_results results
      = fst <$> filter (λ entry, evaluated entry.2) (Py.enumerate df) ∧
    precision <$> detailed_results results = precision_scores results ∧
    recall <$> detailed_results results = recall_scores results ∧
    (length (relevant_chunks results) + length (irrelevant_chunks results)
     = sum_list (retrieved_count <$> detailed_results results))%nat.
Proof.
  destruct (dataset_loop [] (Py.enumerate df) no_results)
    as (results & Hloop & Hp & Hr & Hidx & Hps & Hrs & Hcount).
  { unfold dataset_invariant. simpl. repeat split; done. }
  simpl in Hidx.
  unfold evaluate_precision_recall. rewrite Hloop, bind_ok.
  eexists. split; [reflexivity|].
  cbn [precision_scores recall_scores detailed_results relevant_chunks
       irrelevant_chunks avg_precision avg_recall avg_f1].
  assert (0 <= match precision_scores results with
               | [] => 0
               | _ => Py.mean (precision_scores results)
               end <= 1) as Hap.
  { destruct (precision_scores results) as [|p l] eqn:E; [lra|].
    rewrite <- E in *. apply mean_bounds; [by rewrite E | done]. }
  pose proof (mean_nonneg _ Hr) as Har.
  split; [done|]. split; [done|]. split; [done|].
  split; [by apply harmonic_bounds|]. split; [by apply harmonic_bounds|].
  repeat split; done.
Qed.

End DatasetTotals.

(** ** The relevance vector of NDCG *)

Section RelevanceVectors.
Context `{PyUnicode}.
Import BM25_evaluate.
Local Open Scope Q_scope.

Variable env : Env.
Variable idx : nat.
Variable sample : row.

Local Abbreviation retrieved := (retrieved_contexts sample).
Local Abbreviation reference := (reference_contexts sample).
Local Abbreviation thr := (SIMILARITY_THRESHOLD env).

Hypothesis retrieved_nonempty : retrieved ≠ [].
Hypothesis reference_nonempty : reference ≠ [].

Lemma foldl_collect {A B} (g : A → B) (l : list A) :
  foldl (λ acc x, acc ++ [g x]) [] l = g <$> l.
Proof.
  induction l as [|x l IH] using rev_ind; [done|].
  by rewrite foldl_snoc, IH, fmap_app.
Qed.

Lemma foldl_pointwise {A B} (f g : A → B → A) (l : list B) (a : A) :
  (∀ a x, f a x = g a x) → foldl f a l = foldl g a l.
Proof.
  intros Hfg. revert a. induction l as [|x l IH]; intros a; [done|].
  simpl. by rewrite Hfg, IH.
Qed.

Lemma gt_compat (a a' b : Q) : a == a' → Py.gt a b = Py.gt a' b.
Proof.
  intros E. destruct (Py.gt a' b) eqn:E'.
  - apply gt_true in E'. apply gt_true. lra.
  - apply gt_false in E'. apply gt_false. lra.
Qed.

(** The binary relevance of a retrieved chunk. *)
Definition binary_relevance (chunk : list N) : Q :=
  if Py.gt (running_max (similarities_to_references env reference chunk)) thr
  then 1 else 0.

Lemma relevance_scores_map :
  NDCG_Metrics.calculate_relevance_scores env retrieved reference
  = binary_relevance <$> retrieved.
Proof.
  unfold NDCG_Metrics.calculate_relevance_scores.
  destruct retrieved as [|r l] eqn:Er; [done|].
  destruct reference as [|f l'] eqn:Ef; [done|].
  rewrite <- Er, <- Ef.
  etransitivity; [|apply (foldl_collect binary_relevance)].
  apply foldl_pointwise. intros scores chunk. cbv zeta. unfold binary_relevance.
  unfold running_max, similarities_to_references. by rewrite foldl_fmap.
Qed.

Lemma binary_relevance_row_max chunk :
  Py.gt (running_max (similarities_to_references env reference chunk)) thr
  = Py.gt (row_max (similarities_to_references env reference chunk)) thr.
Proof.
  apply gt_compat, (is_max_of_unique _ _ (similarities_to_references env reference chunk)).
  - apply running_max_is_max; [by apply similarities_nonempty|].
    eapply Forall_impl; [apply (similarities_bounds env sample)|].
    simpl. intros x Hx. lra.
  - apply row_max_is_max. by apply similarities_nonempty.
Qed.

(** X16: the relevance vector of NDCG has one entry per retrieved chunk,
    1 for the chunks that [evaluate_precision_recall] classifies as
    relevant and 0 for those it classifies as irrelevant: both compare the
    largest similarity to a reference chunk with the threshold. *)
Theorem ndcg_relevance_matches_classification :
  ∃ e,
    evaluate_row env idx sample = Py.Ok (Some e) ∧
    length (NDCG_Metrics.calculate_relevance_scores env retrieved reference)
      = length retrieved ∧
    ∀ i,
      (NDCG_Metrics.calculate_relevance_scores env retrieved reference !! i = Some 1
       ↔ i ∈ relevant_indices e) ∧
      (NDCG_Metrics.calculate_relevance_scores env retrieved reference !! i = Some 0
       ↔ i ∈ irrelevant_indices e).
Proof.
  destruct (evaluate_row_ok env idx sample retrieved_nonempty reference_nonempty)
    as (e & He & Hrel & _ & Hirr & _).
  exists e. split; [done|]. rewrite relevance_scores_map, length_fmap.
  split; [done|]. intros i. rewrite Hrel, Hirr, !list_elem_of_filter, !elem_of_seq.
  rewrite list_lookup_fmap.
  destruct (retrieved !! i) as [chunk|] eqn:Ei; simpl.
  - pose proof (lookup_lt_Some _ _ _ Ei) as Hlt.
    rewrite (rm_lookup env sample i chunk Ei).
    unfold binary_relevance. rewrite binary_relevance_row_max.
    destruct (Py.gt _ thr); split; split; try done; try lia;
      intros [? ?]; done.
  - apply lookup_ge_None in Ei. split; split; try done; intros [_ ?]; lia.
Qed.

End RelevanceVectors.

(** ** Positive NDCG *)

Section GainProperties.
Import NDCG_Metrics.
Local Open Scope R_scope.

Lemma ones_pos_iff l : (0 < ones l)%nat ↔ ∃ r, r ∈ l ∧ (r == 1)%Q.
Proof.
  unfold ones. split.
  - intros Hpos. destruct (filter _ l) as [|r l'] eqn:E; [simpl in Hpos; lia|].
    assert (r ∈ filter (λ r, Qeq_bool r 1 = true) l) as Hin by (rewrite E; by left).
    apply list_elem_of_filter in Hin as [Hr Hin]. exists r. split; [done|].
    by apply Qeq_bool_iff.
  - intros (r & Hin & Hr).
    assert (r ∈ filter (λ r, Qeq_bool r 1 = true) l) as Hf.
    { apply list_elem_of_filter. split; [by apply Qeq_bool_iff | done]. }
    destruct (filter _ l); [by apply elem_of_nil in Hf | simpl; lia].
Qed.

Lemma reversed_sum_pos l : binary l → (0 < ones l)%nat → 0 < reversed_sum l.
Proof.
  induction 1 as [|x l Hx Hl IH]; [unfold ones; simpl; lia|].
  rewrite ones_cons.
  change (reversed_sum (x :: l))
    with (gain x / log2 (INR (S (length l)) + 1) + reversed_sum l).
  pose proof (reversed_sum_bounds l Hl) as [Hge _].
  destruct (binary_cases x Hx) as [[-> ->]|[-> ->]].
  - intros Hpos. specialize (IH Hpos). unfold Rdiv. rewrite Rmult_0_l. lra.
  - intros _. pose proof (discount_pos (length l)) as Hp. unfold discount in Hp. lra.
Qed.

Lemma ones_zero_iff l : binary l → ones l = 0%nat ↔ Forall (λ r, r == 0)%Q l.
Proof.
  induction 1 as [|x l Hx Hl IH]; [done|].
  rewrite Forall_cons, ones_cons, <- IH.
  destruct Hx as [Hx|Hx].
  - assert (Qeq_bool x 1 = false) as ->.
    { destruct (Qeq_bool x 1) eqn:E; [|done]. apply Qeq_bool_iff in E.
      rewrite Hx in E. discriminate E. }
    simpl. tauto.
  - assert (Qeq_bool x 1 = true) as -> by (by apply Qeq_bool_iff).
    split; [intros E; simpl in E; lia|].
    intros [Hx0 _]. rewrite Hx in Hx0. discriminate Hx0.
Qed.

Lemma calculate_idcg_ones l : binary l → calculate_idcg l = top_discounts 0 (ones l).
Proof.
  intros Hb. destruct (sorted_reverse_spec l) as [Hperm Hsorted].
  rewrite calculate_idcg_sum, forward_sum_sorted; [| |done].
  - unfold ones. by rewrite Hperm.
  - unfold binary. by rewrite Hperm.
Qed.

Lemma calculate_dcg_reversed l : calculate_dcg l = reversed_sum l.
Proof. rewrite calculate_dcg_sum. by apply indexed_sum_reversed. Qed.

End GainProperties.

Section RankedGain.
Context `{PyUnicode}.
Import BM25_evaluate NDCG_Metrics.
Local Open Scope R_scope.

Lemma calculate_ndcg_unfold env query retrieved reference :
  retrieved ≠ [] → reference ≠ [] →
  (calculate_ndcg env query retrieved reference).1
  = (if bool_decide
          (0 < calculate_idcg (calculate_relevance_scores env retrieved reference))
     then calculate_dcg (calculate_relevance_scores env retrieved reference)
          / calculate_idcg (calculate_relevance_scores env retrieved reference)
     else 0) ∧
  relevance_scores (calculate_ndcg env query retrieved reference).2
  = calculate_relevance_scores env retrieved reference.
Proof. intros Hr Hf. destruct retrieved; [done|]. by destruct reference. Qed.

Lemma calculate_ndcg_scores env query retrieved reference :
  relevance_scores (calculate_ndcg env query retrieved reference).2
  = calculate_relevance_scores env retrieved reference.
Proof. destruct retrieved; [done|]. by destruct reference. Qed.

(** X17: the NDCG of a query is positive exactly when some retrieved
    chunk is relevant, that is when the relevance vector has an entry 1;
    otherwise it is 0. *)
Theorem ndcg_positive_iff_relevant env query retrieved reference :
  (0 < (calculate_ndcg env query retrieved reference).1 ↔
   ∃ r, r ∈ relevance_scores (calculate_ndcg env query retrieved reference).2
        ∧ (r == 1)%Q) ∧
  ((calculate_ndcg env query retrieved reference).1 = 0 ↔
   Forall (λ r, r == 0)%Q
     (relevance_scores (calculate_ndcg env query retrieved reference).2)).
Proof.
  rewrite calculate_ndcg_scores.
  pose proof (relevance_scores_binary env retrieved reference) as Hb.
  rewrite <- ones_pos_iff, <- (ones_zero_iff _ Hb).
  destruct (decide (retrieved = [])) as [->|Hr].
  { simpl. unfold ones. simpl. split; [split; [lra | lia] | done]. }
  destruct (decide (reference = [])) as [->|Hf].
  { destruct retrieved; [done|]. simpl. unfold ones. simpl.
    split; [split; [lra | lia] | done]. }
  destruct (calculate_ndcg_unfold env query retrieved reference Hr Hf) as [-> _].
  set (l := calculate_relevance_scores env retrieved reference) in *.
  pose proof (calculate_idcg_ones l Hb) as Hidcg.
  pose proof (calculate_dcg_bounds l Hb) as Hbounds.
  rewrite calculate_dcg_reversed in *.
  destruct (decide (0 < ones l)%nat) as [Hpos|Hzero].
  - pose proof (reversed_sum_pos l Hb Hpos) as Hdcg.
    rewrite bool_decide_eq_true_2 by lra.
    assert (0 < reversed_sum l / calculate_idcg l) as Hq
      by (apply Rdiv_lt_0_compat; lra).
    split; [done|]. split; [lra | lia].
  - assert (ones l = 0%nat) as Ez by lia. rewrite Ez in *. simpl in Hidcg.
    rewrite bool_decide_eq_false_2 by lra. split; [split; [lra | lia] | done].
Qed.

End RankedGain.

(** ** The average NDCG *)

Section MeanGain.
Context `{PyUnicode}.
Import BM25_evaluate NDCG_Metrics.
Local Open Scope R_scope.

Lemma calculate_ndcg_nonneg env query retrieved reference :
  0 <= (calculate_ndcg env query retrieved reference).1.
Proof.
  pose proof (calculate_dcg_bounds _ (relevance_scores_binary env retrieved reference))
    as Hb.
  unfold calculate_ndcg.
  destruct retrieved as [|r retrieved'] eqn:Er; [simpl; lra|].
  destruct reference as [|f reference'] eqn:Ef; [simpl; lra|].
  cbv beta iota zeta delta [fst]. destruct (bool_decide _) eqn:E; [|lra].
  apply bool_decide_eq_true in E.
  apply Rmult_le_pos; [lra|]. left. by apply Rinv_0_lt_compat.
Qed.

Lemma rsum_snoc l x : Py.rsum (l ++ [x]) = Py.rsum l + x.
Proof. unfold Py.rsum. by rewrite foldl_snoc. Qed.

Lemma rsum_nonneg l : Forall (λ x, 0 <= x) l → 0 <= Py.rsum l.
Proof.
  induction l as [|x l IH] using rev_ind; intros Hall.
  - unfold Py.rsum. simpl. lra.
  - rewrite Forall_app, Forall_singleton in Hall. destruct Hall as [Hall Hx].
    specialize (IH Hall). rewrite rsum_snoc. lra.
Qed.

Lemma rmean_nonneg l : l ≠ [] → Forall (λ x, 0 <= x) l → 0 <= Py.rmean l.
Proof.
  intros Hne Hall. pose proof (rsum_nonneg l Hall) as Hs.
  assert (0 < INR (length l)) as Hlen.
  { apply lt_0_INR. destruct l; [done | simpl; lia]. }
  unfold Py.rmean.
  apply Rmult_le_pos; [lra|]. left. by apply Rinv_0_lt_compat.
Qed.

(** What the loop over the rows keeps true of [results], after the rows
    [rows]. *)
Definition ndcg_invariant (rows : list row) (results : ndcg_results) : Prop :=
  length (ndcg_scores results) = length rows ∧
  total_queries results = length rows ∧
  Forall (λ x, 0 <= x) (ndcg_scores results) ∧
  queries_with_relevant_chunks results
    = length (filter (λ x, 0 < x) (ndcg_scores results)) ∧
  (queries_with_relevant_chunks results + queries_without_relevant_chunks results
   = length rows)%nat ∧
  (∀ i row, rows !! i = Some row →
     retrieved_contexts row = [] ∨ reference_contexts row = [] →
     ndcg_scores results !! i = Some 0).

Lemma evaluate_ndcg_row_ok env rows results idx row :
  ndcg_invariant rows results →
  ndcg_invariant (rows ++ [row]) (evaluate_ndcg_row env results (idx, row)).
Proof.
  intros (Hlen & Htot & Hall & Hwith & Hsum & Hskip).
  assert (∀ x results',
    ndcg_scores results' = ndcg_scores results ++ [x] →
    total_queries results' = (total_queries results + 1)%nat →
    0 <= x →
    queries_with_relevant_chunks results'
      = (if bool_decide (0 < x)%R then queries_with_relevant_chunks results + 1
         else queries_with_relevant_chunks results)%nat →
    queries_without_relevant_chunks results'
      = (if bool_decide (0 < x)%R then queries_without_relevant_chunks results
         else queries_without_relevant_chunks results + 1)%nat →
    (retrieved_contexts row = [] ∨ reference_contexts row = [] → x = 0) →
    ndcg_invariant (rows ++ [row]) results') as Hstep.
  { intros x results' Hx Ht Hb Hw Hwo Hz. unfold ndcg_invariant.
    rewrite Hx, Ht, Hw, Hwo, !length_app, filter_app, length_app. simpl.
    split; [lia|]. split; [lia|]. split.
    { apply Forall_app. split; [done|]. by apply Forall_singleton. }
    assert (∀ i row', (rows ++ [row]) !! i = Some row' →
              retrieved_contexts row' = [] ∨ reference_contexts row' = [] →
              (ndcg_scores results ++ [x]) !! i = Some 0) as Hskip'.
    { intros i row' Hi Hempty.
      destruct (decide (i < length rows)%nat) as [Hlt|Hge].
      - rewrite lookup_app_l in Hi by done. rewrite lookup_app_l by lia.
        by apply (Hskip i row').
      - rewrite lookup_app_r in Hi by lia.
        destruct (i - length rows)%nat eqn:Ei; simpl in Hi; [|done].
        injection Hi as <-. rewrite lookup_app_r by lia.
        replace (i - length (ndcg_scores results))%nat with 0%nat by lia.
        simpl. by rewrite (Hz Hempty). }
    destruct (bool_decide (0 < x)) eqn:E.
    - apply bool_decide_eq_true in E.
      rewrite (filter_cons_True _ x []) by done. simpl.
      split; [lia|]. split; [lia | done].
    - apply bool_decide_eq_false in E.
      rewrite (filter_cons_False _ x []) by done. simpl.
      split; [lia|]. split; [lia | done]. }
  unfold evaluate_ndcg_row. cbv zeta.
  destruct (retrieved_contexts row) as [|r retrieved'] eqn:Er.
  { apply (Hstep 0); try done; try lra;
      by rewrite bool_decide_eq_false_2 by lra. }
  destruct (reference_contexts row) as [|f reference'] eqn:Ef.
  { apply (Hstep 0); try done; try lra;
      by rewrite bool_decide_eq_false_2 by lra. }
  pose proof (calculate_ndcg_nonneg env (user_input row) (r :: retrieved') (f :: reference'))
    as Hb.
  destruct (calculate_ndcg env (user_input row) (r :: retrieved') (f :: reference'))
    as [x details].
  apply (Hstep x); try done. intros [?|?]; done.
Qed.

Lemma evaluate_ndcg_loop env (done_rows rows : list (nat * row)) results :
  ndcg_invariant done_rows.*2 results →
  ndcg_invariant (done_rows ++ rows).*2 (foldl (evaluate_ndcg_row env) results rows).
Proof.
  revert done_rows results. induction rows as [|[idx row] rows IH];
    intros done_rows results Hinv.
  - by rewrite app_nil_r.
  - simpl. pose proof (evaluate_ndcg_row_ok env _ _ idx row Hinv) as Hinv1.
    specialize (IH (done_rows ++ [(idx, row)])
                  (evaluate_ndcg_row env results (idx, row))).
    rewrite fmap_app in IH. specialize (IH Hinv1).
    by rewrite <- app_assoc in IH.
Qed.

(** X18: [evaluate_ndcg] records one NDCG per row, not negative, and 0
    for a row without retrieved or without reference chunks; the two
    counters add up to the number of rows, the first counting the positive
    values; and the average NDCG is not negative. *)
Theorem evaluate_ndcg_totals env (df : list row) :
  length (ndcg_scores (evaluate_ndcg env df)) = length df ∧
  total_queries (evaluate_ndcg env df) = length df ∧
  Forall (λ x, 0 <= x) (ndcg_scores (evaluate_ndcg env df)) ∧
  queries_with_relevant_chunks (evaluate_ndcg env df)
    = length (filter (λ x, 0 < x) (ndcg_scores (evaluate_ndcg env df))) ∧
  (queries_with_relevant_chunks (evaluate_ndcg env df)
   + queries_without_relevant_chunks (evaluate_ndcg env df) = length df)%nat ∧
  (∀ i row, df !! i = Some row →
     retrieved_contexts row = [] ∨ reference_contexts row = [] →
     ndcg_scores (evaluate_ndcg env df) !! i = Some 0) ∧
  0 <= avg_ndcg (evaluate_ndcg env df).
Proof.
  pose proof (evaluate_ndcg_loop env [] (Py.enumerate df) no_ndcg_results) as Hinv.
  simpl in Hinv. rewrite enumerate_snd in Hinv.
  destruct Hinv as (Hlen & Htot & Hall & Hwith & Hsum & Hskip).
  { unfold ndcg_invariant. simpl. repeat split; try done. }
  unfold evaluate_ndcg.
  cbn [ndcg_scores total_queries queries_with_relevant_chunks
       queries_without_relevant_chunks avg_ndcg].
  repeat (split; [done|]).
  destruct (ndcg_scores _) as [|x l] eqn:E; [lra|].
  rewrite <- E in *. apply rmean_nonneg; [by rewrite E | done].
Qed.

End MeanGain.

(** ** Average precision *)

Section AveragePrecision.
Context `{PyUnicode}.
Import BM25_evaluate MAP_Metrics.
Local Open Scope Q_scope.

Variable env : Env.
Variable query : list N.

(** The entry of [chunk_relevance_scores] for the retrieved chunk at
    index [i] of [n]. *)
Definition chunk_info (relevant_chunks : list (list N)) (n i : nat)
    (retrieved_chunk : list N) : chunk_relevance :=
  {| position := n - i;
     relevance_score := max_relevance env relevant_chunks retrieved_chunk;
     is_relevant :=
       Py.gt (max_relevance env relevant_chunks retrieved_chunk)
         (SIMILARITY_THRESHOLD env) |}.

Lemma chunk_infos_imap relevant_chunks (n : nat) (l : list (list N)) :
  foldl (λ chunk_relevance_scores '(i, retrieved_chunk),
    let max_relevance := max_relevance env relevant_chunks retrieved_chunk in
    let position := (n - i)%nat in
    chunk_relevance_scores ++
      [{| position := position; relevance_score := max_relevance;
          is_relevant := Py.gt max_relevance (SIMILARITY_THRESHOLD env) |}])
    [] (Py.enumerate l)
  = imap (chunk_info relevant_chunks n) l.
Proof.
  induction l as [|c l IH] using rev_ind; [done|].
  rewrite enumerate_snoc, foldl_snoc, IH, imap_app. simpl.
  by rewrite Nat.add_0_r.
Qed.

(** *** The loop that sums the precisions *)

Definition ap_invariant (infos : list chunk_relevance) (st : ap_state) : Prop :=
  relevant_count st = length (filter (λ info, is_relevant info = true) infos) ∧
  length (precisions st) = relevant_count st ∧
  length (positions st) = relevant_count st ∧
  0 <= precision_sum st ∧
  ((0 < relevant_count st)%nat → 0 < precision_sum st) ∧
  precision_sum st <= Py.float (relevant_count st) * Py.float (relevant_count st).

Lemma add_precision_ok infos st info :
  (1 ≤ position info)%nat → ap_invariant infos st →
  ∃ st', add_precision st info = Py.Ok st' ∧ ap_invariant (infos ++ [info]) st' ∧
    (is_relevant info = true →
     precision_sum st'
       = precision_sum st
         + Py.float (relevant_count st + 1) / Py.float (position info)).
Proof.
  intros Hpos (Hcount & Hlp & Hlq & Hge & Hgt & Hle).
  unfold add_precision, ap_invariant. rewrite filter_app, length_app.
  destruct (is_relevant info) eqn:Erel.
  - rewrite (filter_cons_True _ info []) by done. cbv zeta.
    pose proof (float_pos (position info) Hpos) as Hp.
    assert (1 <= Py.float (position info)) as Hp1.
    { change 1 with (Py.float 1). by apply float_le. }
    unfold Py.truediv.
    destruct (Qeq_bool (Py.float (position info)) 0) eqn:E;
      [apply Qeq_bool_iff in E; lra|].
    rewrite bind_ok. eexists. split; [done|]. simpl.
    rewrite !length_app. simpl.
    pose proof (float_S (relevant_count st)) as HS.
    pose proof (float_nonneg (relevant_count st)) as Hc.
    replace (relevant_count st + 1)%nat with (S (relevant_count st)) by lia.
    set (c := Py.float (relevant_count st)) in *.
    set (c' := Py.float (S (relevant_count st))) in *.
    set (p := Py.float (position info)) in *.
    assert (0 < c' / p) as Hterm by (apply Qlt_shift_div_l; lra).
    assert (c' / p <= c') as Hterm'.
    { apply Qle_shift_div_r; [lra|]. nra. }
    split; [|done]. split; [lia|]. split; [lia|]. split; [lia|].
    split; [lra|]. split; [intros _; lra|]. nra.
  - rewrite (filter_cons_False _ info []) by congruence. simpl.
    rewrite Nat.add_0_r. exists st. split; [done|]. split; [done|]. done.
Qed.

Lemma add_precision_loop infos :
  Forall (λ info, (1 ≤ position info)%nat) infos →
  ∃ st,
    Py.for_ infos
      {| relevant_count := 0; precision_sum := 0; precisions := []; positions := [] |}
      add_precision = Py.Ok st ∧
    ap_invariant infos st.
Proof.
  induction infos as [|info infos IH] using rev_ind; intros Hall.
  - eexists. split; [reflexivity|]. unfold ap_invariant. simpl.
    repeat split; try done; try lra. lia.
  - rewrite Forall_app, Forall_singleton in Hall. destruct Hall as [Hall Hinfo].
    destruct (IH Hall) as (st & Hst & Hinv).
    destruct (add_precision_ok infos st info Hinfo Hinv) as (st' & Hst' & Hinv' & _).
    exists st'. by rewrite for_snoc, Hst, bind_ok.
Qed.

Lemma chunk_infos_positions relevant_chunks (l : list (list N)) (n : nat) :
  (length l ≤ n)%nat →
  Forall (λ info, (1 ≤ position info)%nat) (imap (chunk_info relevant_chunks n) l).
Proof.
  intros Hn. apply Forall_lookup. intros i info Hi.
  rewrite list_lookup_imap in Hi.
  destruct (l !! i) as [c|] eqn:Ec; [|done]. apply lookup_lt_Some in Ec.
  simpl in Hi. injection Hi as <-. simpl. lia.
Qed.

Lemma max_relevance_hit relevant_chunks chunk :
  relevant_chunks ≠ [] →
  Py.gt (max_relevance env relevant_chunks chunk) (SIMILARITY_THRESHOLD env) = true ↔
  ∃ ref, ref ∈ relevant_chunks ∧
    SIMILARITY_THRESHOLD env < calculate_relevance_score env chunk ref.
Proof.
  intros Hne. rewrite gt_true.
  assert (max_relevance env relevant_chunks chunk
          = foldl (λ m x, if Py.gt x m then x else m) 0
              (calculate_relevance_score env chunk <$> relevant_chunks)) as ->.
  { unfold max_relevance. by rewrite foldl_fmap. }
  pose proof (running_max_from 0
                (calculate_relevance_score env chunk <$> relevant_chunks)) as Hrm.
  cbv zeta in Hrm. set (m := foldl _ 0 _) in *.
  destruct Hrm as (Hge & Hall & Hex).
  split.
  - intros Hlt. destruct Hex as [Hm|Hm].
    + destruct relevant_chunks as [|ref l]; [done|]. exists ref. split; [by left|].
      pose proof (relevance_score_bounds env chunk ref). rewrite Hm in Hlt. lra.
    + apply list_elem_of_fmap in Hm as (ref & Hm & Hin). exists ref. split; [done|].
      by rewrite <- Hm.
  - intros (ref & Hin & Hlt).
    assert (calculate_relevance_score env chunk ref <= m).
    { apply Hall, list_elem_of_fmap. by exists ref. }
    lra.
Qed.

Lemma calculate_average_precision_unfold retrieved reference relevant_chunks :
  get_relevant_chunks_for_query query reference = Py.Ok relevant_chunks →
  relevant_chunks ≠ [] → retrieved ≠ [] →
  calculate_average_precision env query retrieved reference =
  (st ← Py.for_ (imap (chunk_info relevant_chunks (length retrieved)) retrieved)
          {| relevant_count := 0; precision_sum := 0; precisions := [];
             positions := [] |}
          add_precision;
   average_precision ←
     (if (0 <? relevant_count st)%nat
      then Py.truediv (precision_sum st) (Py.float (relevant_count st))
      else Py.Ok 0);
   Py.Ok (average_precision,
          {| precision_at_k := precisions st; relevant_positions := positions st;
             chunk_relevance_scores :=
               imap (chunk_info relevant_chunks (length retrieved)) retrieved;
             total_relevant := relevant_count st;
             total_retrieved := length retrieved |})).
Proof.
  intros Hrel Hne Hret. unfold calculate_average_precision.
  rewrite Hrel, bind_ok.
  destruct relevant_chunks as [|ref l] eqn:E; [done|].
  destruct retrieved as [|r retrieved'] eqn:E'; [done|].
  rewrite <- E, <- E'. cbv zeta. by rewrite chunk_infos_imap.
Qed.

Lemma candidate_iff retrieved reference relevant_chunks i :
  relevant_chunks ≠ [] →
  (∀ chunk, chunk ∈ relevant_chunks ↔ chunk ∈ reference ∧ bm25_qualifies query chunk) →
  rank_candidate env query retrieved reference i ↔
  ∃ info,
    imap (chunk_info relevant_chunks (length retrieved)) retrieved !! i = Some info ∧
    is_relevant info = true.
Proof.
  intros Hne Hspec. rewrite list_lookup_imap. unfold rank_candidate. split.
  - intros (chunk & ref & Hi & Href & Hq & Hlt). rewrite Hi. simpl. eexists.
    split; [done|]. simpl. apply max_relevance_hit; [done|].
    exists ref. split; [|done]. apply Hspec. done.
  - intros (info & Hi & Hrel).
    destruct (retrieved !! i) as [chunk|]; [|done]. simpl in Hi. injection Hi as <-.
    simpl in Hrel. apply max_relevance_hit in Hrel as (ref & Href & Hlt); [|done].
    apply Hspec in Href as [Href Hq]. by exists chunk, ref.
Qed.

Lemma filter_pos_iff {A} (P : A → Prop) `{!∀ x, Decision (P x)} (l : list A) :
  (0 < length (filter P l))%nat ↔ ∃ i x, l !! i = Some x ∧ P x.
Proof.
  split.
  - intros Hpos. destruct (filter P l) as [|x l'] eqn:E; [simpl in Hpos; lia|].
    assert (x ∈ filter P l) as Hin by (rewrite E; by left).
    apply list_elem_of_filter in Hin as [Hx [i Hi]%list_elem_of_lookup_1].
    by exists i, x.
  - intros (i & x & Hi & Hx).
    assert (x ∈ filter P l) as Hin.
    { apply list_elem_of_filter. split; [done|]. by eapply list_elem_of_lookup_2. }
    destruct (filter P l); [by apply elem_of_nil in Hin | simpl; lia].
Qed.

Lemma relevant_chunks_of_query reference :
  ∃ relevant_chunks,
    get_relevant_chunks_for_query query reference = Py.Ok relevant_chunks ∧
    ∀ chunk, chunk ∈ relevant_chunks ↔ chunk ∈ reference ∧ bm25_qualifies query chunk.
Proof. exact (get_relevant_chunks_ok query reference). Qed.

Lemma no_candidate_without_reference retrieved reference i :
  (∀ chunk, chunk ∈ [] ↔ chunk ∈ reference ∧ bm25_qualifies query chunk) →
  ¬ rank_candidate env query retrieved reference i.
Proof.
  intros Hspec (chunk & ref & _ & Href & Hq & _).
  assert (ref ∈ ([] : list (list N))) as Hin by (by apply Hspec).
  by apply elem_of_nil in Hin.
Qed.

Lemma average_precision_spec retrieved reference :
  ∃ ap details,
    calculate_average_precision env query retrieved reference = Py.Ok (ap, details) ∧
    length (precision_at_k details) = total_relevant details ∧
    length (relevant_positions details) = total_relevant details ∧
    (total_relevant details ≤ length retrieved)%nat ∧
    0 <= ap <= Py.float (total_relevant details) ∧
    (0 < ap ↔ ∃ i, rank_candidate env query retrieved reference i).
Proof.
  destruct (relevant_chunks_of_query reference) as (relevant & Hrel & Hspec).
  destruct (decide (relevant = [])) as [->|Hne].
  { unfold calculate_average_precision. rewrite Hrel, bind_ok.
    eexists _, _. split; [reflexivity|].
    cbn [precision_at_k relevant_positions total_relevant length].
    pose proof (float_nonneg 0).
    split; [done|]. split; [done|]. split; [lia|]. split; [lra|]. split; [lra|].
    intros [i Hi]. by apply no_candidate_without_reference in Hi. }
  destruct (decide (retrieved = [])) as [->|Hret].
  { unfold calculate_average_precision. rewrite Hrel, bind_ok.
    destruct relevant; [done|].
    eexists _, _. split; [reflexivity|].
    cbn [precision_at_k relevant_positions total_relevant length].
    pose proof (float_nonneg 0).
    split; [done|]. split; [done|]. split; [lia|]. split; [lra|]. split; [lra|].
    intros (i & chunk & ref & Hi & _). done. }
  rewrite (calculate_average_precision_unfold _ _ _ Hrel Hne Hret).
  destruct (add_precision_loop
              (imap (chunk_info relevant (length retrieved)) retrieved))
    as (st & -> & Hcount & Hlp & Hlq & Hge & Hgt & Hle).
  { by apply chunk_infos_positions. }
  rewrite bind_ok.
  assert ((0 < relevant_count st)%nat ↔
          ∃ i, rank_candidate env query retrieved reference i) as Hcand.
  { rewrite Hcount, filter_pos_iff. split.
    - intros (i & info & Hi & Hr). exists i.
      apply (candidate_iff _ _ relevant); [done..|]. by exists info.
    - intros (i & Hi). apply (candidate_iff _ _ relevant) in Hi as (info & Hi & Hr);
        [|done..]. by exists i, info. }
  assert (relevant_count st ≤ length retrieved)%nat as Hbound.
  { rewrite Hcount. etransitivity; [apply length_filter|]. by rewrite length_imap. }
  destruct (0 <? relevant_count st)%nat eqn:E.
  - apply Nat.ltb_lt in E. pose proof (float_pos _ E) as Hc. specialize (Hgt E).
    unfold Py.truediv.
    destruct (Qeq_bool (Py.float (relevant_count st)) 0) eqn:E0;
      [apply Qeq_bool_iff in E0; lra|].
    rewrite bind_ok. eexists _, _. split; [reflexivity|]. simpl.
    split; [done|]. split; [done|]. split; [done|].
    assert (0 < precision_sum st / Py.float (relevant_count st)) as Hap
      by (apply Qlt_shift_div_l; lra).
    split; [split; [lra|]|].
    + apply Qle_shift_div_r; [done|]. lra.
    + split; [intros _; by apply Hcand | done].
  - apply Nat.ltb_ge in E. rewrite bind_ok. eexists _, _. split; [reflexivity|]. simpl.
    split; [done|]. split; [done|]. split; [done|].
    pose proof (float_nonneg (relevant_count st)).
    split; [lra|]. split; [lra|]. intros Hi%Hcand. lia.
Qed.

(** X20: [calculate_average_precision] raises no exception; the average
    precision is at least 0 and at most the number of relevant retrieved
    chunks, which is at most the number of retrieved chunks; and it is
    positive exactly when some retrieved chunk is similar, above the
    threshold, to a reference chunk that passes the BM25 filter. *)
Theorem average_precision_bounds retrieved reference :
  ∃ ap details,
    calculate_average_precision env query retrieved reference = Py.Ok (ap, details) ∧
    length (precision_at_k details) = total_relevant details ∧
    length (relevant_positions details) = total_relevant details ∧
    (total_relevant details ≤ length retrieved)%nat ∧
    0 <= ap <= Py.float (total_relevant details) ∧
    (0 < ap ↔ ∃ i, rank_candidate env query retrieved reference i).
Proof. apply average_precision_spec. Qed.


(** X21: when the last retrieved chunk is a relevant one, the average
    precision is at least 1, and above 1 as soon as another retrieved
    chunk is relevant as well: the precision recorded for a relevant
    chunk is the count of relevant chunks so far divided by its reversed
    position, which is 1 for the last chunk. *)
Theorem average_precision_above_one retrieved reference :
  rank_candidate env query retrieved reference (length retrieved - 1) →
  ∃ ap details,
    calculate_average_precision env query retrieved reference = Py.Ok (ap, details) ∧
    1 <= ap ∧
    ((2 ≤ total_relevant details)%nat → 1 < ap).
Proof.
  intros Hlast.
  destruct (relevant_chunks_of_query reference) as (relevant & Hrel & Hspec).
  destruct (decide (relevant = [])) as [->|Hne].
  { by apply no_candidate_without_reference in Hlast. }
  assert (retrieved ≠ []) as Hret.
  { intros ->. by destruct Hlast as (chunk & ref & Hi & _). }
  destruct (proj1 (candidate_iff _ _ relevant _ Hne Hspec) Hlast)
    as (info & Hinfo & Hinfo_rel).
  rewrite (calculate_average_precision_unfold _ _ _ Hrel Hne Hret).
  destruct retrieved as [|last pre _] using rev_ind; [done|].
  rewrite length_app in *. simpl in *.
  replace (length pre + 1 - 1)%nat with (length pre) in Hinfo by lia.
  rewrite imap_app in *. simpl in *.
  rewrite lookup_app_r in Hinfo by (by rewrite length_imap).
  rewrite length_imap, Nat.sub_diag, Nat.add_0_r in Hinfo. simpl in Hinfo.
  injection Hinfo as <-.
  destruct (add_precision_loop
              (imap (chunk_info relevant (length pre + 1)) pre))
    as (st & Hst & Hinv).
  { apply chunk_infos_positions. lia. }
  pose proof Hinv as (Hcount & _ & _ & Hge & Hgt & _).
  rewrite Nat.add_0_r.
  destruct (add_precision_ok _ st
              (chunk_info relevant (length pre + 1) (length pre) last)
              ltac:(simpl; lia) Hinv)
    as (st' & Hst' & (Hcount' & _) & Hsum).
  specialize (Hsum Hinfo_rel).
  rewrite for_snoc, Hst, bind_ok, Hst', bind_ok.
  assert (relevant_count st' = relevant_count st + 1)%nat as Hc'.
  { rewrite Hcount', Hcount, filter_app, length_app.
    by rewrite (filter_cons_True _ _ []) by done. }
  replace (position (chunk_info relevant (length pre + 1) (length pre) last))
    with 1%nat in Hsum by (simpl; lia).
  pose proof (float_pos (relevant_count st + 1) ltac:(lia)) as Hpos.
  rewrite <- Hc' in Hsum, Hpos.
  assert ((0 <? relevant_count st')%nat = true) as -> by (apply Nat.ltb_lt; lia).
  unfold Py.truediv.
  destruct (Qeq_bool (Py.float (relevant_count st')) 0) eqn:E0;
    [apply Qeq_bool_iff in E0; lra|].
  rewrite bind_ok. eexists _, _. split; [reflexivity|]. simpl.
  assert (Py.float (relevant_count st') / Py.float 1 == Py.float (relevant_count st'))
    as Hone by (change (Py.float 1) with 1; field).
  rewrite Hsum. split.
  - apply Qle_shift_div_l; [done|]. rewrite Hone. lra.
  - intros Htwo. apply Qlt_shift_div_l; [done|]. rewrite Hone.
    assert (0 < relevant_count st)%nat as Hprev by lia. specialize (Hgt Hprev). lra.
Qed.

End AveragePrecision.

(** ** The mean average precision *)

Section MeanAveragePrecision.
Context `{PyUnicode}.
Import BM25_evaluate MAP_Metrics.
Local Open Scope Q_scope.

(** What the loop over the rows keeps true of [results], after the rows
    [rows]. *)
Definition map_invariant (rows : list row) (results : map_results) : Prop :=
  length (average_precisions results) = length rows ∧
  total_queries results = length rows ∧
  Forall (λ ap, 0 <= ap) (average_precisions results) ∧
  queries_with_relevant_chunks results
    = length (filter (λ ap, Py.gt ap 0 = true) (average_precisions results)) ∧
  (queries_with_relevant_chunks results + queries_without_relevant_chunks results
   = length rows)%nat ∧
  (∀ i row, rows !! i = Some row →
     ∃ ap, average_precisions results !! i = Some ap ∧
       ap <= Py.float (length (retrieved_contexts row)) ∧
       (retrieved_contexts row = [] ∨ reference_contexts row = [] → ap = 0)).

Lemma evaluate_map_row_ok env rows results idx row :
  map_invariant rows results →
  ∃ results',
    evaluate_map_row env results (idx, row) = Py.Ok results' ∧
    map_invariant (rows ++ [row]) results'.
Proof.
  intros (Hlen & Htot & Hall & Hwith & Hsum & Hrows).
  assert (∀ ap results',
    average_precisions results' = average_precisions results ++ [ap] →
    total_queries results' = (total_queries results + 1)%nat →
    0 <= ap <= Py.float (length (retrieved_contexts row)) →
    queries_with_relevant_chunks results'
      = (if Py.gt ap 0 then queries_with_relevant_chunks results + 1
         else queries_with_relevant_chunks results)%nat →
    queries_without_relevant_chunks results'
      = (if Py.gt ap 0 then queries_without_relevant_chunks results
         else queries_without_relevant_chunks results + 1)%nat →
    (retrieved_contexts row = [] ∨ reference_contexts row = [] → ap = 0) →
    map_invariant (rows ++ [row]) results') as Hstep.
  { intros ap results' Hap Ht Hb Hw Hwo Hz. unfold map_invariant.
    rewrite Hap, Ht, Hw, Hwo, !length_app, filter_app, length_app. simpl.
    split; [lia|]. split; [lia|]. split.
    { apply Forall_app. split; [done|]. apply Forall_singleton. lra. }
    assert (∀ i row', (rows ++ [row]) !! i = Some row' →
              ∃ ap', (average_precisions results ++ [ap]) !! i = Some ap' ∧
                ap' <= Py.float (length (retrieved_contexts row')) ∧
                (retrieved_contexts row' = [] ∨ reference_contexts row' = [] →
                 ap' = 0)) as Hrows'.
    { intros i row' Hi.
      destruct (decide (i < length rows)%nat) as [Hlt|Hge].
      - rewrite lookup_app_l in Hi by done. rewrite lookup_app_l by lia.
        by apply (Hrows i row').
      - rewrite lookup_app_r in Hi by lia.
        destruct (i - length rows)%nat eqn:Ei; simpl in Hi; [|done].
        injection Hi as <-. rewrite lookup_app_r by lia.
        replace (i - length (average_precisions results))%nat with 0%nat by lia.
        simpl. exists ap. split; [done|]. split; [lra | done]. }
    destruct (Py.gt ap 0) eqn:E.
    - rewrite (filter_cons_True _ ap []) by done. simpl.
      split; [lia|]. split; [lia | done].
    - rewrite (filter_cons_False _ ap []) by congruence. simpl.
      split; [lia|]. split; [lia | done]. }
  unfold evaluate_map_row. cbv zeta.
  destruct (retrieved_contexts row) as [|r retrieved'] eqn:Er.
  { eexists. split; [done|].
    apply (Hstep 0); try done; split; try lra; apply float_nonneg. }
  destruct (reference_contexts row) as [|f reference'] eqn:Ef.
  { eexists. split; [done|].
    apply (Hstep 0); try done; split; try lra; apply float_nonneg. }
  destruct (average_precision_spec env (user_input row) (r :: retrieved') (f :: reference'))
    as (ap & details & -> & _ & _ & Hle & Hb & _).
  destruct (relevant_chunks_of_query (user_input row) (f :: reference'))
    as (relevant & -> & _).
  rewrite !bind_ok. eexists. split; [done|].
  apply (Hstep ap); try done; [|intros [?|?]; done].
  apply float_le in Hle. lra.
Qed.

Lemma evaluate_map_loop env (done_rows rows : list (nat * row)) results :
  map_invariant done_rows.*2 results →
  ∃ results',
    Py.for_ rows results (evaluate_map_row env) = Py.Ok results' ∧
    map_invariant (done_rows ++ rows).*2 results'.
Proof.
  revert done_rows results. induction rows as [|[idx row] rows IH];
    intros done_rows results Hinv.
  - exists results. split; [done|]. by rewrite app_nil_r.
  - destruct (evaluate_map_row_ok env _ _ idx row Hinv) as (results1 & Hrow & Hinv1).
    destruct (IH (done_rows ++ [(idx, row)]) results1) as (results' & Hloop & Hinv').
    { by rewrite fmap_app. }
    exists results'. rewrite for_cons, Hrow, bind_ok. split; [done|].
    by rewrite <- app_assoc in Hinv'.
Qed.

(** X22: [evaluate_map] raises no exception; it records one average
    precision per row, not negative and at most the number of retrieved
    chunks of the row, and 0 for a row without retrieved or without
    reference chunks; the two counters add up to the number of rows, the
    first counting the positive values; and MAP is not negative. *)
Theorem evaluate_map_totals env (df : list row) :
  ∃ results,
    evaluate_map env df = Py.Ok results ∧
    length (average_precisions results) = length df ∧
    total_queries results = length df ∧
    Forall (λ ap, 0 <= ap) (average_precisions results) ∧
    queries_with_relevant_chunks results
      = length (filter (λ ap, Py.gt ap 0 = true) (average_precisions results)) ∧
    (queries_with_relevant_chunks results + queries_without_relevant_chunks results
     = length df)%nat ∧
    (∀ i row, df !! i = Some row →
       ∃ ap, average_precisions results !! i = Some ap ∧
         ap <= Py.float (length (retrieved_contexts row)) ∧
         (retrieved_contexts row = [] ∨ reference_contexts row = [] → ap = 0)) ∧
    0 <= mean_average_precision results.
Proof.
  destruct (evaluate_map_loop env [] (Py.enumerate df) no_map_results)
    as (results & Hloop & Hinv).
  { unfold map_invariant. simpl. repeat split; try done. }
  simpl in Hinv. rewrite enumerate_snd in Hinv.
  destruct Hinv as (Hlen & Htot & Hall & Hwith & Hsum & Hrows).
  unfold evaluate_map. rewrite Hloop, bind_ok. eexists. split; [done|]. simpl.
  repeat (split; [done|]).
  by apply mean_nonneg.
Qed.

End MeanAveragePrecision.

(** ** Concrete inputs for the properties above *)

Section FurtherExamples.
Local Open Scope Q_scope.
Local Existing Instance Basic.unicode.

Lemma get_scores_after_fit_witness :
  ∃ scores,
    BM25_evaluate.get_scores
      (BM25_evaluate.fit BM25_evaluate.new [Py.str "abc"; Py.str "xyz"])
      (Py.str "abc") = Py.Ok scores ∧
    length scores = 2%nat ∧
    scores !! 1%nat = Some 0%R.
Proof.
  destruct (get_scores_after_fit BM25_evaluate.new [Py.str "abc"; Py.str "xyz"]
              (Py.str "abc")) as (scores & Hs & Hl & _ & Hz).
  - simpl. lra.
  - simpl. lra.
  - exists scores. split; [exact Hs|]. split; [exact Hl|].
    apply (Hz 1%nat (Py.str "xyz")); [reflexivity|].
    intros t Ht Hin. vm_compute in Ht, Hin.
    apply list_elem_of_singleton in Ht. subst t.
    apply list_elem_of_singleton in Hin. discriminate Hin.
Defined.

Lemma bm25_filter_shared_tokens_witness :
  BM25_evaluate.is_chunk_relevant (Py.str "q") (Py.str "abc") (-10)
  = Py.Ok (bool_decide (shared_tokens (Py.str "q") (Py.str "abc") ≤ 9)%nat,
           (- INR (shared_tokens (Py.str "q") (Py.str "abc")) * ln 3)%R).
Proof.
  apply bm25_filter_shared_tokens; intros E; discriminate E.
Defined.

Lemma ranked_chunks_complete_witness :
  ∃ scores ranked,
    BM25_evaluate.get_scores
      (BM25_evaluate.fit BM25_evaluate.new [chunk_A; chunk_B]) (Py.str "q")
      = Py.Ok scores ∧
    MRR_Metrics.get_ranked_chunks_for_query (Py.str "q") [chunk_A; chunk_B]
      = Py.Ok ranked ∧
    ranked ≡ₚ filter (λ chunk_score, (-10 < chunk_score.2)%R)
                (zip [chunk_A; chunk_B] scores).
Proof.
  apply ranked_chunks_complete; intros E; discriminate E.
Defined.

Lemma similarity_symmetric_for_different_lengths_witness :
  app.calculate_text_similarity (9 # 10)
    (Py.str "abcde1234567x") (Py.str "zyxwvutabcde")
  = app.calculate_text_similarity (9 # 10)
      (Py.str "zyxwvutabcde") (Py.str "abcde1234567x").
Proof.
  destruct (similarity_symmetric_for_different_lengths (9 # 10)
              (Py.str "abcde1234567x") (Py.str "zyxwvutabcde")) as [Hsym _].
  - left. vm_compute. intros E. discriminate E.
  - exact Hsym.
Defined.

Lemma contained_text_similarity_witness :
  4 # 5 <= app.calculate_text_similarity (9 # 10) (Py.str "abc") (Py.str "abc def") ∧
  4 # 5 <= app.calculate_text_similarity (9 # 10) (Py.str "abc def") (Py.str "abc").
Proof.
  destruct (contained_text_similarity (9 # 10) (Py.str "abc") (Py.str "abc def"))
    as (Hxy & Hyx & _).
  - vm_compute. intros E. discriminate E.
  - vm_compute. lia.
  - reflexivity.
  - split; [exact Hxy | exact Hyx].
Defined.

Lemma semantic_containment_lifts_score_witness :
  Py.min (9 # 10) (19 # 20)
    <= BM25_evaluate.calculate_relevance_score default_env (Py.str "abc") (Py.str "abc").
Proof.
  apply (semantic_containment_lifts_score default_env (Py.str "abc") (Py.str "abc")).
  reflexivity.
Defined.

Lemma f1_score_unit_interval_witness :
  0 <= F1_Metrics.calculate_f1_score (Some (1 # 2)) (Some 1) <= 1.
Proof.
  destruct (f1_score_unit_interval (1 # 2) 1) as (Hb & _).
  - split; intros E; discriminate E.
  - split; intros E; discriminate E.
  - exact Hb.
Defined.


Lemma ndcg_relevance_matches_classification_witness :
  ∃ e,
    BM25_evaluate.evaluate_row default_env 0 half_precise_sample = Py.Ok (Some e) ∧
    (NDCG_Metrics.calculate_relevance_scores default_env
       (BM25_evaluate.retrieved_contexts half_precise_sample)
       (BM25_evaluate.reference_contexts half_precise_sample) !! 1%nat = Some 0
     ↔ 1%nat ∈ irrelevant_indices e).
Proof.
  destruct (ndcg_relevance_matches_classification default_env 0 half_precise_sample)
    as (e & He & _ & Hi).
  - intros E. discriminate E.
  - intros E. discriminate E.
  - exists e. split; [exact He|]. exact (proj2 (Hi 1%nat)).
Defined.

Lemma average_precision_above_one_witness :
  ∃ ap details,
    MAP_Metrics.calculate_average_precision default_env (Py.str "q")
      [chunk_A; chunk_B; chunk_C] [chunk_C] = Py.Ok (ap, details) ∧
    1 <= ap.
Proof.
  destruct (average_precision_above_one default_env (Py.str "q")
              [chunk_A; chunk_B; chunk_C] [chunk_C]) as (ap & details & Hap & Hone & _).
  - exists chunk_C, chunk_C. split; [reflexivity|]. split; [left|].
    split; [exact query_qualifies_C | by vm_compute].
  - exists ap, details. split; [exact Hap | exact Hone].
Defined.

End FurtherExamples.
